(** * CapCut template scraper: the per-record pipeline and its helpers

    A shallow embedding of [capcut_scraper.py] (class [CapCutCatboxScraper],
    module [Scraper] below) and of [manual_processor.py] (class
    [ManualTemplateProcessor], module [Manual] below), followed by the
    properties of the template-discovery-and-export pipeline.

    Conventions.
    - A Python [str] is a [list ascii]; a character is a code point below
      256 (Latin-1).  On that range [\d], [\w], [\s] and [str.strip] are the
      finite tables [is_digit], [is_word], [is_space] below.
    - [None] is [None]; a function that returns a value or [None] returns an
      [option].
    - An exception raised inside a [try] block is an outcome of the
      environment (an [option] or an enumerated outcome), handled where the
      source has its [except].
    - Of the operating system: opening a path for writing and
      [cv2.imwrite] succeed, and [os.remove] raises only for a missing
      file.  Console output is left out. *)

From Stdlib Require Import Ascii String ZArith Floats Lia DecimalString.
From stdpp Require Import gmap strings list fin_maps.

Open Scope nat_scope.

Abbreviation str := (list ascii).

(** A string literal as a Python [str]. *)
Definition py (s : string) : str := list_ascii_of_string s.

(** ** Character classes (Latin-1 part of the Unicode tables) *)

Definition in_range (lo hi : nat) (c : ascii) : bool :=
  let n := nat_of_ascii c in (lo <=? n) && (n <=? hi).

(** [\d]: decimal digits. *)
Definition is_digit (c : ascii) : bool := in_range 48 57 c.

(** [\s] and [str.isspace]. *)
Definition is_space (c : ascii) : bool :=
  in_range 9 13 c || in_range 28 32 c
  || in_range 133 133 c || in_range 160 160 c.

(** [\w]: alphanumerics and the underscore. *)
Definition is_word (c : ascii) : bool :=
  in_range 48 57 c || in_range 65 90 c || in_range 95 95 c
  || in_range 97 122 c || in_range 170 170 c || in_range 178 179 c
  || in_range 181 181 c || in_range 185 186 c || in_range 188 190 c
  || in_range 192 214 c || in_range 216 246 c || in_range 248 255 c.

Definition char_is (a : ascii) (c : ascii) : bool := Ascii.eqb a c.
Definition char_not (a : ascii) (c : ascii) : bool := negb (Ascii.eqb a c).

(** ** String methods *)

(** [s.startswith(p)] *)
Fixpoint startswith (p s : str) : bool :=
  match p, s with
  | [], _ => true
  | a :: p', b :: s' => Ascii.eqb a b && startswith p' s'
  | _ :: _, [] => false
  end.

(** [s.endswith(p)] *)
Definition endswith (p s : str) : bool := startswith (rev p) (rev s).

(** [sub in s] *)
Fixpoint contains (sub s : str) : bool :=
  startswith sub s ||
  match s with
  | [] => false
  | _ :: s' => contains sub s'
  end.

Fixpoint lstrip (s : str) : str :=
  match s with
  | c :: s' => if is_space c then lstrip s' else s
  | [] => []
  end.

Definition rstrip (s : str) : str := rev (lstrip (rev s)).

(** [s.strip()] *)
Definition strip (s : str) : str := rstrip (lstrip s).

(** [s[i:j]] for [0 <= i], [0 <= j]. *)
Definition slice (i j : nat) (s : str) : str := take (j - i) (drop i s).

(** [s.split(sep)] for a one-character separator. *)
Fixpoint split_on (sep : ascii) (s : str) : list str :=
  match s with
  | [] => [[]]
  | c :: s' =>
      if Ascii.eqb c sep then [] :: split_on sep s'
      else match split_on sep s' with
           | w :: ws => (c :: w) :: ws
           | [] => [[c]]
           end
  end.

(** [sep.join(l)] *)
Fixpoint join (sep : str) (l : list str) : str :=
  match l with
  | [] => []
  | [x] => x
  | x :: l' => x ++ sep ++ join sep l'
  end.

(** The number of positions of [s] at which [sub] occurs. *)
Fixpoint count_sub (sub s : str) : nat :=
  (if startswith sub s then 1 else 0) +
  match s with
  | [] => 0
  | _ :: s' => count_sub sub s'
  end.

(** Truthiness of an optional string: [None] and the empty string are falsy. *)
Definition truthy (o : option str) : bool :=
  match o with
  | Some (_ :: _) => true
  | _ => false
  end.

(** [o or d] for an optional string. *)
Definition or_else (o : option str) (d : str) : str :=
  match o with
  | Some (c :: s) => c :: s
  | _ => d
  end.

(** ** Regular expressions ([re.search], [re.findall], [re.sub])

    The patterns of the two scripts are sequences of literal characters,
    greedy repetitions of one character class, capture groups and [$]. *)

Inductive item : Type :=
| Lit (c : ascii)                                  (* one literal character *)
| Rep (p : ascii → bool) (lo : nat) (hi : option nat)
                                  (* greedy [p{lo,hi}]; [hi = None]: no bound *)
| Open                                             (* [(] *)
| Close                                            (* [)] *)
| Eos.                                             (* [$] *)

Abbreviation regex := (list item).

Definition lits (s : string) : regex := Lit <$> py s.
Definition plus (p : ascii → bool) : item := Rep p 1 None.
Definition star (p : ascii → bool) : item := Rep p 0 None.
Definition opt (p : ascii → bool) : item := Rep p 0 (Some 1).

(** Length of the longest prefix of [s] whose characters satisfy [p]. *)
Fixpoint span_len (p : ascii → bool) (s : str) : nat :=
  match s with
  | c :: s' => if p c then S (span_len p s') else 0
  | [] => 0
  end.

(** [s] has [n] digits in a row somewhere. *)
Fixpoint has_digit_run (n : nat) (s : str) : bool :=
  (n <=? span_len is_digit s) ||
  match s with
  | [] => false
  | _ :: s' => has_digit_run n s'
  end.

Definition rep_max (p : ascii → bool) (hi : option nat) (s : str) : nat :=
  match hi with
  | Some h => min h (span_len p s)
  | None => span_len p s
  end.

(** Backtracking of a greedy repetition: the longest count first. *)
Fixpoint backtrack {A : Type} (f : nat → option A) (lo n : nat) : option A :=
  if n <? lo then None
  else match f n with
       | Some r => Some r
       | None => match n with
                 | O => None
                 | S n' => backtrack f lo n'
                 end
       end.

(** [$]: at the end of the text, or just before a newline that ends it. *)
Definition at_end (s : str) : bool :=
  match s with
  | [] => true
  | [c] => Ascii.eqb c "010"%char
  | _ => false
  end.

(** Match [r] at the head of [s], which starts at position [pos] of the text.
    The result is the end position and the positions of the group
    delimiters met, in order. *)
Fixpoint match_here (r : regex) (s : str) (pos : nat) (marks : list nat)
  : option (nat * list nat) :=
  match r with
  | [] => Some (pos, marks)
  | Lit c :: r' =>
      match s with
      | x :: s' => if Ascii.eqb c x then match_here r' s' (S pos) marks else None
      | [] => None
      end
  | Rep p lo hi :: r' =>
      backtrack (λ k, match_here r' (drop k s) (pos + k) marks)
                lo (rep_max p hi s)
  | Open :: r' => match_here r' s pos (marks ++ [pos])
  | Close :: r' => match_here r' s pos (marks ++ [pos])
  | Eos :: r' => if at_end s then match_here r' s pos marks else None
  end.

(** A match object: the text, the span and the group delimiters. *)
Record rmatch : Type := RMatch {
  m_string : str;
  m_start : nat;
  m_end : nat;
  m_marks : list nat
}.

(** [m.group(0)] *)
Definition group0 (m : rmatch) : str := slice (m_start m) (m_end m) (m_string m).

(** [m.group(k)] for [k >= 1], groups being numbered by their opening
    parenthesis and not nested. *)
Definition group (k : nat) (m : rmatch) : option str :=
  match m_marks m !! (2 * k - 2), m_marks m !! (2 * k - 1) with
  | Some a, Some b => Some (slice a b (m_string m))
  | _, _ => None
  end.

(** Leftmost match in [text], scanning the suffix [s] that starts at [pos]. *)
Fixpoint search_from (r : regex) (text s : str) (pos : nat) : option rmatch :=
  match match_here r s pos [] with
  | Some (e, marks) => Some (RMatch text pos e marks)
  | None =>
      match s with
      | [] => None
      | _ :: s' => search_from r text s' (S pos)
      end
  end.

(** [re.search(r, text)] *)
Definition re_search (r : regex) (text : str) : option rmatch :=
  search_from r text text 0.

(** [re.findall(r, text)] for a pattern that matches no empty string: what
    [sel] takes from every match (the whole match for a pattern without
    group, the group for a pattern with one), left to right, without
    overlap.  [skip] counts the characters of the last match still to be
    passed. *)
Fixpoint findall_from (sel : rmatch → option str) (r : regex) (text s : str)
    (pos skip : nat) : list str :=
  match s with
  | [] => []
  | _ :: s' =>
      match skip with
      | S k => findall_from sel r text s' (S pos) k
      | O =>
          match match_here r s pos [] with
          | Some (e, marks) =>
              match sel (RMatch text pos e marks) with
              | Some g => g :: findall_from sel r text s' (S pos) (e - pos - 1)
              | None => findall_from sel r text s' (S pos) (e - pos - 1)
              end
          | None => findall_from sel r text s' (S pos) 0
          end
      end
  end.

Definition re_findall (sel : rmatch → option str) (r : regex) (text : str)
  : list str :=
  findall_from sel r text text 0 0.

(** [re.sub(cls, '', s)] for a pattern that is one character class. *)
Definition re_sub_class (cls : ascii → bool) (s : str) : str :=
  filter (λ c, cls c = false) s.

(** ** What a pattern matches, stated without the search order

    [Matches r u rest]: the pattern [r] matches the text [u] when [u] is
    followed by [rest] in the subject. *)
Inductive Matches : regex → str → str → Prop :=
| M_nil rest : Matches [] [] rest
| M_lit c r u rest :
    Matches r u rest → Matches (Lit c :: r) (c :: u) rest
| M_rep p lo hi r v u rest :
    Forall (λ c, p c = true) v →
    lo ≤ length v →
    (∀ h, hi = Some h → length v ≤ h) →
    Matches r u rest →
    Matches (Rep p lo hi :: r) (v ++ u) rest
| M_open r u rest : Matches r u rest → Matches (Open :: r) u rest
| M_close r u rest : Matches r u rest → Matches (Close :: r) u rest
| M_eos r u rest :
    at_end (u ++ rest) = true → Matches r u rest → Matches (Eos :: r) u rest.

(** The pattern [r] matches somewhere in [text]. *)
Definition occurs (r : regex) (text : str) : Prop :=
  ∃ pre u rest, text = pre ++ u ++ rest ∧ Matches r u rest.

(** ** The environment of one pipeline invocation

    Everything the scripts obtain from outside: the rendered page, the HTTP
    exchanges, the video decoder, the clock and the iteration order of a
    Python [set].  The machine the script runs on (its files, a map from
    paths to contents, and the requests sent) is threaded through the
    functions. *)

Abbreviation bytes := (list ascii).

(** An element of the parsed page, as far as the scripts look at it. *)
Record element : Type := Element {
  el_name : str;                      (* [element.name] *)
  el_text : str;                      (* [element.get_text(strip=True)] *)
  el_get : str → option str           (* [element.get(attr)] *)
}.

(** A [<video>] tag: its [src] and the [src] of its [<source>] children. *)
Record video_tag : Type := VideoTag {
  v_src : option str;
  v_sources : list (option str)
}.

(** The page after [driver.get]: the parsed soup and the live browser. *)
Record page : Type := Page {
  select_one : str → option element;       (* [soup.select_one(selector)] *)
  find_meta_keywords : option element;
                         (* [soup.find('meta', attrs={'name': 'keywords'})] *)
  get_text : str;                          (* [soup.get_text()] *)
  find_all_video : list video_tag;         (* [soup.find_all('video')] *)
  driver_video_src : option (option str);
      (* [driver.find_element(By.TAG_NAME, 'video').get_attribute('src')];
         [None]: the lookup raises *)
  page_source : str                        (* [driver.page_source] *)
}.

(** An HTTP response. *)
Record response : Type := Response {
  status_code : Z;
  text : str
}.

(** A GET with [stream=True] ([requests.get] in the manual script,
    [self.session.get] in the automated one) followed by [raise_for_status]
    and the iteration over the body. *)
Inductive get_outcome : Type :=
| GetError                      (* the request or [raise_for_status] raises *)
| GetStream (chunks : list bytes) (complete : bool).
                 (* the body chunks received; [complete = false]: the stream
                    raises after them *)

(** An opened video, as [cv2.VideoCapture] reports it. *)
Record video : Type := Video {
  fps : float;                        (* [cap.get(cv2.CAP_PROP_FPS)] *)
  frame_count : float;                (* [cap.get(cv2.CAP_PROP_FRAME_COUNT)] *)
  frame_at : Z → option bytes
      (* the frame [cap.read()] decodes after seeking to a frame number, as
         [cv2.imwrite] encodes it; [None]: [ret] is false *)
}.

Record world : Type := World {
  driver_get : str → option page;     (* [None]: loading the page raises *)
  http_get : str → get_outcome;       (* the answer to [requests.get] *)
  session_get : str → get_outcome;
      (* the answer to [self.session.get], which sends the headers of the
         session *)
  total_size : str → option Z;
      (* [int(response.headers.get('content-length', 0))] for the answer to
         [self.session.get]; [None]: [int] raises *)
  http_post : nat → str → bytes → option response;
      (* the answer to one POST of a file, given the timeout, the path and
         the content of the file; [None]: the request raises *)
  cv_open : bytes → option video;     (* [None]: [isOpened()] is false *)
  clock_video : N;                    (* [int(time.time())], first call *)
  clock_thumb : N;                    (* [int(time.time())], second call *)
  set_order : list str → list str     (* [list(set(l))] *)
}.

(** What Python guarantees of [list(set(l))]: the elements of [l], each
    once, in an order of the runtime's choice. *)
Definition set_iteration (order : list str → list str) : Prop :=
  ∀ l, NoDup (order l) ∧ ∀ x, x ∈ order l ↔ x ∈ l.

Abbreviation filesystem := (gmap (list ascii) (list ascii)).

(** The requests sent, kept to count them. *)
Inductive request : Type :=
| GET (url : str)
| POST (timeout : nat) (file_path : str).

(** The machine the script runs on: its files and the requests it has sent
    so far, the latest last. *)
Record system : Type := System {
  files : filesystem;
  sent : list request
}.

Definition write_file (path : str) (content : bytes) (σ : system) : system :=
  System (<[path := content]> (files σ)) (sent σ).

Definition send (r : request) (σ : system) : system :=
  System (files σ) (sent σ ++ [r]).

(** [os.remove(path)]: [None] when it raises (no such file). *)
Definition os_remove (path : str) (σ : system) : option system :=
  match files σ !! path with
  | Some _ => Some (System (delete path (files σ)) (sent σ))
  | None => None
  end.

(** The block [try: os.remove(a); os.remove(b) except: pass]. *)
Definition remove_both (a b : str) (σ : system) : system :=
  match os_remove a σ with
  | Some σ' => default σ' (os_remove b σ')
  | None => σ
  end.

(** [os.path.join(a, b)] *)
Definition path_join (a b : str) : str :=
  if startswith (py "/") b then b
  else match last a with
       | None => b
       | Some c => if Ascii.eqb c "/"%char then a ++ b else a ++ py "/" ++ b
       end.

(** [str(n)] for a non-negative integer. *)
Definition str_of_N (n : N) : str := py (NilZero.string_of_uint (N.to_uint n)).

(** [int(x)] for a float: truncation towards zero; [None] when it raises
    (NaN, infinity). *)
Definition int_of_float (x : float) : option Z :=
  match Prim2SF x with
  | S754_zero _ => Some 0%Z
  | S754_finite neg m e =>
      let a := if (0 <=? e)%Z then (Z.pos m * 2 ^ e)%Z
               else (Z.pos m / 2 ^ (- e))%Z in
      Some (if neg then (- a)%Z else a)
  | S754_infinity _ => None
  | S754_nan => None
  end.

(** The body of the deep link around the two places of the identifier
    (one f-string in both scripts). *)
Definition link_head : str := py
  "https://capcut-yt.onelink.me/W3Oy/cw7bmax3?af_dp=capcut%3A%2F%2Ftemplate%2Fdetail%3Fenter_app%3Dother%26enter_from%3DSEO_detail_page%26template_id%3D".
Definition link_mid : str := py
  "%26template_language%3DNone&af_xp=social&deep_link_sub1=%7B%22share_token%22%3A%22None%22%7D&deep_link_value=capcut%253A%252F%252Ftemplate%252Fdetail%253Fenter_app%253Dother%2526enter_from%253DSEO_detail_page%2526template_id%253D".
Definition link_tail : str := py
  "%2526template_language%253DNone&is_retargeting=true&pid=SEO_detail".

(** ** The CSV writer ([csv.DictWriter], dialect [excel]) *)

Definition quote_char : ascii := "034"%char.
Definition cr : ascii := "013"%char.
Definition lf : ascii := "010"%char.

(** The text [s] between double quotes. *)
Definition quoted (s : string) : str := [quote_char] ++ py s ++ [quote_char].

Definition needs_quotes (c : ascii) : bool :=
  Ascii.eqb c ","%char || Ascii.eqb c quote_char
  || Ascii.eqb c cr || Ascii.eqb c lf.

(** The characters of a field, the quote character doubled. *)
Fixpoint csv_escape (s : str) : str :=
  match s with
  | [] => []
  | c :: s' =>
      if Ascii.eqb c quote_char then c :: c :: csv_escape s'
      else c :: csv_escape s'
  end.

(** One field: [None] is written as the empty string. *)
Definition csv_field (v : option str) : str :=
  let s := default [] v in
  if existsb needs_quotes s then [quote_char] ++ csv_escape s ++ [quote_char]
  else s.

(** [writer.writerow]: the fields joined by commas, then CR LF. *)
Definition csv_row (fields : list (option str)) : str :=
  join (py ",") (csv_field <$> fields) ++ [cr; lf].

(** The number of records of a CSV text, as a reader counts them: the line
    feeds outside quotes. *)
Fixpoint csv_records (in_quotes : bool) (s : str) : nat :=
  match s with
  | [] => 0
  | c :: s' =>
      if Ascii.eqb c quote_char then csv_records (negb in_quotes) s'
      else if Ascii.eqb c lf && negb in_quotes
           then S (csv_records in_quotes s')
           else csv_records in_quotes s'
  end.

(** UTF-8 encoding of a text of code points below 256. *)
Definition utf8_char (c : ascii) : bytes :=
  let n := nat_of_ascii c in
  if n <? 128 then [c]
  else [ascii_of_nat (192 + n / 64); ascii_of_nat (128 + n mod 64)].

Definition encode_utf8 (s : str) : bytes := s ≫= utf8_char.

(** [s.lower()] *)
Definition lower_char (c : ascii) : ascii :=
  if in_range 65 90 c || in_range 192 214 c || in_range 216 222 c
  then ascii_of_nat (nat_of_ascii c + 32) else c.

Definition lower (s : str) : str := lower_char <$> s.

(** The first result of [f] over [l] that is not [None]. *)
Fixpoint first_some {A B : Type} (f : A → option B) (l : list A) : option B :=
  match l with
  | [] => None
  | x :: l' => match f x with
               | Some y => Some y
               | None => first_some f l'
               end
  end.

(** ** Patterns with one capture group *)

(** A pattern without capture group. *)
Definition groupless (r : regex) : bool :=
  forallb (λ i, match i with Open | Close => false | _ => true end) r.

(** A pattern whose one capture group is [(p{lo,hi})]. *)
Definition one_group (p : ascii → bool) (lo : nat) (hi : option nat)
    (r : regex) : Prop :=
  ∃ pre post, r = pre ++ Open :: Rep p lo hi :: Close :: post ∧
              groupless pre = true ∧ groupless post = true.

(** * [capcut_scraper.py]: class [CapCutCatboxScraper] *)
Module Scraper.

(** The dictionary [template_data]. *)
Record template : Type := Template {
  web_url : str;
  title : str;
  template_id : option str;
  description : str;
  tags : list str;
  duration : str;
  video_url : option str;
  thumbnail_url : option str;
  capcut_link : option str
}.

(** The scraper object ([self.templates]) and the machine. *)
Record state : Type := State {
  templates : list template;
  sys : system
}.

(** The answer of the host to one upload, as lines 84 to 94 read it. *)
Definition hosted_url (response : response) : option str :=
  if (status_code response =? 200)%Z then
    let catbox_url := strip (text response) in
    if startswith (py "https://") catbox_url then Some catbox_url
    else None
  else None.

Definition upload_to_catbox (w : world) (σ : system) (file_path : str)
  : system * option str :=
  match files σ !! file_path with
  | None => (σ, None)                              (* [open] raises *)
  | Some content =>
      let σ' := send (POST 60 file_path) σ in
      match http_post w 60 file_path content with
      | None => (σ', None)                         (* [requests.post] raises *)
      | Some response => (σ', hosted_url response)
      end
  end.

(** Lines 113 to 121: the frame to seek to; [None] when [int] raises. *)
Definition frame_number (cap : video) (timestamp : float) : option Z :=
  let fps := fps cap in
  let total_frames := frame_count cap in
  let duration := if (0 <? fps)%float then (total_frames / fps)%float
                  else 0%float in
  let timestamp := if (duration <? timestamp)%float then (duration / 2)%float
                   else timestamp in
  int_of_float (timestamp * fps).

Definition extract_video_thumbnail (w : world) (σ : system)
    (video_path output_path : str) (timestamp : float)
  : system * option str :=
  match files σ !! video_path ≫= cv_open w with
  | None => (σ, None)                              (* [not cap.isOpened()] *)
  | Some cap =>
      match frame_number cap timestamp with
      | None => (σ, None)
      | Some n =>
          match frame_at cap n with
          | Some frame => (write_file output_path frame σ, Some output_path)
          | None => (σ, None)
          end
      end
  end.

Definition download_video (w : world) (σ : system)
    (video_url output_path : str) : system * option str :=
  let σ := send (GET video_url) σ in
  match session_get w video_url with
  | GetError => (σ, None)
  | GetStream chunks complete =>
      match total_size w video_url with
      | None => (σ, None)                 (* line 151 raises, before [open] *)
      | Some total_size =>
          let written := concat (filter (λ chunk, chunk ≠ []) chunks) in
          let σ' := write_file output_path written σ in
          if complete then (σ', Some output_path) else (σ', None)
      end
  end.

Definition digits : item := plus is_digit.

Definition patterns : list regex := [
  lits "template_id=" ++ [Open; digits; Close];
                                               (* [template_id=(\d+)] *)
  lits "template-detail/" ++ [plus (char_not "/")] ++ lits "/"
    ++ [Open; digits; Close];
                                               (* [template-detail/[^/]+/(\d+)] *)
  lits "/" ++ [Open; Rep is_digit 19 (Some 19); Close; opt (char_is "/"); Eos];
                                               (* [/(\d{19})/?$] *)
  lits "template/" ++ [Open; digits; Close];
                                               (* [template/(\d+)] *)
  lits "/" ++ [Open; Rep is_digit 16 (Some 20); Close; opt (char_is "/")]
                                               (* [/(\d{16,20})/?] *)
].

(** The loop over the patterns: group 1 of the first that matches. *)
Definition first_group (ps : list regex) (url : str) : option str :=
  first_some (λ pattern, re_search pattern url ≫= group 1) ps.

Definition extract_template_id (url : str) : option str :=
  first_group patterns url.

Definition generate_capcut_link (template_id : option str) : option str :=
  if truthy template_id then
    let id := default [] template_id in
    Some (link_head ++ id ++ link_mid ++ id ++ link_tail)
  else None.

Definition title_selectors : list str := [
  py "h1[class*=" ++ quoted "title" ++ py "]";
  py "h1[data-testid*=" ++ quoted "title" ++ py "]";
  py ".template-title";
  py "h1";
  py "[class*=" ++ quoted "template" ++ py "] h1"
].

Definition extract_title (soup : page) : str :=
  default (py "Untitled Template")
    (first_some
       (λ selector,
          match select_one soup selector with
          | Some element =>
              let title := el_text element in
              if 3 <? length title then Some title else None
          | None => None
          end)
       title_selectors).

Definition description_selectors : list str := [
  py "meta[name=" ++ quoted "description" ++ py "]";
  py "meta[property=" ++ quoted "og:description" ++ py "]";
  py ".description";
  py ".template-description"
].

Definition extract_description (soup : page) : str :=
  default []
    (first_some
       (λ selector,
          match select_one soup selector with
          | Some element =>
              if decide (el_name element = py "meta")
              then Some (default [] (el_get element (py "content")))
              else Some (el_text element)
          | None => None
          end)
       description_selectors).

Definition extract_tags (w : world) (soup : page) : list str :=
  let tags :=
    match find_meta_keywords soup with
    | Some keywords =>
        let content := default [] (el_get keywords (py "content")) in
        strip <$> filter (λ tag, strip tag ≠ []) (split_on "," content)
    | None => []
    end in
  let hashtags := re_findall (group 1) (lits "#" ++ [Open; plus is_word; Close])
                    (get_text soup) in                        (* [#(\w+)] *)
  let tags := tags ++ take 5 hashtags in
  take 5 (set_order w tags).

Definition duration_patterns : list regex := [
  [Open; digits; Close] ++ lits ":" ++ [Open; digits; Close];  (* [(\d+):(\d+)] *)
  [Open; digits; Close] ++ lits "s";                           (* [(\d+)s] *)
  [Open; digits; Close; star is_space] ++ lits "sec"           (* [(\d+)\s*sec] *)
].

Definition extract_duration (soup : page) : str :=
  let text_content := get_text soup in
  default (py "0:15")
    (first_some (λ pattern, group0 <$> re_search pattern text_content)
       duration_patterns).

(** [src] when it is set and starts with [http] or [//]. *)
Definition usable_src (src : option str) : option str :=
  match src with
  | Some s =>
      if truthy src && (startswith (py "http") s || startswith (py "//") s)
      then Some (if startswith (py "//") s then py "https:" ++ s else s)
      else None
  | None => None
  end.

Definition not_quote_space (c : ascii) : bool :=
  negb (Ascii.eqb c quote_char) && negb (is_space c).

(** The three patterns of method 3 with what [re.findall] returns for each. *)
Definition video_patterns : list ((rmatch → option str) * regex) := [
  (λ m, Some (group0 m),
   lits "https://" ++ [plus not_quote_space] ++ lits ".mp4"
     ++ [star not_quote_space]);
                          (* [https://[^Q\s]+\.mp4[^Q\s]*], Q the quote *)
  (λ m, Some (group0 m),
   lits "https://" ++ [plus not_quote_space] ++ lits "/video/"
     ++ [plus not_quote_space]);
                          (* [https://[^Q\s]+/video/[^Q\s]+] *)
  (group 1,
   [Lit quote_char; Open] ++ lits "https://" ++ [plus (char_not quote_char)]
     ++ lits ".mp4" ++ [star (char_not quote_char); Close; Lit quote_char])
                          (* [Q(https://[^Q]+\.mp4[^Q]{0,})Q] *)
].

Definition extract_video_url (soup : page) : option str :=
  match first_some
          (λ video,
             match usable_src (v_src video) with
             | Some src => Some src
             | None => first_some usable_src (v_sources video)
             end)
          (find_all_video soup) with
  | Some src => Some src
  | None =>
      match driver_video_src soup with
      | Some (Some (c :: src)) => Some (c :: src)
      | _ =>
          first_some
            (λ '(sel, pattern),
               first_some
                 (λ m, if contains (py "mp4") (lower m) then Some m else None)
                 (re_findall sel pattern (page_source soup)))
            video_patterns
      end
  end.

(** Lines 244 and 245. *)
Definition video_path (w : world) (template_id : option str) : str :=
  let video_filename :=
    or_else template_id (py "unknown") ++ py "_" ++ str_of_N (clock_video w)
      ++ py ".mp4" in
  path_join (py "downloads/videos") video_filename.

(** Lines 249 and 250. *)
Definition thumbnail_path (w : world) (template_id : option str) : str :=
  let thumbnail_filename :=
    or_else template_id (py "unknown") ++ py "_" ++ str_of_N (clock_thumb w)
      ++ py ".jpg" in
  path_join (py "downloads/thumbnails") thumbnail_filename.

(** Lines 243 to 266: download, thumbnail, the two uploads and the removal
    of the local files, on the dictionary built before. *)
Definition process_media (w : world) (σ : system) (video_url : str)
    (template_data : template) : system * template :=
  let video_path := video_path w (template_id template_data) in
  match download_video w σ video_url video_path with
  | (σ1, Some _) =>
      let thumbnail_path := thumbnail_path w (template_id template_data) in
      match extract_video_thumbnail w σ1 video_path thumbnail_path 2%float with
      | (σ2, Some _) =>
          let '(σ3, video) := upload_to_catbox w σ2 video_path in
          let '(σ4, thumbnail) := upload_to_catbox w σ3 thumbnail_path in
          let template_data :=
            {| web_url := web_url template_data;
               title := title template_data;
               template_id := template_id template_data;
               description := description template_data;
               tags := tags template_data;
               duration := duration template_data;
               video_url := video;
               thumbnail_url := thumbnail;
               capcut_link := capcut_link template_data |} in
          (remove_both video_path thumbnail_path σ4, template_data)
      | (σ2, None) => (σ2, template_data)
      end
  | (σ1, None) => (σ1, template_data)
  end.

(** The dictionary at line 268, when control reaches that line: [None] when
    loading the page raises or no video URL is found. *)
Definition template_data_at_end (w : world) (σ : system) (template_url : str)
  : option (system * template) :=
  match driver_get w template_url with
  | None => None
  | Some soup =>
      let template_data :=
        {| web_url := template_url;
           title := extract_title soup;
           template_id := extract_template_id template_url;
           description := extract_description soup;
           tags := extract_tags w soup;
           duration := extract_duration soup;
           video_url := None;
           thumbnail_url := None;
           capcut_link := None |} in
      match extract_video_url soup with
      | Some (c :: url) =>
          let template_data :=
            if truthy (template_id template_data) then
              {| web_url := web_url template_data;
                 title := title template_data;
                 template_id := template_id template_data;
                 description := description template_data;
                 tags := tags template_data;
                 duration := duration template_data;
                 video_url := video_url template_data;
                 thumbnail_url := thumbnail_url template_data;
                 capcut_link := generate_capcut_link (template_id template_data) |}
            else template_data in
          Some (process_media w σ (c :: url) template_data)
      | _ => None
      end
  end.

Definition scrape_template_page (w : world) (σ : system) (template_url : str)
  : system * option template :=
  match template_data_at_end w σ template_url with
  | Some (σ', template_data) =>
      if truthy (video_url template_data) && truthy (thumbnail_url template_data)
      then (σ', Some template_data)
      else (σ', None)
  | None => (σ, None)
  end.

(** Lines 443 to 446, the body of the loop of [search_templates]:
    [processed] counts the records kept. *)
Definition scrape_and_keep (w : world) (st : state) (processed : nat)
    (url : str) : state * nat :=
  match scrape_template_page w (sys st) url with
  | (σ', Some template_data) =>
      (State (templates st ++ [template_data]) σ', S processed)
  | (σ', None) => (State (templates st) σ', processed)
  end.

(** The loop of [search_templates] over the links found, each with the
    environment it is processed in. *)
Fixpoint process_links (max_results processed : nat) (st : state)
    (links : list (str * world)) : state :=
  match links with
  | [] => st
  | (url, w) :: links' =>
      let '(st', processed') := scrape_and_keep w st processed url in
      if max_results <=? processed' then st'
      else process_links max_results processed' st' links'
  end.

Definition search_templates (max_results : nat) (st : state)
    (template_links : list (str * world)) : state :=
  process_links max_results 0 st (take max_results template_links).

Definition fieldnames : list str := [
  py "title"; py "template_id"; py "capcut_link"; py "video_url";
  py "thumbnail_url"; py "web_url"; py "description"; py "tags"; py "duration"
].

Definition row_of (template : template) : list (option str) := [
  Some (title template); template_id template; capcut_link template;
  video_url template; thumbnail_url template; Some (web_url template);
  Some (description template); Some (join (py ", ") (tags template));
  Some (duration template)
].

(** The text written by [writeheader] and the [writerow] loop. *)
Definition csv_text (ts : list template) : str :=
  csv_row (Some <$> fieldnames) ++ concat (csv_row ∘ row_of <$> ts).

Definition export_to_csv (filename : str) (st : state) : state * option str :=
  match templates st with
  | [] => (st, None)
  | _ :: _ =>
      let filepath := path_join (py "output") filename in
      (State (templates st)
             (write_file filepath (encode_utf8 (csv_text (templates st)))
                (sys st)),
       Some filepath)
  end.

(** Lines 422 to 427 of [search_templates]. *)
Definition link_selectors : list str := [
  py "a[href*=" ++ quoted "/template-detail/" ++ py "]";
  py "a[href*=" ++ quoted "/explore/" ++ py "]";
  py ".template-item a";
  py ".template-card a"
].

(** Lines 432 to 436, the body of the inner loop: [urljoin] is
    [urljoin('https://www.capcut.com', href)] of [urllib.parse]. *)
Definition add_link (urljoin : str → str) (template_links : list str)
    (link : element) : list str :=
  let href := el_get link (py "href") in
  if truthy href && contains (py "template-detail") (default [] href) then
    let full_url := urljoin (default [] href) in
    if decide (full_url ∈ template_links) then template_links
    else template_links ++ [full_url]
  else template_links.

(** Lines 419 to 436: the links found on the result page, [select] being
    [soup.select]. *)
Definition find_template_links (select : str → list element)
    (urljoin : str → str) : list str :=
  foldl (λ template_links selector,
           foldl (add_link urljoin) template_links (select selector))
        [] link_selectors.

(** Lines 541 and 542 of [main]: one search per query, each with the links
    its result page gave. *)
Definition search_all (max_results : nat) (st : state)
    (searches : list (list (str * world))) : state :=
  foldl (search_templates max_results) st searches.

End Scraper.

(** * [manual_processor.py]: class [ManualTemplateProcessor] *)
Module Manual.

(** The dictionary [template_data]. *)
Record template : Type := Template {
  title : str;
  template_id : option str;
  capcut_link : option str;
  video_url : option str;
  thumbnail_url : option str;
  original_url : str;
  video_source : str
}.

Record state : Type := State {
  templates : list template;
  sys : system
}.

(** The answer of the host to one upload, as lines 38 to 44 read it. *)
Definition hosted_url (response : response) : option str :=
  if (status_code response =? 200)%Z
     && startswith (py "https://") (text response)
  then Some (strip (text response))
  else None.

Definition upload_to_catbox (w : world) (σ : system) (file_path : str)
  : system * option str :=
  match files σ !! file_path with
  | None => (σ, None)                              (* [open] raises *)
  | Some content =>
      let σ' := send (POST 30 file_path) σ in
      match http_post w 30 file_path content with
      | None => (σ', None)                         (* [requests.post] raises *)
      | Some response => (σ', hosted_url response)
      end
  end.

Definition patterns : list regex := [
  lits "template_id=" ++ [Open; Scraper.digits; Close];
                                               (* [template_id=(\d+)] *)
  lits "template-detail/" ++ [plus (char_not "/")] ++ lits "/"
    ++ [Open; Scraper.digits; Close];
                                               (* [template-detail/[^/]+/(\d+)] *)
  lits "/" ++ [Open; Rep is_digit 16 (Some 20); Close; opt (char_is "/")]
                                               (* [/(\d{16,20})/?] *)
].

Definition extract_template_id (url : str) : option str :=
  Scraper.first_group patterns url.

Definition generate_capcut_link (template_id : option str) : option str :=
  if truthy template_id then
    let id := default [] template_id in
    Some (link_head ++ id ++ link_mid ++ id ++ link_tail)
  else None.

Definition download_video (w : world) (σ : system)
    (video_url filename : str) : system * option str :=
  let σ := send (GET video_url) σ in
  match http_get w video_url with
  | GetError => (σ, None)
  | GetStream chunks complete =>
      let σ' := write_file filename (concat chunks) σ in
      if complete then (σ', Some filename) else (σ', None)
  end.

Definition extract_thumbnail (w : world) (σ : system)
    (video_path thumbnail_path : str) : system * option str :=
  match files σ !! video_path ≫= cv_open w with
  | None => (σ, None)                   (* [read] on a capture not opened *)
  | Some cap =>
      match frame_at cap 30 with
      | Some frame => (write_file thumbnail_path frame σ, Some thumbnail_path)
      | None => (σ, None)
      end
  end.

(** The class [[^\w\s-]] that [re.sub] removes from the title. *)
Definition unsafe_char (c : ascii) : bool :=
  negb (is_word c || is_space c || Ascii.eqb c "-"%char).

Definition safe_title (title : str) : str :=
  take 50 (strip (re_sub_class unsafe_char title)).

Definition video_file (title : str) (template_id : option str) : str :=
  py "temp/" ++ safe_title title ++ py "_" ++ or_else template_id (py "manual")
    ++ py ".mp4".

Definition thumb_file (title : str) (template_id : option str) : str :=
  py "temp/" ++ safe_title title ++ py "_" ++ or_else template_id (py "manual")
    ++ py ".jpg".

(** The identifier taken from the optional page URL. *)
Definition template_id_of (template_url : option str) : option str :=
  if truthy template_url then extract_template_id (default [] template_url)
  else None.

(** Lines 127 to 147: download, thumbnail, the two uploads and the removal
    of the local files.  The result is [None] when the function returns at
    line 129 or 133, and the two hosted URLs otherwise. *)
Definition process_media (w : world) (σ : system)
    (title video_url : str) (template_id : option str)
  : system * option (option str * option str) :=
  let video_file := video_file title template_id in
  let thumb_file := thumb_file title template_id in
  match download_video w σ video_url video_file with
  | (σ1, None) => (σ1, None)
  | (σ1, Some _) =>
      match extract_thumbnail w σ1 video_file thumb_file with
      | (σ2, None) => (σ2, None)
      | (σ2, Some _) =>
          let '(σ3, video_catbox_url) := upload_to_catbox w σ2 video_file in
          let '(σ4, thumb_catbox_url) := upload_to_catbox w σ3 thumb_file in
          (remove_both video_file thumb_file σ4,
           Some (video_catbox_url, thumb_catbox_url))
      end
  end.

Definition process_template (w : world) (st : state)
    (title video_url : str) (template_url : option str)
  : state * option template :=
  let template_id := template_id_of template_url in
  match process_media w (sys st) title video_url template_id with
  | (σ', Some (video_catbox_url, thumb_catbox_url)) =>
      if truthy video_catbox_url && truthy thumb_catbox_url then
        let template_data :=
          {| title := title;
             template_id := template_id;
             capcut_link := if truthy template_id
                            then generate_capcut_link template_id
                            else Some [];
             video_url := video_catbox_url;
             thumbnail_url := thumb_catbox_url;
             original_url := or_else template_url [];
             video_source := video_url |} in
        (State (templates st ++ [template_data]) σ', Some template_data)
      else (State (templates st) σ', None)
  | (σ', None) => (State (templates st) σ', None)
  end.

(** One entry typed at the prompts of [main], already stripped. *)
Record entry : Type := Entry {
  e_title : str;
  e_video_url : str;
  e_template_url : str
}.

(** The loop of [main] over the entries typed, each with the environment it
    is processed in; an empty title ends the input. *)
Fixpoint main_loop (st : state) (entries : list (entry * world)) : state :=
  match entries with
  | [] => st
  | (e, w) :: entries' =>
      match e_title e with
      | [] => st
      | _ :: _ =>
          match e_video_url e with
          | [] => main_loop st entries'
          | _ :: _ =>
              let template_url :=
                match e_template_url e with
                | [] => None
                | u => Some u
                end in
              main_loop
                (process_template w st (e_title e) (e_video_url e) template_url).1
                entries'
          end
      end
  end.

Definition fieldnames : list str := [
  py "title"; py "template_id"; py "capcut_link"; py "video_url";
  py "thumbnail_url"; py "original_url"
].

Definition row_of (template : template) : list (option str) := [
  Some (title template); Some (or_else (template_id template) []);
  capcut_link template; video_url template; thumbnail_url template;
  Some (original_url template)
].

Definition csv_text (ts : list template) : str :=
  csv_row (Some <$> fieldnames) ++ concat (csv_row ∘ row_of <$> ts).

Definition export_csv (filename : str) (st : state) : state * str :=
  let filepath := path_join (py "output") filename in
  (State (templates st)
         (write_file filepath (encode_utf8 (csv_text (templates st))) (sys st)),
   filepath).

(** [main]: the entries typed are processed by a new processor, and the
    collection is exported when it is not empty. *)
Definition main (σ : system) (entries : list (entry * world)) : state :=
  let processor := main_loop (State [] σ) entries in
  match templates processor with
  | [] => processor
  | _ :: _ => (export_csv (py "manual_templates.csv") processor).1
  end.

End Manual.

(** * Sample environments *)

Definition sample_page : page :=
  Page (λ _, None) None (py "Phonk edit 0:12 #phonk")
       [VideoTag (Some (py "//host/v.mp4")) []] None [].

Definition sample_video : video :=
  Video 30%float 300%float (λ _, Some (py "jpg")).

(** A video without frame-rate metadata whose frames all decode. *)
Definition no_fps_video : video :=
  Video 0%float 0%float (λ _, Some (py "jpg")).

(** Page, download and decoder are as given, the download being answered
    alike to both scripts and without length header; the host answers 200 with
    [body] to the upload of a file whose path satisfies [ok], and an error
    to any other upload. *)
Definition sample_world (soup : option page) (get : get_outcome)
    (cap : option video) (ok : str → bool) (body : string) : world :=
  World (λ _, soup) (λ _, get) (λ _, get) (λ _, Some 0%Z)
        (λ _ path _, if ok path then Some (Response 200 (py body))
                     else Some (Response 500 (py "error")))
        (λ _, cap) 0 0 remove_dups.

(** Every stage succeeds. *)
Definition hosting_world : world :=
  sample_world (Some sample_page) (GetStream [py "video"] true)
    (Some sample_video) (λ _, true) "https://files.catbox.moe/abc123".

(** Every stage succeeds but the upload of the thumbnail. *)
Definition video_only_world : world :=
  sample_world (Some sample_page) (GetStream [py "video"] true)
    (Some sample_video) (endswith (py ".mp4"))
    "https://files.catbox.moe/abc123".

(** The download succeeds and the file is no video. *)
Definition undecodable_world : world :=
  sample_world (Some sample_page) (GetStream [py "not a video"] true)
    None (λ _, true) "https://files.catbox.moe/abc123".

(** The host answers 200 with [body] to every upload. *)
Definition answering_world (body : string) : world :=
  sample_world None GetError None (λ _, true) body.

(** The decoder opens a video without frame-rate metadata. *)
Definition no_fps_world : world :=
  sample_world None GetError (Some no_fps_video) (λ _, true)
    "https://files.catbox.moe/abc123".

(** Every stage would succeed, but the answer to the download carries a
    length that line 151 of the automated script cannot read. *)
Definition unreadable_length_world : world :=
  World (λ _, Some sample_page)
        (λ _, GetStream [py "video"] true) (λ _, GetStream [py "video"] true)
        (λ _, None)
        (λ _ _ _, Some (Response 200 (py "https://files.catbox.moe/abc123")))
        (λ _, Some sample_video) 0 0 remove_dups.

(** A machine with no file, that has sent nothing. *)
Definition fresh : system := System ∅ [].

(** Whether both hosted URLs of a record are non-empty. *)
Definition both_hosted_scraper (t : Scraper.template) : Prop :=
  truthy (Scraper.video_url t) = true ∧ truthy (Scraper.thumbnail_url t) = true.

Definition both_hosted_manual (t : Manual.template) : Prop :=
  truthy (Manual.video_url t) = true ∧ truthy (Manual.thumbnail_url t) = true.

(** A file name without path separator. *)
Definition plain_name (name : str) : Prop := Forall (λ c, c ≠ "/"%char) name.

(** A hosted URL as the uploaders return it. *)
Definition hosted (o : option str) : Prop :=
  ∃ u, o = Some u ∧ startswith (py "https://") u = true ∧ strip u = u.

(** What holds of every record that the automated variant keeps. *)
Definition scraper_record_ok (t : Scraper.template) : Prop :=
  hosted (Scraper.video_url t) ∧ hosted (Scraper.thumbnail_url t) ∧
  Scraper.template_id t = Scraper.extract_template_id (Scraper.web_url t) ∧
  Scraper.capcut_link t = Scraper.generate_capcut_link (Scraper.template_id t).

(** What holds of every record that the manual variant keeps. *)
Definition manual_record_ok (t : Manual.template) : Prop :=
  hosted (Manual.video_url t) ∧ hosted (Manual.thumbnail_url t) ∧
  Manual.template_id t = Manual.extract_template_id (Manual.original_url t) ∧
  Manual.capcut_link t
  = (if truthy (Manual.template_id t)
     then Manual.generate_capcut_link (Manual.template_id t) else Some []).

(** Case analysis on [H : x ∈ [a; b; ...]]: one goal per element, [x]
    replaced by it. *)
Ltac list_cases H :=
  repeat (apply elem_of_cons in H as [->|H]); [..|by apply elem_of_nil in H].


(** * The regular-expression engine against [Matches] *)
Section Engine.

Lemma backtrack_Some {A : Type} (f : nat → option A) lo n x :
  backtrack f lo n = Some x → ∃ k, lo ≤ k ≤ n ∧ f k = Some x.
Proof.
  induction n as [|n IH]; simpl.
  - destruct (0 <? lo) eqn:E; [done|].
    apply Nat.ltb_ge in E. destruct (f 0) eqn:F; [|done].
    intros [= ->]. exists 0. split; [lia|done].
  - destruct (S n <? lo) eqn:E; [done|].
    apply Nat.ltb_ge in E. destruct (f (S n)) eqn:F.
    + intros [= ->]. exists (S n). split; [lia|done].
    + intros H. destruct (IH H) as (k & Hk & Hf). exists k. split; [lia|done].
Qed.

Lemma backtrack_None {A : Type} (f : nat → option A) lo n :
  backtrack f lo n = None → ∀ k, lo ≤ k ≤ n → f k = None.
Proof.
  induction n as [|n IH]; simpl.
  - destruct (0 <? lo) eqn:E.
    + apply Nat.ltb_lt in E. intros _ k Hk. lia.
    + destruct (f 0) eqn:F; [done|]. intros _ k Hk.
      assert (k = 0) as -> by lia. done.
  - destruct (S n <? lo) eqn:E.
    + apply Nat.ltb_lt in E. intros _ k Hk. lia.
    + destruct (f (S n)) eqn:F; [done|]. intros H k Hk.
      destruct (decide (k = S n)) as [->|Hne]; [done|].
      apply IH; [done|lia].
Qed.

Lemma span_len_le p s : span_len p s ≤ length s.
Proof. induction s as [|c s IH]; simpl; [lia|]. destruct (p c); lia. Qed.

Lemma span_len_take p s k :
  k ≤ span_len p s → Forall (λ c, p c = true) (take k s).
Proof.
  revert k. induction s as [|c s IH]; intros k Hk; simpl in *.
  - destruct k; constructor.
  - destruct k as [|k]; [constructor|]. simpl.
    destruct (p c) eqn:E; [|lia]. constructor; [done|]. apply IH. lia.
Qed.

Lemma span_len_app p v s :
  Forall (λ c, p c = true) v → length v ≤ span_len p (v ++ s).
Proof.
  induction 1 as [|c v Hc _ IH]; simpl; [lia|]. rewrite Hc. lia.
Qed.

Lemma rep_max_bounds p hi s k :
  k ≤ rep_max p hi s → k ≤ span_len p s ∧ ∀ h, hi = Some h → k ≤ h.
Proof.
  unfold rep_max. destruct hi as [h|]; intros Hk.
  - split; [lia|]. intros h' [= <-]. lia.
  - split; [done|]. intros h' [=].
Qed.

(** Soundness: what [match_here] finds is a match. *)
Lemma match_here_sound r : ∀ s pos marks e marks',
  match_here r s pos marks = Some (e, marks') →
  ∃ u rest, s = u ++ rest ∧ e = pos + length u ∧ Matches r u rest.
Proof.
  induction r as [|i r IH]; intros s pos marks e marks'; simpl.
  - intros [= <- <-]. exists [], s. split; [done|]. split; [simpl; lia|constructor].
  - destruct i as [c|p lo hi| | |].
    + destruct s as [|x s]; [done|].
      destruct (Ascii.eqb c x) eqn:E; [|done].
      apply Ascii.eqb_eq in E as <-. intros H.
      destruct (IH _ _ _ _ _ H) as (u & rest & -> & -> & HM).
      exists (c :: u), rest. split; [done|]. split; [simpl; lia|by constructor].
    + intros H. apply backtrack_Some in H as (k & [Hlo Hk] & H).
      destruct (rep_max_bounds _ _ _ _ Hk) as [Hspan Hhi].
      destruct (IH _ _ _ _ _ H) as (u & rest & Hs & -> & HM).
      pose proof (span_len_le p s) as Hlen.
      exists (take k s ++ u), rest.
      assert (length (take k s) = k) as Htk by (rewrite length_take; lia).
      split; [by rewrite <-(assoc_L (++)), <-Hs, take_drop|].
      split; [rewrite length_app; lia|].
      constructor; [by apply span_len_take|lia| |done].
      intros h Hh. rewrite Htk. by apply Hhi.
    + intros H. destruct (IH _ _ _ _ _ H) as (u & rest & -> & -> & HM).
      exists u, rest. split; [done|]. split; [done|by constructor].
    + intros H. destruct (IH _ _ _ _ _ H) as (u & rest & -> & -> & HM).
      exists u, rest. split; [done|]. split; [done|by constructor].
    + destruct (at_end s) eqn:E; [|done]. intros H.
      destruct (IH _ _ _ _ _ H) as (u & rest & -> & -> & HM).
      exists u, rest. split; [done|]. split; [done|by constructor].
Qed.

(** Completeness: where a match exists, [match_here] finds one. *)
Lemma match_here_complete r u rest :
  Matches r u rest →
  ∀ pos marks, is_Some (match_here r (u ++ rest) pos marks).
Proof.
  induction 1 as [rest|c r u rest _ IH|p lo hi r v u rest Hv Hlo Hhi _ IH
                  |r u rest _ IH|r u rest _ IH|r u rest Hend _ IH];
    intros pos marks; simpl.
  - done.
  - rewrite Ascii.eqb_refl. apply IH.
  - destruct (backtrack _ lo _) as [x|] eqn:E; [done|].
    exfalso. pose proof (backtrack_None _ _ _ E (length v)) as HN.
    rewrite <-(assoc_L (++)) in HN. rewrite drop_app_length in HN.
    destruct (IH (pos + length v) marks) as [x Hx].
    rewrite HN in Hx; [done|]. split; [done|].
    pose proof (span_len_app p v (u ++ rest) Hv) as Hspan.
    unfold rep_max. destruct hi as [h|]; [|done].
    specialize (Hhi h eq_refl). lia.
  - apply IH.
  - apply IH.
  - rewrite Hend. apply IH.
Qed.

Lemma search_from_None r text s pos :
  search_from r text s pos = None ↔
  ∀ pre u rest, s = pre ++ u ++ rest → ¬ Matches r u rest.
Proof.
  revert pos. induction s as [|c s IH]; intros pos; simpl.
  - destruct (match_here r [] pos []) as [[e marks]|] eqn:E.
    + split; [done|]. intros H. exfalso.
      destruct (match_here_sound _ _ _ _ _ _ E) as (u & rest & Hs & _ & HM).
      by apply (H [] u rest).
    + split; [|done]. intros _ pre u rest Hs HM.
      symmetry in Hs. apply app_eq_nil in Hs as [-> Hs].
      destruct (match_here_complete _ _ _ HM pos []) as [x Hx].
      rewrite Hs in Hx. by rewrite E in Hx.
  - destruct (match_here r (c :: s) pos []) as [[e marks]|] eqn:E.
    + split; [done|]. intros H. exfalso.
      destruct (match_here_sound _ _ _ _ _ _ E) as (u & rest & Hs & _ & HM).
      by apply (H [] u rest).
    + rewrite IH. split.
      * intros H pre u rest Hs HM. destruct pre as [|c' pre].
        -- destruct (match_here_complete _ _ _ HM pos []) as [x Hx].
           simpl in Hs. rewrite <-Hs in Hx. by rewrite E in Hx.
        -- simpl in Hs. injection Hs as _ Hs. by apply (H pre u rest).
      * intros H pre u rest Hs. apply (H (c :: pre) u rest). by rewrite Hs.
Qed.

(** [re.search] finds nothing exactly when the pattern matches nowhere. *)
Lemma re_search_None r text : re_search r text = None ↔ ¬ occurs r text.
Proof.
  unfold re_search, occurs. rewrite search_from_None. split.
  - intros H (pre & u & rest & Hs & HM). by apply (H pre u rest).
  - intros H pre u rest Hs HM. apply H. by exists pre, u, rest.
Qed.

Lemma search_from_Some r text s pos m :
  search_from r text s pos = Some m →
  ∃ pre u rest, s = pre ++ u ++ rest ∧ Matches r u rest
    ∧ m_string m = text ∧ m_start m = pos + length pre
    ∧ m_end m = m_start m + length u.
Proof.
  revert pos. induction s as [|c s IH]; intros pos; simpl.
  - destruct (match_here r [] pos []) as [[e marks]|] eqn:E; [|done].
    intros [= <-]. destruct (match_here_sound _ _ _ _ _ _ E) as (u & rest & Hs & -> & HM).
    exists [], u, rest. simpl. repeat split; [done..|lia].
  - destruct (match_here r (c :: s) pos []) as [[e marks]|] eqn:E.
    + intros [= <-]. destruct (match_here_sound _ _ _ _ _ _ E) as (u & rest & Hs & -> & HM).
      exists [], u, rest. simpl. repeat split; [done..|lia].
    + intros H. destruct (IH _ H) as (pre & u & rest & -> & HM & Ht & Hst & He).
      exists (c :: pre), u, rest. simpl. repeat split; [done..|lia|done].
Qed.

Lemma re_search_Some r text : is_Some (re_search r text) ↔ occurs r text.
Proof.
  split.
  - intros [m Hm]. apply search_from_Some in Hm as (pre & u & rest & Hs & HM & _).
    by exists pre, u, rest.
  - intros H. destruct (re_search r text) eqn:E; [done|].
    apply re_search_None in E. done.
Qed.

End Engine.

(** * Strings *)
Section Strings.

Lemma startswith_spec p s : startswith p s = true ↔ ∃ t, s = p ++ t.
Proof.
  revert s. induction p as [|a p IH]; intros s; simpl.
  - split; [by exists s|done].
  - destruct s as [|b s].
    + split; [done|]. by intros (t & ?).
    + rewrite andb_true_iff, Ascii.eqb_eq, IH. split.
      * intros [-> (t & ->)]. by exists t.
      * intros (t & [= -> ->]). split; [done|by exists t].
Qed.

Lemma contains_spec sub s :
  contains sub s = true ↔ ∃ pre post, s = pre ++ sub ++ post.
Proof.
  induction s as [|c s IH]; simpl.
  - rewrite orb_false_r, startswith_spec. split.
    + intros (t & Ht). by exists [], t.
    + intros (pre & post & H). symmetry in H.
      apply app_eq_nil in H as [-> H]. by exists post.
  - rewrite orb_true_iff, startswith_spec, IH. split.
    + intros [(t & ->)|(pre & post & ->)]; [by exists [], t|by exists (c :: pre), post].
    + intros ([|c' pre] & post & H); simpl in H.
      * left. by exists post.
      * injection H as _ ->. right. by exists pre, post.
Qed.

Lemma has_digit_run_intro n pre v post :
  Forall (λ c, is_digit c = true) v → n ≤ length v →
  has_digit_run n (pre ++ v ++ post) = true.
Proof.
  intros Hv Hn. induction pre as [|c pre IH]; simpl.
  - pose proof (span_len_app is_digit v post Hv) as H.
    assert ((n <=? span_len is_digit (v ++ post)) = true) as E
      by (apply Nat.leb_le; lia).
    destruct (v ++ post); simpl in *; rewrite E; done.
  - rewrite IH. apply orb_true_r.
Qed.

Lemma has_digit_run_mono n m s :
  m ≤ n → has_digit_run n s = true → has_digit_run m s = true.
Proof.
  intros Hmn. induction s as [|c s IH]; simpl; rewrite !orb_true_iff.
  - rewrite !Nat.leb_le. intros [H|H]; [left; lia|done].
  - rewrite !Nat.leb_le. intros [H|H]; [left; lia|right; auto].
Qed.

Lemma contains_digits_run d s :
  Forall (λ c, is_digit c = true) d → contains d s = true →
  has_digit_run (length d) s = true.
Proof.
  intros Hd H. apply contains_spec in H as (pre & post & ->).
  by apply has_digit_run_intro.
Qed.

(** An all-digit [d] cannot start where a non-digit comes too early. *)
Lemma startswith_digits_short d e c s :
  Forall (λ c, is_digit c = true) d → is_digit c = false →
  length e < length d → startswith d (e ++ c :: s) = false.
Proof.
  intros Hd Hc. revert e. induction Hd as [|a d Ha _ IH]; intros e He; simpl in *.
  - lia.
  - destruct e as [|b e]; simpl in *.
    + destruct (Ascii.eqb a c) eqn:E; [|done].
      apply Ascii.eqb_eq in E as ->. congruence.
    + rewrite IH; [apply andb_false_r|lia].
Qed.

(** Before a non-digit, [d] occurs as often as in the text up to it. *)
Lemma startswith_digits_cut d x c y :
  Forall (λ c, is_digit c = true) d → is_digit c = false →
  startswith d (x ++ c :: y) = startswith d (x ++ [c]).
Proof.
  intros Hd Hc. revert x. induction Hd as [|a d Ha _ IH]; intros x; simpl.
  - done.
  - destruct x as [|b x]; simpl.
    + destruct (Ascii.eqb a c) eqn:E; [|done].
      apply Ascii.eqb_eq in E as ->. congruence.
    + by rewrite IH.
Qed.

Lemma count_sub_cut d x c y :
  d ≠ [] → Forall (λ c, is_digit c = true) d → is_digit c = false →
  count_sub d (x ++ c :: y) = count_sub d (x ++ [c]) + count_sub d y.
Proof.
  intros Hne Hd Hc. induction x as [|b x IH].
  - destruct d as [|a d]; [done|]. simpl.
    destruct (Ascii.eqb a c) eqn:E.
    + apply Ascii.eqb_eq in E as ->. apply Forall_cons_1 in Hd as [Hd _]. congruence.
    + simpl. done.
  - pose proof (startswith_digits_cut d (b :: x) c y Hd Hc) as E.
    cbn [app] in E. cbn [app count_sub]. rewrite IH, E. lia.
Qed.

Lemma count_sub_digits d e c s :
  Forall (λ c, is_digit c = true) d → is_digit c = false →
  length e < length d → count_sub d (e ++ c :: s) = count_sub d (c :: s).
Proof.
  intros Hd Hc. induction e as [|b e IH]; intros He; [done|].
  change ((b :: e) ++ c :: s) with (b :: (e ++ c :: s)).
  cbn [count_sub].
  pose proof (startswith_digits_short d (b :: e) c s Hd Hc He) as E.
  cbn [app] in E. rewrite E.
  simpl in He. rewrite IH; [done|lia].
Qed.

Lemma count_sub_self d c s :
  d ≠ [] → Forall (λ c, is_digit c = true) d → is_digit c = false →
  count_sub d (d ++ c :: s) = 1 + count_sub d (c :: s).
Proof.
  intros Hne Hd Hc. destruct d as [|a d]; [done|].
  change ((a :: d) ++ c :: s) with (a :: (d ++ c :: s)).
  cbn [count_sub].
  assert (startswith (a :: d) (a :: d ++ c :: s) = true) as ->
    by (apply startswith_spec; by exists (c :: s)).
  rewrite (count_sub_digits (a :: d) d c s Hd Hc); [done|simpl; lia].
Qed.

Lemma count_sub_0 d s : count_sub d s = 0 ↔ contains d s = false.
Proof.
  induction s as [|c s IH]; simpl.
  - destruct (startswith d []); simpl; split; (done || lia).
  - destruct (startswith d (c :: s)); simpl.
    + split; [lia|done].
    + done.
Qed.

End Strings.

(** * The link generator *)
Section Link.

Lemma count_sub_between d h c1 c2 m c3 c4 t :
  d ≠ [] → Forall (λ c, is_digit c = true) d →
  is_digit c1 = false → is_digit c2 = false →
  is_digit c3 = false → is_digit c4 = false →
  count_sub d ((h ++ [c1]) ++ d ++ (c2 :: m ++ [c3]) ++ d ++ c4 :: t)
  = 2 + count_sub d (h ++ [c1]) + count_sub d (c2 :: m ++ [c3])
      + count_sub d (c4 :: t).
Proof.
  intros Hne Hd H1 H2 H3 H4.
  rewrite <-(assoc_L (++) h [c1]). cbn [app].
  rewrite (count_sub_cut d h c1 _ Hne Hd H1).
  rewrite (count_sub_self d c2 _ Hne Hd H2).
  change (c2 :: (m ++ [c3]) ++ d ++ c4 :: t)
    with (((c2 :: m) ++ [c3]) ++ d ++ c4 :: t).
  rewrite <-(assoc_L (++) (c2 :: m) [c3]).
  change ([c3] ++ d ++ c4 :: t) with (c3 :: d ++ c4 :: t).
  rewrite (count_sub_cut d (c2 :: m) c3 _ Hne Hd H3).
  rewrite (count_sub_self d c4 _ Hne Hd H4).
  cbn [app]. lia.
Qed.

Lemma link_count d :
  d ≠ [] → Forall (λ c, is_digit c = true) d →
  count_sub d (link_head ++ d ++ link_mid ++ d ++ link_tail)
  = 2 + count_sub d link_head + count_sub d link_mid + count_sub d link_tail.
Proof.
  intros Hne Hd.
  assert (∃ h, link_head = h ++ [ "D"%char ]) as [h Hh]
    by (exists (removelast link_head); vm_compute; reflexivity).
  assert (∃ m, link_mid = "%"%char :: m ++ [ "D"%char ]) as [m Hm]
    by (exists (removelast (tail link_mid)); vm_compute; reflexivity).
  assert (∃ t, link_tail = "%"%char :: t) as [t Ht]
    by (exists (tail link_tail); vm_compute; reflexivity).
  rewrite Hh, Hm, Ht. by apply count_sub_between.
Qed.

Lemma link_fixed_runs :
  has_digit_run 5 link_head = false ∧ has_digit_run 5 link_mid = false
  ∧ has_digit_run 5 link_tail = false.
Proof. vm_compute. done. Qed.

Lemma long_digits_absent d s :
  Forall (λ c, is_digit c = true) d → 5 ≤ length d →
  has_digit_run 5 s = false → contains d s = false.
Proof.
  intros Hd Hlen Hs. destruct (contains d s) eqn:E; [|done].
  apply (contains_digits_run d s Hd) in E.
  apply (has_digit_run_mono _ 5) in E; [congruence|done].
Qed.

End Link.

(** C3, as the code has it: the link of a non-empty digit string [D]
    contains [D] exactly twice if and only if [D] occurs in none of the
    three fixed parts of the link, which is the case of every [D] of five
    or more digits; both generators return none for none. *)
Theorem generate_capcut_link_twice :
  Scraper.generate_capcut_link None = None ∧
  Manual.generate_capcut_link None = None ∧
  ∀ D : str, D ≠ [] → Forall (λ c, is_digit c = true) D →
    ∃ link,
      Scraper.generate_capcut_link (Some D) = Some link ∧
      Manual.generate_capcut_link (Some D) = Some link ∧
      (count_sub D link = 2 ↔
         contains D link_head = false ∧ contains D link_mid = false
         ∧ contains D link_tail = false) ∧
      (5 ≤ length D → count_sub D link = 2).
Proof.
  split; [done|]. split; [done|]. intros D Hne Hd.
  exists (link_head ++ D ++ link_mid ++ D ++ link_tail).
  assert (truthy (Some D) = true) as Ht by (by destruct D).
  unfold Scraper.generate_capcut_link, Manual.generate_capcut_link.
  rewrite Ht. split; [done|]. split; [done|].
  rewrite (link_count D Hne Hd), <-!count_sub_0. split; [lia|].
  intros Hlen. destruct link_fixed_runs as (H1 & H2 & H3).
  pose proof (long_digits_absent D _ Hd Hlen H1) as E1.
  pose proof (long_digits_absent D _ Hd Hlen H2) as E2.
  pose proof (long_digits_absent D _ Hd Hlen H3) as E3.
  apply count_sub_0 in E1, E2, E3. lia.
Qed.

Lemma generate_capcut_link_twice_witness :
  ∃ link,
    Scraper.generate_capcut_link (Some (py "7299286607478181121")) = Some link ∧
    count_sub (py "7299286607478181121") link = 2.
Proof.
  destruct generate_capcut_link_twice as (_ & _ & H).
  destruct (H (py "7299286607478181121")) as (link & HS & _ & _ & H5).
  - done.
  - repeat constructor.
  - exists link. split; [exact HS|]. apply H5. vm_compute. lia.
Defined.

(** C3 as stated fails: the one-digit identifier 3 occurs in the fixed text
    of the link (in [W3Oy], [%3A], ...), so the link contains it more than
    twice. *)
Lemma generate_capcut_link_digit_3 :
  let D := py "3" in
  D ≠ [] ∧ Forall (λ c, is_digit c = true) D ∧
  ∃ link, Scraper.generate_capcut_link (Some D) = Some link
          ∧ Manual.generate_capcut_link (Some D) = Some link
          ∧ count_sub D link = 17.
Proof.
  split; [done|]. split; [repeat constructor|].
  eexists. split; [reflexivity|]. split; [reflexivity|]. vm_compute. reflexivity.
Qed.

(** * The template-identifier extractors *)
Section TemplateId.

Lemma Matches_lits (l : str) r u rest :
  Matches ((Lit <$> l) ++ r) u rest → ∃ u', u = l ++ u' ∧ Matches r u' rest.
Proof.
  revert u. induction l as [|c l IH]; intros u; simpl.
  - intros H. by exists u.
  - inversion 1 as [|? ? u0 ? HM| | | |]; subst.
    destruct (IH _ HM) as (u' & -> & HM'). by exists u'.
Qed.

Lemma Matches_group_rep p lo hi r u rest :
  Matches (Open :: Rep p lo hi :: r) u rest →
  ∃ v u', u = v ++ u' ∧ Forall (λ c, p c = true) v ∧ lo ≤ length v.
Proof.
  inversion 1 as [| | |? ? ? HM| |]; subst.
  inversion HM as [| |? ? ? ? v u' ? Hv Hlo Hhi HM'| | |]; subst.
  by exists v, u'.
Qed.

(** A pattern that starts with the literal text [l] matches only where [l]
    occurs. *)
Lemma occurs_lits (l : str) r text :
  occurs ((Lit <$> l) ++ r) text → contains l text = true.
Proof.
  intros (pre & u & rest & -> & HM).
  apply Matches_lits in HM as (u' & -> & _).
  apply contains_spec. exists pre, (u' ++ rest). by rewrite <-(assoc_L (++)).
Qed.

(** A pattern [/(\d{lo,hi})...] matches only after [lo] digits in a row. *)
Lemma occurs_slash_digits lo hi r text :
  occurs (lits "/" ++ Open :: Rep is_digit lo hi :: r) text →
  has_digit_run lo text = true.
Proof.
  intros (pre & u & rest & -> & HM).
  apply (Matches_lits (py "/")) in HM as (u' & -> & HM).
  apply Matches_group_rep in HM as (v & u'' & -> & Hv & Hlo).
  replace (pre ++ (py "/" ++ v ++ u'') ++ rest)
    with ((pre ++ py "/") ++ v ++ (u'' ++ rest))
    by (by rewrite <-!(assoc_L (++))).
  by apply has_digit_run_intro.
Qed.

Lemma first_group_None ps url :
  Forall (λ p, ¬ occurs p url) ps → Scraper.first_group ps url = None.
Proof.
  unfold Scraper.first_group. induction 1 as [|p ps Hp _ IH]; simpl; [done|].
  apply re_search_None in Hp. by rewrite Hp.
Qed.

End TemplateId.

(** C4, as the code has it: the extractor returns the 15-digit identifier
    of the example URL, and it returns none for every URL that contains
    neither 16 digits in a row nor any of the texts [template_id=],
    [template-detail/] and [template/]. *)
Theorem extract_template_id_cases :
  Scraper.extract_template_id (py "https://x/template-detail/foo/123456789012345")
  = Some (py "123456789012345") ∧
  ∀ url : str,
    has_digit_run 16 url = false →
    contains (py "template_id=") url = false →
    contains (py "template-detail/") url = false →
    contains (py "template/") url = false →
    Scraper.extract_template_id url = None.
Proof.
  split; [vm_compute; reflexivity|].
  intros url Hrun Hid Hdetail Htemplate.
  apply first_group_None. unfold Scraper.patterns.
  repeat apply Forall_cons_2; [..|constructor]; intros Hocc.
  - apply occurs_lits in Hocc. congruence.
  - apply occurs_lits in Hocc. congruence.
  - apply occurs_slash_digits in Hocc.
    apply (has_digit_run_mono _ 16) in Hocc; [congruence|lia].
  - apply occurs_lits in Hocc. congruence.
  - apply occurs_slash_digits in Hocc. congruence.
Qed.

Lemma extract_template_id_cases_witness :
  Scraper.extract_template_id (py "https://www.capcut.com/explore?q=phonk") = None.
Proof.
  apply (proj2 extract_template_id_cases); vm_compute; reflexivity.
Defined.

(** C4 as stated fails on its own example: that URL has no 16 digits in a
    row (so no run of 16 to 20 digits) and no [template_id=], and the
    extractor returns its 15-digit identifier, not none. *)
Lemma extract_template_id_short_id :
  has_digit_run 16 (py "https://x/template-detail/foo/123456789012345") = false ∧
  contains (py "template_id=")
    (py "https://x/template-detail/foo/123456789012345") = false ∧
  Scraper.extract_template_id (py "https://x/template-detail/foo/123456789012345")
  = Some (py "123456789012345").
Proof. repeat split; vm_compute; reflexivity. Qed.




(** * The duration extractor *)
Section Duration.

(** A pattern that starts with [(\d+] matches nowhere before a non-digit. *)
Lemma match_here_digits_None r s pos marks :
  span_len is_digit s = 0 →
  match_here (Open :: Scraper.digits :: r) s pos marks = None.
Proof. intros H. simpl. by rewrite H. Qed.

Lemma search_from_skip r text pre s pos :
  Forall (λ c, is_digit c = false) pre →
  search_from (Open :: Scraper.digits :: r) text (pre ++ s) pos
  = search_from (Open :: Scraper.digits :: r) text s (pos + length pre).
Proof.
  intros Hpre. revert pos. induction Hpre as [|c pre Hc _ IH]; intros pos.
  - simpl. by rewrite Nat.add_0_r.
  - change ((c :: pre) ++ s) with (c :: (pre ++ s)).
    cbn [search_from]. rewrite match_here_digits_None by (simpl; by rewrite Hc).
    rewrite IH. f_equal. simpl. lia.
Qed.

Lemma search_from_here r text s pos e marks :
  match_here r s pos [] = Some (e, marks) →
  search_from r text s pos = Some (RMatch text pos e marks).
Proof. intros H. destruct s; simpl; by rewrite H. Qed.

Lemma match_here_1_23 post pos :
  (∀ c, head post = Some c → is_digit c = false) →
  match_here ([Open; Scraper.digits; Close] ++ lits ":" ++ [Open; Scraper.digits; Close])
    (py "1:23" ++ post) pos []
  = Some (pos + 4, [pos; pos + 1; pos + 2; pos + 4]).
Proof.
  intros Hpost.
  assert (span_len is_digit post = 0) as Hspan.
  { destruct post as [|c post]; [done|]. simpl. by rewrite (Hpost c). }
  assert (is_digit "1" = true) as D1 by reflexivity.
  assert (is_digit "2" = true) as D2 by reflexivity.
  assert (is_digit "3" = true) as D3 by reflexivity.
  assert (is_digit ":" = false) as D4 by reflexivity.
  cbn. rewrite Hspan, ?D1, ?D2, ?D3, ?D4. cbn.
  rewrite Hspan, ?D1, ?D2, ?D3, ?D4. cbn. repeat f_equal; lia.
Qed.

End Duration.

(** C8, as the code has it: the extractor returns the leftmost match of
    the first pattern that matches.  It returns 1:23 for a text that
    contains 1:23 with no digit before it and no digit right after it, and
    0:15 for a text that none of the three patterns matches. *)
Theorem extract_duration_cases (soup : page) :
  (∀ pre post,
     get_text soup = pre ++ py "1:23" ++ post →
     Forall (λ c, is_digit c = false) pre →
     (∀ c, head post = Some c → is_digit c = false) →
     Scraper.extract_duration soup = py "1:23") ∧
  ((∀ p, p ∈ Scraper.duration_patterns → ¬ occurs p (get_text soup)) →
   Scraper.extract_duration soup = py "0:15").
Proof.
  split.
  - intros pre post Htext Hpre Hpost.
    unfold Scraper.extract_duration, Scraper.duration_patterns.
    cbn [first_some]. unfold re_search. rewrite Htext at 2.
    change ([Open; Scraper.digits; Close] ++ lits ":" ++ [Open; Scraper.digits; Close])
      with (Open :: Scraper.digits :: Close :: lits ":" ++ [Open; Scraper.digits; Close]).
    rewrite (search_from_skip _ _ pre _ 0 Hpre).
    pose proof (match_here_1_23 post (0 + length pre) Hpost) as E.
    cbn [app] in E. rewrite (search_from_here _ _ _ _ _ _ E).
    cbn [fmap option_fmap option_map default].
    unfold group0, slice. cbn [m_start m_end m_string].
    rewrite Htext, Nat.add_0_l, drop_app_length.
    replace (length pre + 4 - length pre) with 4 by lia.
    reflexivity.
  - intros H. unfold Scraper.extract_duration.
    assert (first_some (λ pattern, group0 <$> re_search pattern (get_text soup))
              Scraper.duration_patterns = None) as ->; [|done].
    induction Scraper.duration_patterns as [|p ps IH]; [done|].
    cbn [first_some]. rewrite (proj2 (re_search_None p _)).
    + apply IH. intros q Hq. apply H. by apply list_elem_of_further.
    + apply H. apply list_elem_of_here.
Qed.

Lemma extract_duration_cases_witness :
  Scraper.extract_duration
    (Page (λ _, None) None (py "Duration 1:23 min") [] None []) = py "1:23" ∧
  Scraper.extract_duration
    (Page (λ _, None) None (py "Use this template") [] None []) = py "0:15".
Proof.
  split.
  - apply (proj1 (extract_duration_cases _) (py "Duration ") (py " min")).
    + reflexivity.
    + repeat constructor.
    + intros c [= <-]. reflexivity.
  - apply (proj2 (extract_duration_cases _)). intros p Hp.
    apply re_search_None. unfold Scraper.duration_patterns in Hp.
    list_cases Hp; vm_compute; reflexivity.
Defined.

(** C8 as stated fails: a text that contains 1:23 after an earlier MM:SS
    match yields the earlier match. *)
Lemma extract_duration_earlier_match :
  let soup := Page (λ _, None) None (py "0:05 of 1:23") [] None [] in
  contains (py "1:23") (get_text soup) = true ∧
  Scraper.extract_duration soup = py "0:05".
Proof. split; vm_compute; reflexivity. Qed.

(** C7: with the iteration order of a set being any order of its elements
    without repetition, the tag extractor returns at most 5 tags, all
    different. *)
Theorem extract_tags_bounded (w : world) (soup : page) :
  set_iteration (set_order w) →
  length (Scraper.extract_tags w soup) ≤ 5 ∧ NoDup (Scraper.extract_tags w soup).
Proof.
  intros Hset. unfold Scraper.extract_tags.
  set (tags := _ ++ take 5 _). split.
  - rewrite length_take. lia.
  - apply (sublist_NoDup _ (set_order w tags)); [apply Hset|apply sublist_take].
Qed.

Lemma extract_tags_bounded_witness :
  let w := hosting_world in
  let soup := Page (λ _, None)
                (Some (Element (py "meta") []
                         (λ _, Some (py "phonk, edit,phonk , , viral"))))
                (py "#edit #fyp #viral #capcut #trend #reels #more") [] None [] in
  length (Scraper.extract_tags w soup) ≤ 5 ∧ NoDup (Scraper.extract_tags w soup).
Proof.
  intros w soup. apply extract_tags_bounded.
  intros l. split; [apply NoDup_remove_dups|apply elem_of_remove_dups].
Defined.

(** * The uploaders *)
Section Upload.

Lemma lstrip_app_keep x y :
  lstrip x ≠ [] → lstrip (x ++ y) = lstrip x ++ y.
Proof.
  induction x as [|c x IH]; simpl; [done|].
  destruct (is_space c); [done|]. done.
Qed.

Lemma lstrip_suffix s : ∃ ws, s = ws ++ lstrip s.
Proof.
  induction s as [|c s [ws IH]]; simpl; [by exists []|].
  destruct (is_space c); [|by exists []].
  exists (c :: ws). simpl. by rewrite <-IH.
Qed.

(** [rstrip] removes a suffix. *)
Lemma rstrip_prefix s : ∃ ws, s = rstrip s ++ ws.
Proof.
  unfold rstrip. destruct (lstrip_suffix (rev s)) as [ws H].
  exists (rev ws). rewrite <-rev_app_distr, <-H. by rewrite rev_involutive.
Qed.

(** [rstrip] keeps a prefix that ends with a character that is no space. *)
Lemma rstrip_keep a c t :
  is_space c = false → rstrip ((a ++ [c]) ++ t) = (a ++ [c]) ++ rstrip t.
Proof.
  intros Hc. unfold rstrip. rewrite !rev_app_distr. simpl.
  destruct (lstrip (rev t)) as [|d l] eqn:E.
  - assert (lstrip (rev t ++ c :: rev a) = c :: rev a) as ->.
    { clear -E Hc. induction (rev t) as [|b r IH]; simpl in *; [by rewrite Hc|].
      destruct (is_space b); [auto|done]. }
    simpl. by rewrite rev_involutive, app_nil_r.
  - rewrite lstrip_app_keep by (by rewrite E). rewrite E.
    rewrite rev_app_distr. simpl. by rewrite rev_involutive.
Qed.

Lemma startswith_https_rstrip s :
  startswith (py "https://") (rstrip s) = startswith (py "https://") s.
Proof.
  destruct (startswith (py "https://") s) eqn:E.
  - apply startswith_spec in E as [t ->]. apply startswith_spec.
    exists (rstrip t).
    change (py "https://") with (py "https:/" ++ [ "/"%char ]).
    by apply rstrip_keep.
  - destruct (startswith (py "https://") (rstrip s)) eqn:E'; [|done].
    apply startswith_spec in E' as [t Ht].
    destruct (rstrip_prefix s) as [ws Hs]. rewrite Ht in Hs.
    assert (startswith (py "https://") s = true) as E''; [|congruence].
    apply startswith_spec. exists (t ++ ws). by rewrite Hs, <-(assoc_L (++)).
Qed.

(** On a body without leading whitespace the two readings of the answer
    agree. *)
Lemma hosted_url_agree response :
  lstrip (text response) = text response →
  Scraper.hosted_url response = Manual.hosted_url response.
Proof.
  intros H. unfold Scraper.hosted_url, Manual.hosted_url, strip.
  rewrite H. rewrite (startswith_https_rstrip (text response)).
  destruct (status_code response =? 200)%Z; cbn [andb]; [|done].
  by destruct (startswith (py "https://") (text response)).
Qed.

Lemma scraper_upload_answered w σ file_path content response :
  files σ !! file_path = Some content →
  http_post w 60 file_path content = Some response →
  Scraper.upload_to_catbox w σ file_path
  = (send (POST 60 file_path) σ, Scraper.hosted_url response).
Proof. intros Hf Hp. unfold Scraper.upload_to_catbox. by rewrite Hf, Hp. Qed.

Lemma manual_upload_answered w σ file_path content response :
  files σ !! file_path = Some content →
  http_post w 30 file_path content = Some response →
  Manual.upload_to_catbox w σ file_path
  = (send (POST 30 file_path) σ, Manual.hosted_url response).
Proof. intros Hf Hp. unfold Manual.upload_to_catbox. by rewrite Hf, Hp. Qed.

Lemma scraper_hosted_url_Some response url :
  Scraper.hosted_url response = Some url ↔
  status_code response = 200%Z ∧
  startswith (py "https://") (strip (text response)) = true ∧
  url = strip (text response).
Proof.
  unfold Scraper.hosted_url.
  destruct (status_code response =? 200)%Z eqn:E.
  - apply Z.eqb_eq in E.
    destruct (startswith (py "https://") (strip (text response))) eqn:E'.
    + split; [by intros [= <-]|by intros (_ & _ & ->)].
    + split; [done|by intros (_ & ? & _)].
  - apply Z.eqb_neq in E. split; [done|by intros (? & _)].
Qed.

Lemma manual_hosted_url_Some response url :
  Manual.hosted_url response = Some url ↔
  status_code response = 200%Z ∧
  startswith (py "https://") (text response) = true ∧
  url = strip (text response).
Proof.
  unfold Manual.hosted_url.
  destruct (status_code response =? 200)%Z eqn:E; cbn [andb].
  - apply Z.eqb_eq in E.
    destruct (startswith (py "https://") (text response)) eqn:E'.
    + split; [by intros [= <-]|by intros (_ & _ & ->)].
    + split; [done|by intros (_ & ? & _)].
  - apply Z.eqb_neq in E. split; [done|by intros (? & _)].
Qed.

End Upload.

(** C5, as the code has it: an upload whose file opens and whose request is
    answered sends that one request (timeout 60 in the automated variant,
    30 in the manual one) and returns the stripped body exactly when the
    status is 200 and, in the automated variant, the stripped body starts
    with https://, in the manual variant, the body as received starts with
    https://; it returns none otherwise.  The two criteria agree on every
    body without leading whitespace. *)
Theorem upload_to_catbox_criterion (w : world) (σ : system) (file_path : str)
    (content : bytes) :
  files σ !! file_path = Some content →
  (∀ response, http_post w 60 file_path content = Some response →
     (Scraper.upload_to_catbox w σ file_path).1 = send (POST 60 file_path) σ ∧
     ∀ url, (Scraper.upload_to_catbox w σ file_path).2 = Some url ↔
            status_code response = 200%Z ∧
            startswith (py "https://") (strip (text response)) = true ∧
            url = strip (text response)) ∧
  (∀ response, http_post w 30 file_path content = Some response →
     (Manual.upload_to_catbox w σ file_path).1 = send (POST 30 file_path) σ ∧
     ∀ url, (Manual.upload_to_catbox w σ file_path).2 = Some url ↔
            status_code response = 200%Z ∧
            startswith (py "https://") (text response) = true ∧
            url = strip (text response)) ∧
  (∀ response,
     http_post w 60 file_path content = Some response →
     http_post w 30 file_path content = Some response →
     lstrip (text response) = text response →
     (Scraper.upload_to_catbox w σ file_path).2
     = (Manual.upload_to_catbox w σ file_path).2).
Proof.
  intros Hfile. split; [|split].
  - intros response Hp.
    rewrite (scraper_upload_answered _ _ _ _ _ Hfile Hp). split; [done|].
    intros url. apply scraper_hosted_url_Some.
  - intros response Hp.
    rewrite (manual_upload_answered _ _ _ _ _ Hfile Hp). split; [done|].
    intros url. apply manual_hosted_url_Some.
  - intros response H60 H30 Hbody.
    rewrite (scraper_upload_answered _ _ _ _ _ Hfile H60).
    rewrite (manual_upload_answered _ _ _ _ _ Hfile H30).
    by apply hosted_url_agree.
Qed.

Lemma upload_to_catbox_criterion_witness :
  let w := answering_world "https://files.catbox.moe/abc123.mp4" in
  let σ := System {[ py "temp/Test_manual.mp4" := py "video" ]} [] in
  (Scraper.upload_to_catbox w σ (py "temp/Test_manual.mp4")).2
  = Some (py "https://files.catbox.moe/abc123.mp4") ∧
  (Manual.upload_to_catbox w σ (py "temp/Test_manual.mp4")).2
  = Some (py "https://files.catbox.moe/abc123.mp4") ∧
  (Scraper.upload_to_catbox w σ (py "temp/Test_manual.mp4")).2
  = (Manual.upload_to_catbox w σ (py "temp/Test_manual.mp4")).2.
Proof.
  intros w σ.
  pose proof (upload_to_catbox_criterion w σ (py "temp/Test_manual.mp4")
                (py "video") eq_refl) as (HS & HM & HA).
  split; [|split].
  - apply (proj2 (HS _ eq_refl)). repeat split; vm_compute; reflexivity.
  - apply (proj2 (HM _ eq_refl)). repeat split; vm_compute; reflexivity.
  - apply (HA _ eq_refl eq_refl). vm_compute. reflexivity.
Defined.

(** C5 as stated fails: on an answer 200 whose body has a leading space the
    automated variant returns the URL and the manual variant returns none,
    so the two do not apply the same criterion. *)
Lemma upload_to_catbox_leading_space :
  let w := answering_world " https://files.catbox.moe/abc123.mp4" in
  let σ := System {[ py "temp/Test_manual.mp4" := py "video" ]} [] in
  (Scraper.upload_to_catbox w σ (py "temp/Test_manual.mp4")).2
  = Some (py "https://files.catbox.moe/abc123.mp4") ∧
  (Manual.upload_to_catbox w σ (py "temp/Test_manual.mp4")).2 = None.
Proof. split; vm_compute; reflexivity. Qed.

(** * Thumbnail extraction *)
Section Thumbnail.

Lemma frame_number_no_fps cap :
  fps cap = 0%float → Scraper.frame_number cap 2%float = Some 0%Z.
Proof.
  intros H. unfold Scraper.frame_number. rewrite H. vm_compute. reflexivity.
Qed.

Lemma scraper_thumbnail_unopened w σ video_path output_path timestamp :
  files σ !! video_path ≫= cv_open w = None →
  Scraper.extract_video_thumbnail w σ video_path output_path timestamp = (σ, None).
Proof. intros H. unfold Scraper.extract_video_thumbnail. by rewrite H. Qed.

Lemma manual_thumbnail_unopened w σ video_path thumbnail_path :
  files σ !! video_path ≫= cv_open w = None →
  Manual.extract_thumbnail w σ video_path thumbnail_path = (σ, None).
Proof. intros H. unfold Manual.extract_thumbnail. by rewrite H. Qed.

Lemma scraper_thumbnail_frame w σ video_path output_path timestamp cap n :
  files σ !! video_path ≫= cv_open w = Some cap →
  Scraper.frame_number cap timestamp = Some n →
  Scraper.extract_video_thumbnail w σ video_path output_path timestamp
  = match frame_at cap n with
    | Some frame => (write_file output_path frame σ, Some output_path)
    | None => (σ, None)
    end.
Proof.
  intros H Hn. unfold Scraper.extract_video_thumbnail. by rewrite H, Hn.
Qed.

Lemma manual_thumbnail_frame w σ video_path thumbnail_path cap :
  files σ !! video_path ≫= cv_open w = Some cap →
  Manual.extract_thumbnail w σ video_path thumbnail_path
  = match frame_at cap 30 with
    | Some frame => (write_file thumbnail_path frame σ, Some thumbnail_path)
    | None => (σ, None)
    end.
Proof. intros H. unfold Manual.extract_thumbnail. by rewrite H. Qed.

(** A failed extraction drops the record of the manual variant. *)
Lemma manual_thumbnail_fatal w st title video_url template_url σ1 f σ2 :
  let id := Manual.template_id_of template_url in
  Manual.download_video w (Manual.sys st) video_url (Manual.video_file title id)
  = (σ1, Some f) →
  Manual.extract_thumbnail w σ1 (Manual.video_file title id)
    (Manual.thumb_file title id) = (σ2, None) →
  Manual.process_template w st title video_url template_url
  = (Manual.State (Manual.templates st) σ2, None).
Proof.
  intros id Hd Ht. unfold Manual.process_template, Manual.process_media.
  fold id. by rewrite Hd, Ht.
Qed.

(** A failed extraction drops the record of the automated variant. *)
Lemma scraper_thumbnail_fatal w σ template_url soup c url σ1 f σ2 :
  let id := Scraper.extract_template_id template_url in
  driver_get w template_url = Some soup →
  Scraper.extract_video_url soup = Some (c :: url) →
  Scraper.download_video w σ (c :: url) (Scraper.video_path w id) = (σ1, Some f) →
  Scraper.extract_video_thumbnail w σ1 (Scraper.video_path w id)
    (Scraper.thumbnail_path w id) 2%float = (σ2, None) →
  Scraper.scrape_template_page w σ template_url = (σ2, None).
Proof.
  intros id Hg Hv Hd Ht. unfold id in *. clear id.
  unfold Scraper.scrape_template_page, Scraper.template_data_at_end.
  rewrite Hg, Hv. cbn [Scraper.template_id]. unfold Scraper.process_media.
  destruct (truthy (Scraper.extract_template_id template_url));
    cbn [Scraper.template_id]; by rewrite Hd, Ht.
Qed.

End Thumbnail.

(** C6, as the code has it: thumbnail extraction returns no path and
    writes no file when the video cannot be opened and when the frame it
    seeks cannot be decoded, and the record is then dropped.  An absent
    frame rate (0) is no failure: the automated variant then seeks frame 0,
    and the manual variant, which never reads the frame rate, always seeks
    frame 30. *)
Theorem extract_thumbnail_failures (w : world) :
  (∀ σ video_path output_path,
     files σ !! video_path ≫= cv_open w = None →
     Scraper.extract_video_thumbnail w σ video_path output_path 2%float
     = (σ, None) ∧
     Manual.extract_thumbnail w σ video_path output_path = (σ, None)) ∧
  (∀ σ video_path output_path cap,
     files σ !! video_path ≫= cv_open w = Some cap →
     (∀ n, Scraper.frame_number cap 2%float = Some n → frame_at cap n = None →
           Scraper.extract_video_thumbnail w σ video_path output_path 2%float
           = (σ, None)) ∧
     (Scraper.frame_number cap 2%float = None →
      Scraper.extract_video_thumbnail w σ video_path output_path 2%float
      = (σ, None)) ∧
     (frame_at cap 30 = None →
      Manual.extract_thumbnail w σ video_path output_path = (σ, None)) ∧
     (fps cap = 0%float → Scraper.frame_number cap 2%float = Some 0%Z)) ∧
  (∀ σ template_url soup c url σ1 f σ2,
     driver_get w template_url = Some soup →
     Scraper.extract_video_url soup = Some (c :: url) →
     Scraper.download_video w σ (c :: url)
       (Scraper.video_path w (Scraper.extract_template_id template_url))
     = (σ1, Some f) →
     Scraper.extract_video_thumbnail w σ1
       (Scraper.video_path w (Scraper.extract_template_id template_url))
       (Scraper.thumbnail_path w (Scraper.extract_template_id template_url))
       2%float = (σ2, None) →
     Scraper.scrape_template_page w σ template_url = (σ2, None)) ∧
  (∀ st title video_url template_url σ1 f σ2,
     Manual.download_video w (Manual.sys st) video_url
       (Manual.video_file title (Manual.template_id_of template_url))
     = (σ1, Some f) →
     Manual.extract_thumbnail w σ1
       (Manual.video_file title (Manual.template_id_of template_url))
       (Manual.thumb_file title (Manual.template_id_of template_url))
     = (σ2, None) →
     Manual.process_template w st title video_url template_url
     = (Manual.State (Manual.templates st) σ2, None)).
Proof.
  split; [|split; [|split]].
  - intros σ video_path output_path H. split.
    + by apply scraper_thumbnail_unopened.
    + by apply manual_thumbnail_unopened.
  - intros σ video_path output_path cap H. split; [|split; [|split]].
    + intros n Hn Hf.
      rewrite (scraper_thumbnail_frame _ _ _ _ _ _ _ H Hn). by rewrite Hf.
    + intros Hn. unfold Scraper.extract_video_thumbnail. by rewrite H, Hn.
    + intros Hf. rewrite (manual_thumbnail_frame _ _ _ _ _ H). by rewrite Hf.
    + apply frame_number_no_fps.
  - intros σ template_url soup c url σ1 f σ2.
    apply scraper_thumbnail_fatal.
  - intros st title video_url template_url σ1 f σ2.
    apply manual_thumbnail_fatal.
Qed.

Lemma extract_thumbnail_failures_witness :
  let w := undecodable_world in
  Manual.process_template w (Manual.State [] fresh)
    (py "Test") (py "https://host/v.mp4") None
  = (Manual.State []
       (System {[ py "temp/Test_manual.mp4" := py "not a video" ]}
               [GET (py "https://host/v.mp4")]),
     None).
Proof.
  intros w.
  destruct (extract_thumbnail_failures w) as (Hopen & _ & _ & Hdrop).
  eapply Hdrop.
  - vm_compute. reflexivity.
  - refine (proj2 (Hopen _ _ _ _)). vm_compute. reflexivity.
Defined.

(** C6 as stated fails: a video without frame-rate metadata whose first
    frame decodes gets its thumbnail in both variants. *)
Lemma extract_thumbnail_without_fps :
  let w := no_fps_world in
  let σ := System {[ py "v.mp4" := py "video" ]} [] in
  fps no_fps_video = 0%float ∧
  (Scraper.extract_video_thumbnail w σ (py "v.mp4") (py "t.jpg") 2%float).2
  = Some (py "t.jpg") ∧
  (Manual.extract_thumbnail w σ (py "v.mp4") (py "t.jpg")).2 = Some (py "t.jpg").
Proof. repeat split; vm_compute; reflexivity. Qed.

(** * The per-record pipeline *)
Section Pipeline.

Lemma app_singleton_inv {A : Type} (l : list A) x y :
  l ++ [x] = l ++ [y] → x = y.
Proof. intros H. apply app_inv_head in H. by injection H. Qed.

Lemma app_singleton_ne {A : Type} (l : list A) x : l ≠ l ++ [x].
Proof.
  intros H. apply (f_equal length) in H. rewrite length_app in H. simpl in H. lia.
Qed.

Lemma scrape_and_keep_templates w st processed url :
  Scraper.templates (Scraper.scrape_and_keep w st processed url).1
  = match Scraper.template_data_at_end w (Scraper.sys st) url with
    | Some (_, r) =>
        if truthy (Scraper.video_url r) && truthy (Scraper.thumbnail_url r)
        then Scraper.templates st ++ [r] else Scraper.templates st
    | None => Scraper.templates st
    end.
Proof.
  unfold Scraper.scrape_and_keep, Scraper.scrape_template_page.
  destruct (Scraper.template_data_at_end _ _ _) as [[σ' r]|]; [|done].
  by destruct (truthy (Scraper.video_url r) && truthy (Scraper.thumbnail_url r)).
Qed.

Lemma process_template_templates w st title video_url template_url :
  let id := Manual.template_id_of template_url in
  Manual.templates (Manual.process_template w st title video_url template_url).1
  = match Manual.process_media w (Manual.sys st) title video_url id with
    | (_, Some (v, t)) =>
        if truthy v && truthy t
        then Manual.templates st ++
               [Manual.Template title id
                  (if truthy id then Manual.generate_capcut_link id else Some [])
                  v t (or_else template_url []) video_url]
        else Manual.templates st
    | (_, None) => Manual.templates st
    end.
Proof.
  intros id. unfold Manual.process_template. fold id.
  destruct (Manual.process_media _ _ _ _ _) as [σ' [[v t]|]]; [|done].
  by destruct (truthy v && truthy t).
Qed.

Lemma scrape_and_keep_invariant w st processed url :
  Forall both_hosted_scraper (Scraper.templates st) →
  Forall both_hosted_scraper
    (Scraper.templates (Scraper.scrape_and_keep w st processed url).1).
Proof.
  intros H. rewrite scrape_and_keep_templates.
  destruct (Scraper.template_data_at_end _ _ _) as [[σ' r]|]; [|done].
  destruct (truthy (Scraper.video_url r)) eqn:Ev;
    destruct (truthy (Scraper.thumbnail_url r)) eqn:Et; cbn [andb]; try done.
  apply Forall_app. split; [done|]. by repeat constructor.
Qed.

Lemma process_links_invariant max links : ∀ processed st,
  Forall both_hosted_scraper (Scraper.templates st) →
  Forall both_hosted_scraper
    (Scraper.templates (Scraper.process_links max processed st links)).
Proof.
  induction links as [|[url w] links IH]; intros processed st H; simpl; [done|].
  pose proof (scrape_and_keep_invariant w st processed url H) as H'.
  destruct (Scraper.scrape_and_keep w st processed url) as [st' processed'].
  destruct (max <=? processed'); [done|]. by apply IH.
Qed.

Lemma process_template_invariant w st title video_url template_url :
  Forall both_hosted_manual (Manual.templates st) →
  Forall both_hosted_manual
    (Manual.templates
       (Manual.process_template w st title video_url template_url).1).
Proof.
  intros H. rewrite process_template_templates.
  destruct (Manual.process_media _ _ _ _ _) as [σ' [[v t]|]]; [|done].
  destruct (truthy v) eqn:Ev; destruct (truthy t) eqn:Et; cbn [andb]; try done.
  apply Forall_app. split; [done|]. by repeat constructor.
Qed.

Lemma main_loop_invariant entries : ∀ st,
  Forall both_hosted_manual (Manual.templates st) →
  Forall both_hosted_manual (Manual.templates (Manual.main_loop st entries)).
Proof.
  induction entries as [|[e w] entries IH]; intros st H; simpl; [done|].
  destruct (Manual.e_title e); [done|]. destruct (Manual.e_video_url e); [by apply IH|].
  apply IH. by apply process_template_invariant.
Qed.

End Pipeline.

(** C1: in both variants a processed record is appended to the collection
    if and only if its hosted video URL and its hosted thumbnail URL are
    both non-empty, and the collection is unchanged otherwise; so every
    record of the collection that a run builds, which is the one exported,
    has both.  The record appended is the one built from what the media
    stages return: the dictionary of line 268 in the automated variant, the
    one of lines 150 to 158 in the manual variant. *)
Theorem record_kept_iff :
  (∀ w st processed url r,
     Scraper.templates (Scraper.scrape_and_keep w st processed url).1
     = Scraper.templates st ++ [r] ↔
     ∃ σ', Scraper.template_data_at_end w (Scraper.sys st) url = Some (σ', r) ∧
           truthy (Scraper.video_url r) = true ∧
           truthy (Scraper.thumbnail_url r) = true) ∧
  (∀ w st processed url,
     (∀ σ' r, Scraper.template_data_at_end w (Scraper.sys st) url = Some (σ', r) →
              truthy (Scraper.video_url r) = false ∨
              truthy (Scraper.thumbnail_url r) = false) →
     Scraper.templates (Scraper.scrape_and_keep w st processed url).1
     = Scraper.templates st) ∧
  (∀ w st title video_url template_url r,
     Manual.templates (Manual.process_template w st title video_url template_url).1
     = Manual.templates st ++ [r] ↔
     ∃ σ' v t,
       Manual.process_media w (Manual.sys st) title video_url
         (Manual.template_id_of template_url) = (σ', Some (v, t)) ∧
       truthy v = true ∧ truthy t = true ∧
       r = Manual.Template title (Manual.template_id_of template_url)
             (if truthy (Manual.template_id_of template_url)
              then Manual.generate_capcut_link
                     (Manual.template_id_of template_url)
              else Some [])
             v t (or_else template_url []) video_url) ∧
  (∀ w st title video_url template_url,
     (∀ σ' v t,
        Manual.process_media w (Manual.sys st) title video_url
          (Manual.template_id_of template_url) = (σ', Some (v, t)) →
        truthy v = false ∨ truthy t = false) →
     Manual.templates (Manual.process_template w st title video_url template_url).1
     = Manual.templates st) ∧
  (∀ max_results st links,
     Forall both_hosted_scraper (Scraper.templates st) →
     Forall both_hosted_scraper
       (Scraper.templates (Scraper.search_templates max_results st links))) ∧
  (∀ st entries,
     Forall both_hosted_manual (Manual.templates st) →
     Forall both_hosted_manual (Manual.templates (Manual.main_loop st entries))).
Proof.
  repeat apply conj.
  - intros w st processed url r. rewrite scrape_and_keep_templates.
    destruct (Scraper.template_data_at_end _ _ _) as [[σ' r']|].
    + destruct (truthy (Scraper.video_url r')) eqn:Ev;
        destruct (truthy (Scraper.thumbnail_url r')) eqn:Et; cbn [andb].
      * split.
        -- intros H%app_singleton_inv. subst r'. by exists σ'.
        -- intros (σ'' & [= _ ->] & _). done.
      * split; [by intros H%app_singleton_ne|].
        intros (σ'' & [= _ ->] & _ & ?). congruence.
      * split; [by intros H%app_singleton_ne|].
        intros (σ'' & [= _ ->] & ? & _). congruence.
      * split; [by intros H%app_singleton_ne|].
        intros (σ'' & [= _ ->] & ? & _). congruence.
    + split; [by intros H%app_singleton_ne|]. by intros (σ'' & ? & _).
  - intros w st processed url H. rewrite scrape_and_keep_templates.
    destruct (Scraper.template_data_at_end _ _ _) as [[σ' r']|]; [|done].
    destruct (H σ' r' eq_refl) as [-> | ->]; [done|]. by rewrite andb_false_r.
  - intros w st title video_url template_url r.
    pose proof (process_template_templates w st title video_url template_url) as E.
    cbv zeta in E. rewrite E. clear E.
    destruct (Manual.process_media _ _ _ _ _) as [σ' [[v t]|]].
    + destruct (truthy v) eqn:Ev; destruct (truthy t) eqn:Et; cbn [andb].
      * split.
        -- intros H%app_singleton_inv. subst r. by exists σ', v, t.
        -- intros (σ'' & v' & t' & [= _ <- <-] & _ & _ & ->). done.
      * split; [by intros H%app_singleton_ne|].
        intros (σ'' & v' & t' & [= _ <- <-] & ? & ? & _). congruence.
      * split; [by intros H%app_singleton_ne|].
        intros (σ'' & v' & t' & [= _ <- <-] & ? & ? & _). congruence.
      * split; [by intros H%app_singleton_ne|].
        intros (σ'' & v' & t' & [= _ <- <-] & ? & ? & _). congruence.
    + split; [by intros H%app_singleton_ne|]. by intros (σ'' & v' & t' & ? & _).
  - intros w st title video_url template_url H.
    pose proof (process_template_templates w st title video_url template_url) as E.
    cbv zeta in E. rewrite E. clear E.
    destruct (Manual.process_media _ _ _ _ _) as [σ' [[v t]|]]; [|done].
    destruct (H σ' v t eq_refl) as [-> | ->]; [done|]. by rewrite andb_false_r.
  - intros max_results st links. apply process_links_invariant.
  - intros st entries. apply main_loop_invariant.
Qed.

Lemma record_kept_iff_witness :
  (∃ r, Manual.templates
          (Manual.process_template hosting_world (Manual.State [] fresh)
             (py "Test") (py "https://host/v.mp4") None).1 = [] ++ [r]) ∧
  Manual.templates
    (Manual.process_template video_only_world (Manual.State [] fresh)
       (py "Test") (py "https://host/v.mp4") None).1 = [] ∧
  Forall both_hosted_scraper
    (Scraper.templates
       (Scraper.search_templates 5 (Scraper.State [] fresh)
          [(py "https://x/template-detail/a/1", hosting_world);
           (py "https://x/template-detail/b/2", video_only_world)])).
Proof.
  destruct record_kept_iff as (_ & _ & Hiff & Hnot & Hinv & _).
  split; [|split].
  - exists (Manual.Template (py "Test") None (Some [])
              (Some (py "https://files.catbox.moe/abc123"))
              (Some (py "https://files.catbox.moe/abc123"))
              [] (py "https://host/v.mp4")).
    apply Hiff. eexists _, _, _.
    split; [vm_compute; reflexivity|].
    split; [reflexivity|]. split; reflexivity.
  - apply (Hnot video_only_world (Manual.State [] fresh)).
    intros σ' v t H. vm_compute in H. injection H as _ <- <-. by right.
  - apply Hinv. constructor.
Defined.

(** * Temporary files *)
Section Cleanup.

Lemma remove_both_gone a b σ :
  is_Some (files σ !! a) →
  files (remove_both a b σ) !! a = None ∧ files (remove_both a b σ) !! b = None.
Proof.
  intros [x Hx]. unfold remove_both, os_remove. rewrite Hx. cbn [files].
  destruct (delete a (files σ) !! b) as [y|] eqn:Hb;
    cbn [default from_option id files].
  - rewrite lookup_delete_eq. split; [|done].
    rewrite lookup_delete. case_decide; [done|]. apply lookup_delete_eq.
  - split; [apply lookup_delete_eq|done].
Qed.

Lemma manual_upload_files w σ file_path :
  files (Manual.upload_to_catbox w σ file_path).1 = files σ.
Proof.
  unfold Manual.upload_to_catbox. destruct (files σ !! file_path); [|done].
  by destruct (http_post w 30 file_path _).
Qed.

Lemma scraper_upload_files w σ file_path :
  files (Scraper.upload_to_catbox w σ file_path).1 = files σ.
Proof.
  unfold Scraper.upload_to_catbox. destruct (files σ !! file_path); [|done].
  by destruct (http_post w 60 file_path _).
Qed.

Lemma manual_download_written w σ video_url filename σ1 f :
  Manual.download_video w σ video_url filename = (σ1, Some f) →
  is_Some (files σ1 !! filename).
Proof.
  unfold Manual.download_video. destruct (http_get w video_url) as [|chunks []];
    intros [= <- <-]. cbn [write_file files]. rewrite lookup_insert_eq. done.
Qed.

Lemma scraper_download_written w σ video_url filename σ1 f :
  Scraper.download_video w σ video_url filename = (σ1, Some f) →
  is_Some (files σ1 !! filename).
Proof.
  unfold Scraper.download_video.
  destruct (session_get w video_url) as [|chunks complete]; [done|].
  destruct (total_size w video_url); [|done].
  destruct complete; intros [= <- <-].
  cbn [write_file files]. rewrite lookup_insert_eq. done.
Qed.

Lemma manual_thumbnail_keeps w σ1 video_path thumbnail_path σ2 r p :
  Manual.extract_thumbnail w σ1 video_path thumbnail_path = (σ2, r) →
  is_Some (files σ1 !! p) → is_Some (files σ2 !! p).
Proof.
  unfold Manual.extract_thumbnail.
  destruct (files σ1 !! video_path ≫= cv_open w) as [cap|]; [|by intros [= <- _]].
  destruct (frame_at cap 30); intros [= <- _]; [|done].
  cbn [write_file files]. intros H. rewrite lookup_insert.
  by destruct (decide (thumbnail_path = p)).
Qed.

Lemma scraper_thumbnail_keeps w σ1 video_path output_path ts σ2 r p :
  Scraper.extract_video_thumbnail w σ1 video_path output_path ts = (σ2, r) →
  is_Some (files σ1 !! p) → is_Some (files σ2 !! p).
Proof.
  unfold Scraper.extract_video_thumbnail.
  destruct (files σ1 !! video_path ≫= cv_open w) as [cap|]; [|by intros [= <- _]].
  destruct (Scraper.frame_number cap ts) as [n|]; [|by intros [= <- _]].
  destruct (frame_at cap n); intros [= <- _]; [|done].
  cbn [write_file files]. intros H. rewrite lookup_insert.
  by destruct (decide (output_path = p)).
Qed.

(** When the thumbnail cannot be extracted the invocation ends with the
    downloaded video still in place (manual variant). *)
Lemma manual_video_left w st title video_url template_url σ1 f σ2 :
  let id := Manual.template_id_of template_url in
  Manual.download_video w (Manual.sys st) video_url (Manual.video_file title id)
  = (σ1, Some f) →
  Manual.extract_thumbnail w σ1 (Manual.video_file title id)
    (Manual.thumb_file title id) = (σ2, None) →
  is_Some
    (files (Manual.sys
              (Manual.process_template w st title video_url template_url).1)
       !! Manual.video_file title id).
Proof.
  intros id Hd Ht. unfold Manual.process_template, Manual.process_media.
  fold id. rewrite Hd, Ht. cbn [fst Manual.sys].
  eapply manual_thumbnail_keeps; [exact Ht|].
  eapply manual_download_written, Hd.
Qed.

(** The same for the automated variant. *)
Lemma scraper_video_left w σ video_url td σ1 f σ2 :
  let id := Scraper.template_id td in
  Scraper.download_video w σ video_url (Scraper.video_path w id) = (σ1, Some f) →
  Scraper.extract_video_thumbnail w σ1 (Scraper.video_path w id)
    (Scraper.thumbnail_path w id) 2%float = (σ2, None) →
  is_Some
    (files (Scraper.process_media w σ video_url td).1 !! Scraper.video_path w id).
Proof.
  intros id Hd Ht. unfold id in *. clear id.
  unfold Scraper.process_media. rewrite Hd, Ht. cbn [fst].
  eapply scraper_thumbnail_keeps; [exact Ht|].
  eapply scraper_download_written, Hd.
Qed.

(** A download that breaks off leaves what it had written (both variants
    return at once). *)
Lemma manual_partial_download_left w st title video_url template_url chunks :
  http_get w video_url = GetStream chunks false →
  files (Manual.sys
           (Manual.process_template w st title video_url template_url).1)
    !! Manual.video_file title (Manual.template_id_of template_url)
  = Some (concat chunks).
Proof.
  intros Hg. unfold Manual.process_template, Manual.process_media,
    Manual.download_video. rewrite Hg.
  cbn [fst Manual.sys write_file files]. apply lookup_insert_eq.
Qed.

(** After the two uploads, whatever they return, both local files are
    gone (manual variant). *)
Lemma manual_cleanup_after_uploads w σ title video_url id σ1 f σ2 t :
  Manual.download_video w σ video_url (Manual.video_file title id) = (σ1, Some f) →
  Manual.extract_thumbnail w σ1 (Manual.video_file title id)
    (Manual.thumb_file title id) = (σ2, Some t) →
  let σ' := (Manual.process_media w σ title video_url id).1 in
  files σ' !! Manual.video_file title id = None ∧
  files σ' !! Manual.thumb_file title id = None.
Proof.
  intros Hd Ht. unfold Manual.process_media. rewrite Hd, Ht.
  destruct (Manual.upload_to_catbox w σ2 _) as [σ3 v] eqn:E3.
  destruct (Manual.upload_to_catbox w σ3 _) as [σ4 u] eqn:E4.
  cbn [fst]. apply remove_both_gone.
  apply (f_equal fst) in E3, E4. cbn [fst] in E3, E4.
  rewrite <-E4, manual_upload_files, <-E3, manual_upload_files.
  eapply manual_thumbnail_keeps; [exact Ht|].
  eapply manual_download_written, Hd.
Qed.

(** The same for the automated variant. *)
Lemma scraper_cleanup_after_uploads w σ video_url td σ1 f σ2 t :
  let id := Scraper.template_id td in
  Scraper.download_video w σ video_url (Scraper.video_path w id) = (σ1, Some f) →
  Scraper.extract_video_thumbnail w σ1 (Scraper.video_path w id)
    (Scraper.thumbnail_path w id) 2%float = (σ2, Some t) →
  let σ' := (Scraper.process_media w σ video_url td).1 in
  files σ' !! Scraper.video_path w id = None ∧
  files σ' !! Scraper.thumbnail_path w id = None.
Proof.
  intros id Hd Ht. unfold id in *. clear id.
  unfold Scraper.process_media. rewrite Hd, Ht.
  destruct (Scraper.upload_to_catbox w σ2 _) as [σ3 v] eqn:E3.
  destruct (Scraper.upload_to_catbox w σ3 _) as [σ4 u] eqn:E4.
  cbn [fst]. apply remove_both_gone.
  apply (f_equal fst) in E3, E4. cbn [fst] in E3, E4.
  rewrite <-E4, scraper_upload_files, <-E3, scraper_upload_files.
  eapply scraper_thumbnail_keeps; [exact Ht|].
  eapply scraper_download_written, Hd.
Qed.

End Cleanup.

(** C2 on the code: when the download succeeds and the thumbnail cannot be
    extracted, the invocation ends without removing the downloaded video,
    in both variants. *)
Theorem video_left_after_thumbnail_failure :
  (let st' := (Manual.process_template undecodable_world (Manual.State [] fresh)
                 (py "Test") (py "https://host/v.mp4") None).1 in
   files (Manual.sys st') !! py "temp/Test_manual.mp4" = Some (py "not a video")) ∧
  (let σ' := (Scraper.scrape_template_page undecodable_world fresh
                (py "https://www.capcut.com/template-detail/x/")).1 in
   files σ' !! py "downloads/videos/unknown_0.mp4" = Some (py "not a video")).
Proof. split; vm_compute; reflexivity. Qed.

(** * The CSV export *)
Section CsvExport.

Lemma csv_records_escape s b :
  csv_records true (csv_escape s ++ b) = csv_records true b.
Proof.
  induction s as [|c s IH]; [done|]. cbn [csv_escape].
  destruct (Ascii.eqb c quote_char) eqn:E; cbn [app csv_records]; rewrite E.
  - cbn [negb csv_records]. rewrite ?E. apply IH.
  - cbn [negb]. rewrite andb_false_r. apply IH.
Qed.

Lemma csv_records_plain s b :
  existsb needs_quotes s = false →
  csv_records false (s ++ b) = csv_records false b.
Proof.
  induction s as [|c s IH]; [done|]. cbn [existsb app csv_records].
  intros H. apply orb_false_elim in H as [Hc Hs].
  unfold needs_quotes in Hc.
  apply orb_false_elim in Hc as [Hc Hlf].
  apply orb_false_elim in Hc as [Hc Hcr].
  apply orb_false_elim in Hc as [_ Hq].
  rewrite Hq, Hlf. cbn [andb]. by apply IH.
Qed.

Lemma csv_records_field v b :
  csv_records false (csv_field v ++ b) = csv_records false b.
Proof.
  unfold csv_field. destruct (existsb needs_quotes (default [] v)) eqn:E.
  - rewrite <-!(assoc_L (++)). cbn [app csv_records].
    rewrite Ascii.eqb_refl. cbn [negb]. rewrite csv_records_escape.
    cbn [app csv_records]. by rewrite Ascii.eqb_refl.
  - by apply csv_records_plain.
Qed.

Lemma csv_records_join fields b :
  csv_records false (join (py ",") (csv_field <$> fields) ++ b)
  = csv_records false b.
Proof.
  induction fields as [|v fields IH]; [done|].
  destruct fields as [|v' fields].
  - simpl. apply csv_records_field.
  - change (join (py ",") (csv_field <$> v :: v' :: fields))
      with (csv_field v ++ py "," ++ join (py ",") (csv_field <$> v' :: fields)).
    rewrite <-!(assoc_L (++)), csv_records_field. simpl. apply IH.
Qed.

Lemma csv_records_row fields b :
  csv_records false (csv_row fields ++ b) = S (csv_records false b).
Proof.
  unfold csv_row. rewrite <-(assoc_L (++)), csv_records_join. done.
Qed.

Lemma csv_records_rows {A : Type} (row : A → list (option str)) ts :
  csv_records false (concat (csv_row ∘ row <$> ts)) = length ts.
Proof.
  induction ts as [|t ts IH]; [done|].
  rewrite fmap_cons. cbn [concat compose length].
  by rewrite csv_records_row, IH.
Qed.

End CsvExport.

(** C9: exporting again a collection that has not changed writes the same
    bytes to the same file and leaves the machine as the first export left
    it; the text written is the header row followed by the row of each
    record, in the order of the collection, one record of the CSV text per
    record, and a record appended later only adds its row at the end. *)
Theorem export_csv_twice :
  (∀ filename st,
     Scraper.export_to_csv filename (Scraper.export_to_csv filename st).1
     = Scraper.export_to_csv filename st) ∧
  (∀ filename st,
     Manual.export_csv filename (Manual.export_csv filename st).1
     = Manual.export_csv filename st) ∧
  (∀ filename σ t ts,
     files (Scraper.sys
              (Scraper.export_to_csv filename (Scraper.State (t :: ts) σ)).1)
       !! path_join (py "output") filename
     = Some (encode_utf8 (Scraper.csv_text (t :: ts)))) ∧
  (∀ filename σ,
     Scraper.export_to_csv filename (Scraper.State [] σ)
     = (Scraper.State [] σ, None)) ∧
  (∀ filename st,
     files (Manual.sys (Manual.export_csv filename st).1)
       !! path_join (py "output") filename
     = Some (encode_utf8 (Manual.csv_text (Manual.templates st)))) ∧
  (∀ ts, csv_records false (Scraper.csv_text ts) = S (length ts) ∧
         ∀ t, Scraper.csv_text (ts ++ [t])
              = Scraper.csv_text ts ++ csv_row (Scraper.row_of t)) ∧
  (∀ ts, csv_records false (Manual.csv_text ts) = S (length ts) ∧
         ∀ t, Manual.csv_text (ts ++ [t])
              = Manual.csv_text ts ++ csv_row (Manual.row_of t)).
Proof.
  repeat apply conj.
  - intros filename [ts σ]. unfold Scraper.export_to_csv. cbn [Scraper.templates].
    destruct ts as [|t ts]; [done|].
    cbn [fst Scraper.templates Scraper.sys]. unfold write_file. cbn [files sent].
    by rewrite insert_insert_eq.
  - intros filename [ts σ]. unfold Manual.export_csv.
    cbn [fst Manual.templates Manual.sys]. unfold write_file. cbn [files sent].
    by rewrite insert_insert_eq.
  - intros filename σ t ts. unfold Scraper.export_to_csv.
    cbn [fst Scraper.templates Scraper.sys write_file files].
    apply lookup_insert_eq.
  - done.
  - intros filename [ts σ]. unfold Manual.export_csv.
    cbn [fst Manual.templates Manual.sys write_file files].
    apply lookup_insert_eq.
  - intros ts. split.
    + unfold Scraper.csv_text. by rewrite csv_records_row, csv_records_rows.
    + intros t. unfold Scraper.csv_text.
      rewrite fmap_app, concat_app, (assoc_L (++)). f_equal.
      cbn [fmap list_fmap concat compose]. apply app_nil_r.
  - intros ts. split.
    + unfold Manual.csv_text. by rewrite csv_records_row, csv_records_rows.
    + intros t. unfold Manual.csv_text.
      rewrite fmap_app, concat_app, (assoc_L (++)). f_equal.
      cbn [fmap list_fmap concat compose]. apply app_nil_r.
Qed.


(** * Capture groups *)
Section Groups.

Lemma match_here_groupless r : ∀ s pos marks e marks',
  groupless r = true →
  match_here r s pos marks = Some (e, marks') → marks' = marks.
Proof.
  induction r as [|i r IH]; intros s pos marks e marks'; simpl.
  - by intros _ [= _ <-].
  - destruct i as [c|p lo hi| | |]; simpl; try done; intros Hg.
    + destruct s as [|x s]; [done|]. destruct (Ascii.eqb c x); [|done].
      by apply IH.
    + intros H. apply backtrack_Some in H as (k & _ & H). by apply IH in H.
    + destruct (at_end s); [|done]. by apply IH.
Qed.

Lemma match_here_skip pre r : ∀ s pos marks res,
  groupless pre = true →
  match_here (pre ++ r) s pos marks = Some res →
  ∃ k, k ≤ length s ∧ match_here r (drop k s) (pos + k) marks = Some res.
Proof.
  induction pre as [|i pre IH]; intros s pos marks res; simpl.
  - intros _ H. exists 0. rewrite Nat.add_0_r. split; [lia|done].
  - destruct i as [c|p lo hi| | |]; simpl; try done; intros Hg.
    + destruct s as [|x s]; [done|]. destruct (Ascii.eqb c x); [|done].
      intros H. destruct (IH _ _ _ _ Hg H) as (k & Hk & Hm).
      exists (S k). simpl. split; [lia|]. by rewrite Nat.add_succ_r.
    + intros H. apply backtrack_Some in H as (k & [_ Hk] & H).
      apply rep_max_bounds in Hk as [Hk _].
      pose proof (span_len_le p s) as Hlen.
      destruct (IH _ _ _ _ Hg H) as (k' & Hk' & Hm).
      rewrite length_drop in Hk'. exists (k + k'). split; [lia|].
      by rewrite <-drop_drop, Nat.add_assoc.
    + destruct (at_end s); [|done]. by apply IH.
Qed.

Lemma match_here_one_group p lo hi r s pos e marks' :
  one_group p lo hi r →
  match_here r s pos [] = Some (e, marks') →
  ∃ j k, marks' = [pos + j; pos + j + k] ∧ j + k ≤ length s ∧
         lo ≤ k ∧ (∀ h, hi = Some h → k ≤ h) ∧
         Forall (λ c, p c = true) (take k (drop j s)).
Proof.
  intros (pre & post & -> & Hpre & Hpost) H.
  apply match_here_skip in H as (j & Hj & H); [|done].
  simpl in H. apply backtrack_Some in H as (k & [Hlo Hk] & H).
  apply rep_max_bounds in Hk as [Hk Hhi].
  pose proof (span_len_le p (drop j s)) as Hlen. rewrite length_drop in Hlen.
  apply match_here_groupless in H as ->; [|done].
  exists j, k. repeat split; [lia|done|done|by apply span_len_take].
Qed.

Lemma group_1_marks text s pos e j k :
  s = drop pos text → j + k ≤ length s →
  group 1 (RMatch text pos e [pos + j; pos + j + k]) = Some (take k (drop j s))
  ∧ length (take k (drop j s)) = k
  ∧ ∃ a b, text = a ++ take k (drop j s) ++ b.
Proof.
  intros Hs Hjk. split; [|split].
  - unfold group, slice. cbn [m_marks m_string].
    replace (2 * 1 - 2) with 0 by lia. replace (2 * 1 - 1) with 1 by lia.
    cbn [lookup list_lookup].
    replace (pos + j + k - (pos + j)) with k by lia.
    by rewrite Hs, drop_drop.
  - rewrite length_take, length_drop. lia.
  - exists (take (pos + j) text), (drop k (drop (pos + j) text)).
    by rewrite Hs, drop_drop, take_drop, take_drop.
Qed.

(** What [re.search] captures in the group of such a pattern: a piece of
    the text, of the class and of the length the group asks for. *)
Lemma search_from_one_group p lo hi r text : ∀ s pos m,
  one_group p lo hi r →
  s = drop pos text →
  search_from r text s pos = Some m →
  ∃ g, group 1 m = Some g ∧ Forall (λ c, p c = true) g ∧
       lo ≤ length g ∧ (∀ h, hi = Some h → length g ≤ h) ∧
       ∃ a b, text = a ++ g ++ b.
Proof.
  intros s pos m Hr.
  assert (∀ s pos e marks, s = drop pos text →
            match_here r s pos [] = Some (e, marks) →
            ∃ g, group 1 (RMatch text pos e marks) = Some g ∧
                 Forall (λ c, p c = true) g ∧ lo ≤ length g ∧
                 (∀ h, hi = Some h → length g ≤ h) ∧
                 ∃ a b, text = a ++ g ++ b) as Hhere.
  { clear s pos m. intros s pos e marks Hs E.
    destruct (match_here_one_group _ _ _ _ _ _ _ _ Hr E)
      as (j & k & -> & Hjk & Hlo & Hhi & Hp).
    destruct (group_1_marks text s pos e j k Hs Hjk) as (Hg & Hlen & Hsub).
    exists (take k (drop j s)). rewrite Hlen. done. }
  revert pos. induction s as [|c s IH]; intros pos Hs; simpl.
  - destruct (match_here r [] pos []) as [[e marks]|] eqn:E; [|done].
    intros [= <-]. by apply (Hhere []).
  - destruct (match_here r (c :: s) pos []) as [[e marks]|] eqn:E.
    + intros [= <-]. by apply (Hhere (c :: s)).
    + intros H. apply (IH (S pos)); [|done].
      change (S pos) with (1 + pos). rewrite Nat.add_comm, <-drop_drop, <-Hs. done.
Qed.

Lemma re_search_one_group p lo hi r text m :
  one_group p lo hi r → re_search r text = Some m →
  ∃ g, group 1 m = Some g ∧ Forall (λ c, p c = true) g ∧
       lo ≤ length g ∧ (∀ h, hi = Some h → length g ≤ h) ∧
       ∃ a b, text = a ++ g ++ b.
Proof. intros Hr. by apply search_from_one_group. Qed.

Lemma first_group_one_group ps url id :
  Forall (λ r, ∃ lo hi, one_group is_digit lo hi r ∧ 1 ≤ lo) ps →
  Scraper.first_group ps url = Some id →
  id ≠ [] ∧ Forall (λ c, is_digit c = true) id ∧ contains id url = true.
Proof.
  unfold Scraper.first_group.
  induction 1 as [|r ps (lo & hi & Hr & Hlo) _ IH]; simpl; [done|].
  destruct (re_search r url) as [m|] eqn:E; simpl; [|done].
  destruct (re_search_one_group _ _ _ _ _ _ Hr E)
    as (g & Hg & Hp & Hlen & _ & a & b & Hab).
  rewrite Hg. intros [= <-]. split; [|split; [done|]].
  - intros ->. simpl in Hlen. lia.
  - apply contains_spec. by exists a, b.
Qed.

End Groups.


Section Identifier.

Lemma scraper_patterns_one_group :
  Forall (λ r, ∃ lo hi, one_group is_digit lo hi r ∧ 1 ≤ lo) Scraper.patterns.
Proof.
  unfold Scraper.patterns. repeat apply Forall_cons_2; [..|constructor].
  - exists 1, None. split; [|lia]. by exists (lits "template_id="), [].
  - exists 1, None. split; [|lia].
    by exists (lits "template-detail/" ++ [plus (char_not "/")] ++ lits "/"), [].
  - exists 19, (Some 19). split; [|lia].
    by exists (lits "/"), [opt (char_is "/"); Eos].
  - exists 1, None. split; [|lia]. by exists (lits "template/"), [].
  - exists 16, (Some 20). split; [|lia]. by exists (lits "/"), [opt (char_is "/")].
Qed.

Lemma manual_patterns_one_group :
  Forall (λ r, ∃ lo hi, one_group is_digit lo hi r ∧ 1 ≤ lo) Manual.patterns.
Proof.
  unfold Manual.patterns. repeat apply Forall_cons_2; [..|constructor].
  - exists 1, None. split; [|lia]. by exists (lits "template_id="), [].
  - exists 1, None. split; [|lia].
    by exists (lits "template-detail/" ++ [plus (char_not "/")] ++ lits "/"), [].
  - exists 16, (Some 20). split; [|lia]. by exists (lits "/"), [opt (char_is "/")].
Qed.

Lemma scraper_id_digits url id :
  Scraper.extract_template_id url = Some id →
  id ≠ [] ∧ Forall (λ c, is_digit c = true) id ∧ contains id url = true.
Proof. apply first_group_one_group, scraper_patterns_one_group. Qed.

Lemma manual_id_digits url id :
  Manual.extract_template_id url = Some id →
  id ≠ [] ∧ Forall (λ c, is_digit c = true) id ∧ contains id url = true.
Proof. apply first_group_one_group, manual_patterns_one_group. Qed.

Lemma scraper_id_truthy url :
  truthy (Scraper.extract_template_id url) = true
  ↔ is_Some (Scraper.extract_template_id url).
Proof.
  destruct (Scraper.extract_template_id url) as [id|] eqn:E.
  - destruct (scraper_id_digits _ _ E) as (Hne & _). destruct id; [done|].
    split; [by eexists|done].
  - split; [done|by intros [? ?]].
Qed.

Lemma manual_id_of_digits template_url id :
  Manual.template_id_of template_url = Some id →
  id ≠ [] ∧ Forall (λ c, is_digit c = true) id.
Proof.
  unfold Manual.template_id_of. destruct (truthy template_url); [|done].
  intros H. apply manual_id_digits in H. tauto.
Qed.

Lemma scraper_process_media_fields w σ video_url td :
  let r := (Scraper.process_media w σ video_url td).2 in
  Scraper.web_url r = Scraper.web_url td ∧
  Scraper.title r = Scraper.title td ∧
  Scraper.template_id r = Scraper.template_id td ∧
  Scraper.description r = Scraper.description td ∧
  Scraper.tags r = Scraper.tags td ∧
  Scraper.duration r = Scraper.duration td ∧
  Scraper.capcut_link r = Scraper.capcut_link td.
Proof.
  unfold Scraper.process_media.
  destruct (Scraper.download_video _ _ _ _) as [σ1 [f|]]; [|done].
  destruct (Scraper.extract_video_thumbnail _ _ _ _ _) as [σ2 [t|]]; [|done].
  destruct (Scraper.upload_to_catbox w σ2 _) as [σ3 v].
  destruct (Scraper.upload_to_catbox w σ3 _) as [σ4 u]. done.
Qed.

Lemma link_injective (a b : str) :
  link_head ++ a ++ link_mid ++ a ++ link_tail
  = link_head ++ b ++ link_mid ++ b ++ link_tail → a = b.
Proof.
  intros H. apply app_inv_head in H.
  assert (length a = length b) as Hlen.
  { apply (f_equal length) in H. rewrite !length_app in H. lia. }
  by apply app_inj_1 in H as [-> _].
Qed.

End Identifier.

(** X1: an identifier that either extractor returns is a non-empty string
    of digits that occurs in the URL. *)
Theorem extract_template_id_digits (url id : str) :
  Scraper.extract_template_id url = Some id ∨
  Manual.extract_template_id url = Some id →
  id ≠ [] ∧ Forall (λ c, is_digit c = true) id ∧ contains id url = true.
Proof. intros [H|H]; [by apply scraper_id_digits|by apply manual_id_digits]. Qed.

Lemma extract_template_id_digits_witness :
  py "7299286607478181121" ≠ [] ∧
  Forall (λ c, is_digit c = true) (py "7299286607478181121") ∧
  contains (py "7299286607478181121")
    (py "https://www.capcut.com/template-detail/phonk/7299286607478181121")
  = true.
Proof.
  apply (extract_template_id_digits
           (py "https://www.capcut.com/template-detail/phonk/7299286607478181121")).
  left. vm_compute. reflexivity.
Defined.

(** X2: a record that the automated variant builds keeps the URL it was
    scraped from and the identifier extracted from that URL, and its deep
    link is the one generated from that identifier: present exactly when
    the identifier is. *)
Theorem scraped_record_link (w : world) (σ σ' : system) (url : str)
    (r : Scraper.template) :
  Scraper.template_data_at_end w σ url = Some (σ', r) →
  Scraper.web_url r = url ∧
  Scraper.template_id r = Scraper.extract_template_id url ∧
  Scraper.capcut_link r = Scraper.generate_capcut_link (Scraper.template_id r) ∧
  (is_Some (Scraper.capcut_link r) ↔ is_Some (Scraper.template_id r)).
Proof.
  unfold Scraper.template_data_at_end.
  destruct (driver_get w url) as [soup|]; [|done].
  destruct (Scraper.extract_video_url soup) as [[|c u]|]; [done| |done].
  cbn [Scraper.template_id]. set (td := if truthy _ then _ else _).
  intros [= E]. pose proof (scraper_process_media_fields w σ (c :: u) td) as H.
  cbv zeta in H. rewrite E in H. cbn [snd] in H.
  destruct H as (Hw & _ & Hid & _ & _ & _ & Hl).
  assert (Scraper.web_url td = url ∧
          Scraper.template_id td = Scraper.extract_template_id url ∧
          Scraper.capcut_link td
          = Scraper.generate_capcut_link (Scraper.extract_template_id url))
    as (Hw' & Hid' & Hl').
  { unfold td. destruct (truthy (Scraper.extract_template_id url)) eqn:Et; [done|].
    repeat split. unfold Scraper.generate_capcut_link. by rewrite Et. }
  rewrite Hw, Hid, Hl, Hw', Hid', Hl'. repeat split.
  - unfold Scraper.generate_capcut_link.
    destruct (truthy (Scraper.extract_template_id url)) eqn:Et; [|by intros [? ?]].
    intros _. by apply scraper_id_truthy.
  - intros Hs. apply scraper_id_truthy in Hs.
    unfold Scraper.generate_capcut_link. rewrite Hs. by eexists.
Qed.

Lemma scraped_record_link_witness :
  let r := Scraper.Template (py "https://x/template-detail/a/1")
             (py "Untitled Template") (Some (py "1")) [] [py "phonk"] (py "0:12")
             (Some (py "https://files.catbox.moe/abc123"))
             (Some (py "https://files.catbox.moe/abc123"))
             (Scraper.generate_capcut_link (Some (py "1"))) in
  Scraper.web_url r = py "https://x/template-detail/a/1" ∧
  Scraper.template_id r
  = Scraper.extract_template_id (py "https://x/template-detail/a/1") ∧
  Scraper.capcut_link r = Scraper.generate_capcut_link (Scraper.template_id r) ∧
  (is_Some (Scraper.capcut_link r) ↔ is_Some (Scraper.template_id r)).
Proof.
  intros r.
  apply (scraped_record_link hosting_world fresh
           (System ∅ [GET (py "https://host/v.mp4");
                      POST 60 (py "downloads/videos/1_0.mp4");
                      POST 60 (py "downloads/thumbnails/1_0.jpg")])).
  vm_compute. reflexivity.
Defined.

(** X3: the link generator is injective: two identifiers with the same
    link are the same identifier. *)
Theorem generate_capcut_link_injective (a b : str) :
  a ≠ [] →
  Scraper.generate_capcut_link (Some a) = Scraper.generate_capcut_link (Some b) →
  a = b.
Proof.
  intros Ha. unfold Scraper.generate_capcut_link.
  destruct a as [|c a]; [done|]. destruct b as [|d b]; [done|].
  cbn [truthy default from_option]. unfold id. intros H.
  apply (inj Some) in H. by apply link_injective.
Qed.

Lemma generate_capcut_link_injective_witness : py "123" = py "123".
Proof.
  apply generate_capcut_link_injective; [done|reflexivity].
Defined.


(** * More on [strip] *)
Section Strip.

Lemma lstrip_head s c t : lstrip s = c :: t → is_space c = false.
Proof.
  induction s as [|x s IH]; simpl; [done|].
  destruct (is_space x) eqn:E; [done|]. by intros [= <- _].
Qed.

Lemma lstrip_fixed c t : is_space c = false → lstrip (c :: t) = c :: t.
Proof. intros H. simpl. by rewrite H. Qed.

Lemma lstrip_idem s : lstrip (lstrip s) = lstrip s.
Proof.
  destruct (lstrip s) as [|c t] eqn:E; [done|].
  apply lstrip_fixed. by apply (lstrip_head s c t).
Qed.

Lemma rstrip_idem s : rstrip (rstrip s) = rstrip s.
Proof. unfold rstrip. by rewrite rev_involutive, lstrip_idem. Qed.

Lemma lstrip_rstrip_lstrip s : lstrip (rstrip (lstrip s)) = rstrip (lstrip s).
Proof.
  destruct (rstrip_prefix (lstrip s)) as [ws H].
  destruct (rstrip (lstrip s)) as [|c t] eqn:E; [done|].
  apply lstrip_fixed. by apply (lstrip_head s c (t ++ ws)).
Qed.

Lemma strip_idem s : strip (strip s) = strip s.
Proof. unfold strip. by rewrite lstrip_rstrip_lstrip, rstrip_idem. Qed.

Lemma strip_https_body s :
  startswith (py "https://") s = true →
  startswith (py "https://") (strip s) = true.
Proof.
  intros H. unfold strip.
  assert (lstrip s = s) as ->.
  { apply startswith_spec in H as [t ->]. by apply lstrip_fixed. }
  by rewrite startswith_https_rstrip.
Qed.

End Strip.

(** * Effects of the stages *)
Section Effects.

Lemma scraper_hosted_url_clean response u :
  Scraper.hosted_url response = Some u →
  startswith (py "https://") u = true ∧ strip u = u.
Proof.
  intros H. apply scraper_hosted_url_Some in H as (_ & Hp & ->).
  split; [done|apply strip_idem].
Qed.

Lemma manual_hosted_url_clean response u :
  Manual.hosted_url response = Some u →
  startswith (py "https://") u = true ∧ strip u = u.
Proof.
  intros H. apply manual_hosted_url_Some in H as (_ & Hp & ->).
  split; [by apply strip_https_body|apply strip_idem].
Qed.

Lemma scraper_upload_Some w σ p u :
  (Scraper.upload_to_catbox w σ p).2 = Some u →
  ∃ content response, files σ !! p = Some content ∧
    http_post w 60 p content = Some response ∧
    Scraper.hosted_url response = Some u.
Proof.
  unfold Scraper.upload_to_catbox.
  destruct (files σ !! p) as [content|]; [|done].
  destruct (http_post w 60 p content) as [response|] eqn:E; [|done].
  cbn [snd]. intros H. by exists content, response.
Qed.

Lemma manual_upload_Some w σ p u :
  (Manual.upload_to_catbox w σ p).2 = Some u →
  ∃ content response, files σ !! p = Some content ∧
    http_post w 30 p content = Some response ∧
    Manual.hosted_url response = Some u.
Proof.
  unfold Manual.upload_to_catbox.
  destruct (files σ !! p) as [content|]; [|done].
  destruct (http_post w 30 p content) as [response|] eqn:E; [|done].
  cbn [snd]. intros H. by exists content, response.
Qed.

Lemma scraper_upload_sent w σ p :
  sent (Scraper.upload_to_catbox w σ p).1
  = sent σ ++ match files σ !! p with Some _ => [POST 60 p] | None => [] end.
Proof.
  unfold Scraper.upload_to_catbox.
  destruct (files σ !! p) as [content|]; [|by rewrite app_nil_r].
  by destruct (http_post w 60 p content).
Qed.

Lemma manual_upload_sent w σ p :
  sent (Manual.upload_to_catbox w σ p).1
  = sent σ ++ match files σ !! p with Some _ => [POST 30 p] | None => [] end.
Proof.
  unfold Manual.upload_to_catbox.
  destruct (files σ !! p) as [content|]; [|by rewrite app_nil_r].
  by destruct (http_post w 30 p content).
Qed.

Lemma concat_nonempty (chunks : list bytes) :
  concat (filter (λ chunk, chunk ≠ []) chunks) = concat chunks.
Proof.
  induction chunks as [|c chunks IH]; [done|].
  rewrite filter_cons. destruct (decide (c ≠ [])) as [H|H]; simpl.
  - by rewrite IH.
  - destruct c; [by rewrite IH|]. by exfalso; apply H.
Qed.

Lemma remove_both_other a b σ p :
  p ≠ a → p ≠ b → files (remove_both a b σ) !! p = files σ !! p.
Proof.
  intros Ha Hb. unfold remove_both, os_remove.
  destruct (files σ !! a); [|done]. cbn [files].
  destruct (delete a (files σ) !! b); cbn [default from_option id files].
  - by rewrite !lookup_delete_ne.
  - by rewrite lookup_delete_ne.
Qed.

Lemma remove_both_sent a b σ : sent (remove_both a b σ) = sent σ.
Proof.
  unfold remove_both, os_remove. destruct (files σ !! a); [|done]. cbn [files].
  by destruct (delete a (files σ) !! b).
Qed.

End Effects.

(** X4: a URL that either uploader returns starts with https://, has no
    whitespace around it and is not empty. *)
Theorem uploaded_url_clean (w : world) (σ : system) (file_path u : str) :
  (Scraper.upload_to_catbox w σ file_path).2 = Some u ∨
  (Manual.upload_to_catbox w σ file_path).2 = Some u →
  startswith (py "https://") u = true ∧ strip u = u ∧ truthy (Some u) = true.
Proof.
  intros H.
  assert (startswith (py "https://") u = true ∧ strip u = u) as [Hp Hs].
  { destruct H as [H|H].
    - apply scraper_upload_Some in H as (? & r & _ & _ & H).
      by apply (scraper_hosted_url_clean r).
    - apply manual_upload_Some in H as (? & r & _ & _ & H).
      by apply (manual_hosted_url_clean r). }
  repeat split; [done..|]. apply startswith_spec in Hp as [t ->]. done.
Qed.

Lemma uploaded_url_clean_witness :
  startswith (py "https://") (py "https://files.catbox.moe/abc123") = true ∧
  strip (py "https://files.catbox.moe/abc123")
  = py "https://files.catbox.moe/abc123" ∧
  truthy (Some (py "https://files.catbox.moe/abc123")) = true.
Proof.
  apply (uploaded_url_clean
           (answering_world "  https://files.catbox.moe/abc123  ")
           (System {[ py "v.mp4" := py "video" ]} []) (py "v.mp4")).
  left. vm_compute. reflexivity.
Defined.

(** X5: an upload never changes a file; it sends one request when the file
    can be opened and none when it cannot, in which case it returns none. *)
Theorem upload_to_catbox_effects (w : world) (σ : system) (file_path : str) :
  files (Scraper.upload_to_catbox w σ file_path).1 = files σ ∧
  files (Manual.upload_to_catbox w σ file_path).1 = files σ ∧
  sent (Scraper.upload_to_catbox w σ file_path).1
  = sent σ ++ match files σ !! file_path with
             | Some _ => [POST 60 file_path]
             | None => []
             end ∧
  sent (Manual.upload_to_catbox w σ file_path).1
  = sent σ ++ match files σ !! file_path with
             | Some _ => [POST 30 file_path]
             | None => []
             end ∧
  (files σ !! file_path = None →
   Scraper.upload_to_catbox w σ file_path = (σ, None) ∧
   Manual.upload_to_catbox w σ file_path = (σ, None)).
Proof.
  repeat split.
  - apply scraper_upload_files.
  - apply manual_upload_files.
  - apply scraper_upload_sent.
  - apply manual_upload_sent.
  - unfold Scraper.upload_to_catbox. by rewrite H.
  - unfold Manual.upload_to_catbox. by rewrite H.
Qed.

Lemma upload_to_catbox_effects_witness :
  Scraper.upload_to_catbox hosting_world fresh (py "downloads/videos/gone.mp4")
  = (fresh, None) ∧
  Manual.upload_to_catbox hosting_world fresh (py "downloads/videos/gone.mp4")
  = (fresh, None).
Proof.
  apply (upload_to_catbox_effects hosting_world fresh). reflexivity.
Defined.

(** X6: the two variants download alike when the server answers the
    request of the session as it answers a plain request and line 151 of
    the automated script reads a length: leaving out the empty chunks
    writes the same file.  When line 151 cannot read the length, the
    automated variant fails before it opens the file: it has sent the
    request and writes nothing. *)
Theorem download_video_same (w : world) (σ : system) (video_url path : str) :
  (session_get w video_url = http_get w video_url →
   is_Some (total_size w video_url) →
   Scraper.download_video w σ video_url path
   = Manual.download_video w σ video_url path) ∧
  (total_size w video_url = None →
   Scraper.download_video w σ video_url path = (send (GET video_url) σ, None)).
Proof.
  unfold Scraper.download_video, Manual.download_video. split.
  - intros -> [n ->].
    destruct (http_get w video_url) as [|chunks complete]; [done|].
    by rewrite concat_nonempty.
  - intros ->. by destruct (session_get w video_url).
Qed.

Lemma download_video_same_witness :
  let url := py "https://host/v.mp4" in
  let path := py "temp/v.mp4" in
  Scraper.download_video hosting_world fresh url path
  = Manual.download_video hosting_world fresh url path ∧
  Scraper.download_video unreadable_length_world fresh url path
  = (send (GET url) fresh, None) ∧
  files (Manual.download_video unreadable_length_world fresh url path).1 !! path
  = Some (py "video").
Proof.
  intros url path. split; [|split].
  - apply (proj1 (download_video_same hosting_world fresh url path));
      [reflexivity|by eexists].
  - apply (proj2 (download_video_same unreadable_length_world fresh url path)).
    reflexivity.
  - reflexivity.
Defined.


(** Closes the goals on what a stage leaves of the files and the requests. *)
Ltac effects :=
  repeat split;
  first [ done
        | by intros [? ?]
        | by intros ? ?; rewrite lookup_insert_ne
        | by intros _; rewrite lookup_insert_eq ].

Section Stages.

Lemma manual_download_effects w σ video_url path :
  let r := Manual.download_video w σ video_url path in
  sent r.1 = sent σ ++ [GET video_url] ∧
  (∀ p, p ≠ path → files r.1 !! p = files σ !! p) ∧
  (is_Some r.2 → is_Some (files r.1 !! path)).
Proof.
  unfold Manual.download_video.
  destruct (http_get w video_url) as [|chunks complete];
    [|destruct complete]; cbn [fst snd write_file send files sent];
    effects.
Qed.

Lemma manual_thumbnail_effects w σ video_path thumbnail_path :
  let r := Manual.extract_thumbnail w σ video_path thumbnail_path in
  sent r.1 = sent σ ∧
  (∀ p, p ≠ thumbnail_path → files r.1 !! p = files σ !! p) ∧
  (is_Some r.2 → is_Some (files r.1 !! thumbnail_path)).
Proof.
  unfold Manual.extract_thumbnail.
  destruct (files σ !! video_path ≫= cv_open w) as [cap|];
    [|by effects].
  destruct (frame_at cap 30); cbn [fst snd write_file files sent];
    effects.
Qed.

Lemma scraper_thumbnail_effects w σ video_path output_path ts :
  let r := Scraper.extract_video_thumbnail w σ video_path output_path ts in
  sent r.1 = sent σ ∧
  (∀ p, p ≠ output_path → files r.1 !! p = files σ !! p) ∧
  (is_Some r.2 → is_Some (files r.1 !! output_path)).
Proof.
  unfold Scraper.extract_video_thumbnail.
  destruct (files σ !! video_path ≫= cv_open w) as [cap|];
    [|by effects].
  destruct (Scraper.frame_number cap ts) as [n|];
    [|by effects].
  destruct (frame_at cap n); cbn [fst snd write_file files sent];
    effects.
Qed.

(** What one run of the media stages does to the machine, manual variant. *)
Lemma manual_process_media_effects w σ title video_url id :
  let v := Manual.video_file title id in
  let t := Manual.thumb_file title id in
  let r := Manual.process_media w σ title video_url id in
  (∀ p, p ≠ v → p ≠ t → files r.1 !! p = files σ !! p) ∧
  sent r.1 = sent σ ++ GET video_url ::
               match r.2 with
               | Some _ => [POST 30 v; POST 30 t]
               | None => []
               end.
Proof.
  intros v t. unfold Manual.process_media. fold v t.
  pose proof (manual_download_effects w σ video_url v) as (Hs1 & Hf1 & He1).
  destruct (Manual.download_video w σ video_url v) as [σ1 [f|]];
    cbn [fst snd] in *; [|by split; [intros; apply Hf1|]].
  pose proof (manual_thumbnail_effects w σ1 v t) as (Hs2 & Hf2 & He2).
  destruct (Manual.extract_thumbnail w σ1 v t) as [σ2 [f'|]]; cbn [fst snd] in *.
  2:{ split; [|by rewrite Hs2, Hs1].
      intros p Hv Ht. by rewrite Hf2, Hf1. }
  pose proof (manual_upload_files w σ2 v) as Hf3.
  pose proof (manual_upload_sent w σ2 v) as Hs3.
  destruct (Manual.upload_to_catbox w σ2 v) as [σ3 a]; cbn [fst snd] in *.
  pose proof (manual_upload_files w σ3 t) as Hf4.
  pose proof (manual_upload_sent w σ3 t) as Hs4.
  destruct (Manual.upload_to_catbox w σ3 t) as [σ4 b]; cbn [fst snd] in *.
  assert (is_Some (files σ2 !! v)) as [x Hx].
  { destruct (decide (v = t)) as [<-|Hne]; [by apply He2|].
    rewrite Hf2 by done. by apply He1. }
  assert (is_Some (files σ2 !! t)) as [y Hy] by (by apply He2).
  rewrite Hx in Hs3. rewrite Hf3, Hy in Hs4. split.
  - intros p Hv Ht. by rewrite remove_both_other, Hf4, Hf3, Hf2, Hf1.
  - rewrite remove_both_sent, Hs4, Hs3, Hs2, Hs1, <-!(assoc_L (++)). done.
Qed.

Lemma scraper_download_effects w σ video_url path :
  let r := Scraper.download_video w σ video_url path in
  sent r.1 = sent σ ++ [GET video_url] ∧
  (∀ p, p ≠ path → files r.1 !! p = files σ !! p) ∧
  (is_Some r.2 → is_Some (files r.1 !! path)).
Proof.
  unfold Scraper.download_video.
  destruct (session_get w video_url) as [|chunks complete];
    [|destruct (total_size w video_url); [destruct complete|]];
    cbn [fst snd write_file send files sent]; effects.
Qed.

(** The same for the automated variant; [uploaded] tells whether the two
    uploads were reached. *)
Lemma scraper_process_media_effects w σ video_url td :
  let v := Scraper.video_path w (Scraper.template_id td) in
  let t := Scraper.thumbnail_path w (Scraper.template_id td) in
  let r := Scraper.process_media w σ video_url td in
  (∀ p, p ≠ v → p ≠ t → files r.1 !! p = files σ !! p) ∧
  ∃ uploaded : bool,
    sent r.1 = sent σ ++ GET video_url ::
                 (if uploaded then [POST 60 v; POST 60 t] else []) ∧
    (uploaded = false → r.2 = td).
Proof.
  intros v t. unfold Scraper.process_media. fold v t.
  pose proof (scraper_download_effects w σ video_url v) as (Hs1 & Hf1 & He1).
  destruct (Scraper.download_video w σ video_url v) as [σ1 [f|]];
    cbn [fst snd] in *; [|by split; [intros; apply Hf1|exists false]].
  pose proof (scraper_thumbnail_effects w σ1 v t 2%float) as (Hs2 & Hf2 & He2).
  destruct (Scraper.extract_video_thumbnail w σ1 v t 2%float) as [σ2 [f'|]];
    cbn [fst snd] in *.
  2:{ split; [|exists false; by rewrite Hs2, Hs1].
      intros p Hv Ht. by rewrite Hf2, Hf1. }
  pose proof (scraper_upload_files w σ2 v) as Hf3.
  pose proof (scraper_upload_sent w σ2 v) as Hs3.
  destruct (Scraper.upload_to_catbox w σ2 v) as [σ3 a]; cbn [fst snd] in *.
  pose proof (scraper_upload_files w σ3 t) as Hf4.
  pose proof (scraper_upload_sent w σ3 t) as Hs4.
  destruct (Scraper.upload_to_catbox w σ3 t) as [σ4 b]; cbn [fst snd] in *.
  assert (is_Some (files σ2 !! v)) as [x Hx].
  { destruct (decide (v = t)) as [<-|Hne]; [by apply He2|].
    rewrite Hf2 by done. by apply He1. }
  assert (is_Some (files σ2 !! t)) as [y Hy] by (by apply He2).
  rewrite Hx in Hs3. rewrite Hf3, Hy in Hs4. split.
  - intros p Hv Ht. by rewrite remove_both_other, Hf4, Hf3, Hf2, Hf1.
  - exists true. split; [|done].
    rewrite remove_both_sent, Hs4, Hs3, Hs2, Hs1, <-!(assoc_L (++)). done.
Qed.

(** The requests of the media stages, manual variant: the uploads follow
    exactly a completed download and an extracted thumbnail. *)
Lemma manual_process_media_sent w σ title video_url id :
  let v := Manual.video_file title id in
  let t := Manual.thumb_file title id in
  let d := Manual.download_video w σ video_url v in
  let e := Manual.extract_thumbnail w d.1 v t in
  let r := Manual.process_media w σ title video_url id in
  sent r.1 = sent σ ++ GET video_url ::
               match d.2, e.2 with
               | Some _, Some _ => [POST 30 v; POST 30 t]
               | _, _ => []
               end ∧
  (is_Some r.2 → is_Some d.2 ∧ is_Some e.2).
Proof.
  intros v t. cbv zeta.
  pose proof (manual_process_media_effects w σ title video_url id) as [_ Hs].
  cbv zeta in Hs. fold v t in Hs. revert Hs.
  unfold Manual.process_media. fold v t.
  destruct (Manual.download_video w σ video_url v) as [σ1 [f|]];
    cbn [fst snd]; [|intros Hs; split; [done|by intros [? ?]]].
  destruct (Manual.extract_thumbnail w σ1 v t) as [σ2 [f'|]];
    cbn [fst snd]; [|intros Hs; split; [done|by intros [? ?]]].
  destruct (Manual.upload_to_catbox w σ2 v) as [σ3 a].
  destruct (Manual.upload_to_catbox w σ3 t) as [σ4 b]. cbn [fst snd].
  intros Hs. split; [done|]. intros _. by split; eexists.
Qed.

(** The same for the automated variant. *)
Lemma scraper_process_media_sent w σ video_url td :
  let v := Scraper.video_path w (Scraper.template_id td) in
  let t := Scraper.thumbnail_path w (Scraper.template_id td) in
  let d := Scraper.download_video w σ video_url v in
  let e := Scraper.extract_video_thumbnail w d.1 v t 2%float in
  let r := Scraper.process_media w σ video_url td in
  sent r.1 = sent σ ++ GET video_url ::
               match d.2, e.2 with
               | Some _, Some _ => [POST 60 v; POST 60 t]
               | _, _ => []
               end ∧
  (d.2 = None ∨ e.2 = None → r.2 = td).
Proof.
  intros v t. cbv zeta. unfold Scraper.process_media. fold v t.
  pose proof (scraper_download_effects w σ video_url v) as (Hs1 & Hf1 & He1).
  destruct (Scraper.download_video w σ video_url v) as [σ1 [f|]];
    cbn [fst snd] in *; [|done].
  pose proof (scraper_thumbnail_effects w σ1 v t 2%float) as (Hs2 & Hf2 & He2).
  destruct (Scraper.extract_video_thumbnail w σ1 v t 2%float) as [σ2 [f'|]];
    cbn [fst snd] in *; [|by rewrite Hs2, Hs1].
  pose proof (scraper_upload_files w σ2 v) as Hf3.
  pose proof (scraper_upload_sent w σ2 v) as Hs3.
  destruct (Scraper.upload_to_catbox w σ2 v) as [σ3 a]; cbn [fst snd] in *.
  pose proof (scraper_upload_sent w σ3 t) as Hs4.
  destruct (Scraper.upload_to_catbox w σ3 t) as [σ4 b]; cbn [fst snd] in *.
  assert (is_Some (files σ2 !! v)) as [x Hx].
  { destruct (decide (v = t)) as [<-|Hne]; [by apply He2|].
    rewrite Hf2 by done. by apply He1. }
  assert (is_Some (files σ2 !! t)) as [y Hy] by (by apply He2).
  rewrite Hx in Hs3. rewrite Hf3, Hy in Hs4. split; [|by intros [?|?]].
  rewrite remove_both_sent, Hs4, Hs3, Hs2, Hs1, <-!(assoc_L (++)). done.
Qed.

End Stages.

(** X7: processing one record changes no file but the record's two local
    files: every other path keeps what it held, in both variants. *)
Theorem pipeline_other_files :
  (∀ w st title video_url template_url p,
     p ≠ Manual.video_file title (Manual.template_id_of template_url) →
     p ≠ Manual.thumb_file title (Manual.template_id_of template_url) →
     files (Manual.sys
              (Manual.process_template w st title video_url template_url).1) !! p
     = files (Manual.sys st) !! p) ∧
  (∀ w σ template_url p,
     p ≠ Scraper.video_path w (Scraper.extract_template_id template_url) →
     p ≠ Scraper.thumbnail_path w (Scraper.extract_template_id template_url) →
     files (Scraper.scrape_template_page w σ template_url).1 !! p = files σ !! p).
Proof.
  split.
  - intros w st title video_url template_url p Hv Ht.
    pose proof (manual_process_media_effects w (Manual.sys st) title video_url
                  (Manual.template_id_of template_url)) as [Hf _].
    cbv zeta in Hf. specialize (Hf p Hv Ht). unfold Manual.process_template.
    destruct (Manual.process_media _ _ _ _ _) as [σ' [[a b]|]]; cbn [fst] in *;
      [|done].
    by destruct (truthy a && truthy b).
  - intros w σ template_url p Hv Ht.
    unfold Scraper.scrape_template_page, Scraper.template_data_at_end.
    destruct (driver_get w template_url) as [soup|]; [|done].
    destruct (Scraper.extract_video_url soup) as [[|c u]|]; [done| |done].
    cbn [Scraper.template_id]. set (td := if truthy _ then _ else _).
    assert (Scraper.template_id td = Scraper.extract_template_id template_url)
      as Hid by (unfold td; by destruct (truthy _)).
    pose proof (scraper_process_media_effects w σ (c :: u) td) as [Hf _].
    cbv zeta in Hf. rewrite Hid in Hf. specialize (Hf p Hv Ht).
    destruct (Scraper.process_media w σ (c :: u) td) as [σ' r]; cbn [fst] in *.
    by destruct (truthy (Scraper.video_url r) && truthy (Scraper.thumbnail_url r)).
Qed.

Lemma pipeline_other_files_witness :
  files (Manual.sys
           (Manual.process_template hosting_world
              (Manual.State [] (System {[ py "output/manual_templates.csv"
                                          := py "title" ]} []))
              (py "Test") (py "https://host/v.mp4") None).1)
    !! py "output/manual_templates.csv"
  = Some (py "title").
Proof.
  rewrite (proj1 pipeline_other_files); [reflexivity|..]; vm_compute; discriminate.
Defined.

(** X8: one record costs one download request and, exactly when the
    download completes and the thumbnail is extracted, the two uploads,
    video first; nothing is sent twice, and a record that did not reach the
    uploads is dropped.  The automated variant sends nothing, and leaves
    the machine as it was, when the page cannot be loaded or shows no video
    URL. *)
Theorem pipeline_requests :
  (∀ w st title video_url template_url,
     let id := Manual.template_id_of template_url in
     let v := Manual.video_file title id in
     let t := Manual.thumb_file title id in
     let d := Manual.download_video w (Manual.sys st) video_url v in
     let e := Manual.extract_thumbnail w d.1 v t in
     let r := Manual.process_template w st title video_url template_url in
     sent (Manual.sys r.1)
     = sent (Manual.sys st) ++ GET video_url ::
         match d.2, e.2 with
         | Some _, Some _ => [POST 30 v; POST 30 t]
         | _, _ => []
         end ∧
     (d.2 = None ∨ e.2 = None → r.2 = None)) ∧
  (∀ w σ template_url,
     let id := Scraper.extract_template_id template_url in
     let v := Scraper.video_path w id in
     let t := Scraper.thumbnail_path w id in
     let r := Scraper.scrape_template_page w σ template_url in
     match driver_get w template_url ≫= Scraper.extract_video_url with
     | Some (c :: u) =>
         let d := Scraper.download_video w σ (c :: u) v in
         let e := Scraper.extract_video_thumbnail w d.1 v t 2%float in
         sent r.1
         = sent σ ++ GET (c :: u) ::
             match d.2, e.2 with
             | Some _, Some _ => [POST 60 v; POST 60 t]
             | _, _ => []
             end ∧
         (d.2 = None ∨ e.2 = None → r.2 = None)
     | _ => r = (σ, None)
     end).
Proof.
  split.
  - intros w st title video_url template_url id v t d e r.
    pose proof (manual_process_media_sent w (Manual.sys st) title video_url id)
      as [Hs Hr].
    cbv zeta in Hs, Hr. fold v t d e in Hs, Hr.
    unfold r, Manual.process_template. fold id.
    destruct (Manual.process_media _ _ _ _ _) as [σ' [[a b]|]]; cbn [fst snd] in *.
    + split; [by destruct (truthy a && truthy b)|].
      intros Hde. assert (is_Some d.2 ∧ is_Some e.2) as [[? Hd] [? He]]
        by (apply Hr; by eexists).
      rewrite Hd, He in Hde. by destruct Hde.
    + done.
  - intros w σ template_url id v t r. unfold r.
    unfold Scraper.scrape_template_page, Scraper.template_data_at_end.
    destruct (driver_get w template_url) as [soup|]; cbn [mbind option_bind];
      [|done].
    destruct (Scraper.extract_video_url soup) as [[|c u]|]; [done| |done].
    cbn [Scraper.template_id]. set (td := if truthy _ then _ else _).
    assert (Scraper.template_id td = Scraper.extract_template_id template_url
            ∧ Scraper.video_url td = None)
      as [Hid Hv] by (unfold td; by destruct (truthy _)).
    pose proof (scraper_process_media_sent w σ (c :: u) td) as [Hs Hr].
    cbv zeta in Hs, Hr. rewrite Hid in Hs, Hr. fold id v t in Hs, Hr.
    cbv zeta.
    destruct (Scraper.process_media w σ (c :: u) td) as [σ' r']; cbn [fst snd] in *.
    split.
    + by destruct (truthy (Scraper.video_url r') && truthy (Scraper.thumbnail_url r')).
    + intros Hde. rewrite (Hr Hde), Hv. done.
Qed.

Lemma pipeline_requests_witness :
  sent (Manual.sys (Manual.process_template undecodable_world
                      (Manual.State [] fresh) (py "Test")
                      (py "https://host/v.mp4") None).1)
  = [GET (py "https://host/v.mp4")] ∧
  (Manual.process_template undecodable_world (Manual.State [] fresh) (py "Test")
     (py "https://host/v.mp4") None).2 = None ∧
  sent (Scraper.scrape_template_page hosting_world fresh
          (py "https://x/template-detail/a/1")).1
  = [GET (py "https://host/v.mp4"); POST 60 (py "downloads/videos/1_0.mp4");
     POST 60 (py "downloads/thumbnails/1_0.jpg")].
Proof.
  split; [|split].
  - exact (proj1 (proj1 pipeline_requests undecodable_world
                    (Manual.State [] fresh) (py "Test")
                    (py "https://host/v.mp4") None)).
  - apply (proj2 (proj1 pipeline_requests undecodable_world
                    (Manual.State [] fresh) (py "Test")
                    (py "https://host/v.mp4") None)).
    right. reflexivity.
  - exact (proj1 (proj2 pipeline_requests hosting_world fresh
                    (py "https://x/template-detail/a/1"))).
Defined.


(** * The loops over the links and over the entries *)
Section Loops.

Lemma scrape_and_keep_grows w st processed url :
  let r := Scraper.scrape_and_keep w st processed url in
  ∃ new, Scraper.templates r.1 = Scraper.templates st ++ new ∧
         r.2 = processed + length new ∧ length new ≤ 1.
Proof.
  unfold Scraper.scrape_and_keep.
  destruct (Scraper.scrape_template_page w (Scraper.sys st) url) as [σ' [r|]];
    cbn [fst snd Scraper.templates].
  - exists [r]. cbn [length]. split; [done|]. lia.
  - exists []. cbn [length]. rewrite app_nil_r. split; [done|]. lia.
Qed.

Lemma process_links_grows max links : ∀ processed st,
  processed < max →
  ∃ new, Scraper.templates (Scraper.process_links max processed st links)
         = Scraper.templates st ++ new ∧
         processed + length new ≤ max ∧ length new ≤ length links.
Proof.
  induction links as [|[url w] links IH]; intros processed st Hlt;
    cbn [Scraper.process_links].
  - exists []. rewrite app_nil_r. cbn [length]. split; [done|]. lia.
  - pose proof (scrape_and_keep_grows w st processed url) as (new & Ht & Hp & Hn).
    cbv zeta in Ht, Hp.
    destruct (Scraper.scrape_and_keep w st processed url) as [st' processed'].
    cbn [fst snd] in Ht, Hp.
    destruct (max <=? processed') eqn:E.
    + exists new. cbn [length]. split; [done|]. lia.
    + apply Nat.leb_gt in E.
      destruct (IH processed' st' E) as (new' & Ht' & Hp' & Hn').
      exists (new ++ new'). rewrite Ht', Ht, length_app, (assoc_L (++)).
      cbn [length]. split; [done|]. lia.
Qed.

Lemma search_templates_grows max st links :
  ∃ new, Scraper.templates (Scraper.search_templates max st links)
         = Scraper.templates st ++ new ∧
         length new ≤ max ∧ length new ≤ length links.
Proof.
  unfold Scraper.search_templates. destruct max as [|max].
  - exists []. rewrite take_0, app_nil_r. cbn. split; [done|]. lia.
  - destruct (process_links_grows (S max) (take (S max) links) 0 st)
      as (new & Ht & Hp & Hn); [lia|].
    exists new. rewrite length_take in Hn. split; [done|]. lia.
Qed.

Lemma search_all_grows max searches : ∀ st,
  ∃ new, Scraper.templates (Scraper.search_all max st searches)
         = Scraper.templates st ++ new ∧
         length new ≤ max * length searches.
Proof.
  unfold Scraper.search_all.
  induction searches as [|links searches IH]; intros st; cbn [foldl].
  - exists []. rewrite app_nil_r. cbn [length]. split; [done|]. lia.
  - destruct (search_templates_grows max st links) as (new & Ht & Hm & _).
    destruct (IH (Scraper.search_templates max st links)) as (new' & Ht' & Hm').
    exists (new ++ new'). rewrite Ht', Ht, length_app, (assoc_L (++)).
    cbn [length]. split; [done|]. lia.
Qed.

Lemma main_loop_stops st pre e w post :
  Manual.e_title e = [] →
  Manual.main_loop st (pre ++ (e, w) :: post) = Manual.main_loop st pre.
Proof.
  intros He. revert st.
  induction pre as [|[e' w'] pre IH]; intros st; cbn [app Manual.main_loop].
  - by rewrite He.
  - destruct (Manual.e_title e'); [done|].
    destruct (Manual.e_video_url e'); apply IH.
Qed.

Lemma process_template_grows w st title video_url template_url :
  ∃ new, Manual.templates
           (Manual.process_template w st title video_url template_url).1
         = Manual.templates st ++ new ∧ length new ≤ 1.
Proof.
  unfold Manual.process_template.
  destruct (Manual.process_media _ _ _ _ _) as [σ' [[v t]|]];
    [destruct (truthy v && truthy t)|]; cbn [fst Manual.templates].
  - eexists [_]. split; [done|]. cbn. lia.
  - exists []. rewrite app_nil_r. split; [done|]. cbn. lia.
  - exists []. rewrite app_nil_r. split; [done|]. cbn. lia.
Qed.

Lemma main_loop_grows entries : ∀ st,
  ∃ new, Manual.templates (Manual.main_loop st entries)
         = Manual.templates st ++ new ∧
         length new
         ≤ length (filter (λ x, Manual.e_video_url x.1 ≠ []) entries).
Proof.
  induction entries as [|[e w] entries IH]; intros st; cbn [Manual.main_loop].
  - exists []. rewrite app_nil_r. split; [done|]. cbn. lia.
  - destruct (Manual.e_title e).
    { exists []. rewrite app_nil_r. split; [done|]. cbn. lia. }
    rewrite filter_cons. cbn [fst].
    destruct (Manual.e_video_url e) as [|c u] eqn:Ev.
    + rewrite decide_False by (by intros H; apply H). apply IH.
    + rewrite decide_True by done.
      destruct (process_template_grows w st (a :: l) (c :: u)
                  (match Manual.e_template_url e with [] => None | u => Some u end))
        as (new & Ht & Hn).
      destruct (IH (Manual.process_template w st (a :: l) (c :: u)
                  (match Manual.e_template_url e with [] => None | u => Some u end)).1)
        as (new' & Ht' & Hn').
      exists (new ++ new'). rewrite Ht', Ht, length_app, (assoc_L (++)).
      cbn [length]. split; [done|]. lia.
Qed.

End Loops.

(** X9: one search appends at most [max_results] records, and at most one
    per link found, after the records collected before, which it keeps in
    place; so the searches of [main], one per query, collect at most
    [max_results] records per query. *)
Theorem search_templates_bounded :
  (∀ max_results st links,
     ∃ new, Scraper.templates (Scraper.search_templates max_results st links)
            = Scraper.templates st ++ new ∧
            length new ≤ max_results ∧ length new ≤ length links) ∧
  (∀ max_results st searches,
     ∃ new, Scraper.templates (Scraper.search_all max_results st searches)
            = Scraper.templates st ++ new ∧
            length new ≤ max_results * length searches).
Proof.
  split.
  - apply search_templates_grows.
  - intros max_results st searches. apply search_all_grows.
Qed.

(** X10: the manual session ends at the first empty title: what is typed
    after it is never processed.  A session keeps the records it had, in
    place, and adds at most one record per entry that has a video URL. *)
Theorem main_loop_ends_at_empty_title :
  (∀ st pre e w post,
     Manual.e_title e = [] →
     Manual.main_loop st (pre ++ (e, w) :: post) = Manual.main_loop st pre) ∧
  (∀ st entries,
     ∃ new, Manual.templates (Manual.main_loop st entries)
            = Manual.templates st ++ new ∧
            length new
            ≤ length (filter (λ x, Manual.e_video_url x.1 ≠ []) entries)).
Proof.
  split.
  - apply main_loop_stops.
  - intros st entries. apply main_loop_grows.
Qed.

Lemma main_loop_ends_at_empty_title_witness :
  let first := (Manual.Entry (py "Test") (py "https://host/v.mp4") [],
                hosting_world) in
  let stop := (Manual.Entry [] [] [], hosting_world) in
  Manual.e_title stop.1 = [] ∧
  Manual.main_loop (Manual.State [] fresh) ([first] ++ stop :: [first; first])
  = Manual.main_loop (Manual.State [] fresh) [first] ∧
  length (Manual.templates
            (Manual.main_loop (Manual.State [] fresh)
               ([first] ++ stop :: [first; first]))) = 1.
Proof.
  intros first stop. split; [reflexivity|]. split.
  - apply (proj1 main_loop_ends_at_empty_title). reflexivity.
  - subst first stop.
    rewrite (proj1 main_loop_ends_at_empty_title) by reflexivity.
    vm_compute. reflexivity.
Defined.


(** * The local files of a record *)
Section Paths.

Lemma string_of_uint_digits d :
  Forall (λ c, is_digit c = true) (py (NilEmpty.string_of_uint d)).
Proof. induction d; cbn; constructor; done. Qed.

Lemma str_of_N_digits n : Forall (λ c, is_digit c = true) (str_of_N n).
Proof.
  unfold str_of_N, NilZero.string_of_uint.
  destruct (N.to_uint n) eqn:E; try apply string_of_uint_digits.
  by repeat constructor.
Qed.

Lemma digits_plain s : Forall (λ c, is_digit c = true) s → plain_name s.
Proof. intros H. eapply Forall_impl; [done|]. by intros c Hc ->. Qed.

Lemma safe_title_chars title :
  Forall (λ c, Manual.unsafe_char c = false) (Manual.safe_title title).
Proof.
  unfold Manual.safe_title, strip, re_sub_class.
  apply Forall_take.
  set (s := filter _ title).
  assert (Forall (λ c, Manual.unsafe_char c = false) s) as H.
  { apply Forall_forall. intros c Hc. by apply list_elem_of_filter in Hc as [? _]. }
  destruct (lstrip_suffix s) as [ws Hs]. rewrite Hs in H.
  apply Forall_app in H as [_ H].
  destruct (rstrip_prefix (lstrip s)) as [ws' Hs']. rewrite Hs' in H.
  by apply Forall_app in H as [H _].
Qed.

Lemma safe_title_plain title : plain_name (Manual.safe_title title).
Proof.
  eapply Forall_impl; [apply safe_title_chars|]. by intros c H ->.
Qed.

Lemma or_else_plain o d :
  (∀ id, o = Some id → plain_name id) → plain_name d → plain_name (or_else o d).
Proof.
  intros Ho Hd. destruct o as [[|c s]|]; cbn; try done. by apply Ho.
Qed.

Lemma manual_name_plain title template_url :
  plain_name (Manual.safe_title title ++ py "_"
           ++ or_else (Manual.template_id_of template_url) (py "manual")).
Proof.
  apply Forall_app. split; [apply safe_title_plain|].
  apply Forall_app. split; [by repeat constructor|].
  apply or_else_plain; [|by repeat constructor].
  intros id H. apply digits_plain. by apply manual_id_of_digits in H as [_ H].
Qed.

Lemma scraper_name_plain url n :
  plain_name (or_else (Scraper.extract_template_id url) (py "unknown") ++ py "_"
           ++ str_of_N n).
Proof.
  apply Forall_app. split.
  - apply or_else_plain; [|by repeat constructor].
    intros id H. apply digits_plain. by apply scraper_id_digits in H as (_ & H & _).
  - apply Forall_app. split; [by repeat constructor|].
    apply digits_plain, str_of_N_digits.
Qed.

Lemma startswith_slash c s :
  c ≠ "/"%char → startswith (py "/") (c :: s) = false.
Proof.
  intros Hc. change (Ascii.eqb "/" c && true = false).
  rewrite (proj2 (Ascii.eqb_neq _ _)); [done|congruence].
Qed.

Lemma scraper_video_path w url :
  ∃ name, plain_name name ∧
    Scraper.video_path w (Scraper.extract_template_id url)
    = py "downloads/videos/" ++ name ++ py ".mp4".
Proof.
  exists (or_else (Scraper.extract_template_id url) (py "unknown") ++ py "_"
            ++ str_of_N (clock_video w)).
  split; [apply scraper_name_plain|].
  unfold Scraper.video_path. cbv zeta.
  destruct (or_else _ _) as [|c s] eqn:E.
  { destruct (Scraper.extract_template_id url) as [[|? ?]|]; cbn in E; discriminate. }
  pose proof (scraper_name_plain url (clock_video w)) as H. rewrite E in H.
  apply Forall_cons in H as [Hc _].
  unfold path_join.
  assert (startswith (py "/") ((c :: s) ++ py "_" ++ str_of_N (clock_video w)
                                ++ py ".mp4") = false) as ->.
  { by apply startswith_slash. }
  cbn [last py list_ascii_of_string]. rewrite <-!(assoc_L (++)). done.
Qed.

Lemma scraper_thumbnail_path w url :
  ∃ name, plain_name name ∧
    Scraper.thumbnail_path w (Scraper.extract_template_id url)
    = py "downloads/thumbnails/" ++ name ++ py ".jpg".
Proof.
  exists (or_else (Scraper.extract_template_id url) (py "unknown") ++ py "_"
            ++ str_of_N (clock_thumb w)).
  split; [apply scraper_name_plain|].
  unfold Scraper.thumbnail_path. cbv zeta.
  destruct (or_else _ _) as [|c s] eqn:E.
  { destruct (Scraper.extract_template_id url) as [[|? ?]|]; cbn in E; discriminate. }
  pose proof (scraper_name_plain url (clock_thumb w)) as H. rewrite E in H.
  apply Forall_cons in H as [Hc _].
  unfold path_join.
  assert (startswith (py "/") ((c :: s) ++ py "_" ++ str_of_N (clock_thumb w)
                                ++ py ".jpg") = false) as ->.
  { by apply startswith_slash. }
  cbn [last py list_ascii_of_string]. rewrite <-!(assoc_L (++)). done.
Qed.

End Paths.

(** * What a run leaves of the other files *)
Section Frames.

Lemma startswith_app p s : startswith p (p ++ s) = true.
Proof. apply startswith_spec. by exists s. Qed.

Lemma manual_template_other_files w st title video_url template_url p :
  startswith (py "temp/") p = false →
  files (Manual.sys
           (Manual.process_template w st title video_url template_url).1) !! p
  = files (Manual.sys st) !! p.
Proof.
  intros Hp.
  pose proof (manual_process_media_effects w (Manual.sys st) title video_url
                (Manual.template_id_of template_url)) as [Hf _].
  cbv zeta in Hf. unfold Manual.process_template.
  assert (files (Manual.process_media w (Manual.sys st) title video_url
                   (Manual.template_id_of template_url)).1 !! p
          = files (Manual.sys st) !! p) as H.
  { apply Hf; intros ->; unfold Manual.video_file, Manual.thumb_file in Hp;
      by rewrite startswith_app in Hp. }
  destruct (Manual.process_media _ _ _ _ _) as [σ' [[a b]|]]; cbn [fst] in *;
    [|done].
  by destruct (truthy a && truthy b).
Qed.

Lemma main_loop_other_files entries p : ∀ st,
  startswith (py "temp/") p = false →
  files (Manual.sys (Manual.main_loop st entries)) !! p
  = files (Manual.sys st) !! p.
Proof.
  induction entries as [|[e w] entries IH]; intros st Hp;
    cbn [Manual.main_loop]; [done|].
  destruct (Manual.e_title e); [done|].
  destruct (Manual.e_video_url e); [by apply IH|].
  rewrite IH by done. by apply manual_template_other_files.
Qed.

Lemma scraper_page_other_files w σ template_url p :
  startswith (py "downloads/") p = false →
  files (Scraper.scrape_template_page w σ template_url).1 !! p = files σ !! p.
Proof.
  intros Hp.
  unfold Scraper.scrape_template_page, Scraper.template_data_at_end.
  destruct (driver_get w template_url) as [soup|]; [|done].
  destruct (Scraper.extract_video_url soup) as [[|c u]|]; [done| |done].
  cbn [Scraper.template_id]. set (td := if truthy _ then _ else _).
  assert (Scraper.template_id td = Scraper.extract_template_id template_url)
    as Hid by (unfold td; by destruct (truthy _)).
  pose proof (scraper_process_media_effects w σ (c :: u) td) as [Hf _].
  cbv zeta in Hf. rewrite Hid in Hf.
  assert (files (Scraper.process_media w σ (c :: u) td).1 !! p = files σ !! p)
    as H.
  { apply Hf; intros ->.
    - destruct (scraper_video_path w template_url) as (name & _ & E).
      rewrite E in Hp. vm_compute in Hp. discriminate.
    - destruct (scraper_thumbnail_path w template_url) as (name & _ & E).
      rewrite E in Hp. vm_compute in Hp. discriminate. }
  destruct (Scraper.process_media w σ (c :: u) td) as [σ' r]; cbn [fst] in *.
  by destruct (truthy (Scraper.video_url r) && truthy (Scraper.thumbnail_url r)).
Qed.

Lemma process_links_other_files max links p : ∀ processed st,
  startswith (py "downloads/") p = false →
  files (Scraper.sys (Scraper.process_links max processed st links)) !! p
  = files (Scraper.sys st) !! p.
Proof.
  induction links as [|[url w] links IH]; intros processed st Hp;
    cbn [Scraper.process_links]; [done|].
  pose proof (scraper_page_other_files w (Scraper.sys st) url p Hp) as H.
  unfold Scraper.scrape_and_keep.
  destruct (Scraper.scrape_template_page w (Scraper.sys st) url) as [σ' [r|]];
    cbn [fst] in H.
  - destruct (max <=? S processed); [done|]. by rewrite IH.
  - destruct (max <=? processed); [done|]. by rewrite IH.
Qed.

Lemma search_all_other_files max searches p : ∀ st,
  startswith (py "downloads/") p = false →
  files (Scraper.sys (Scraper.search_all max st searches)) !! p
  = files (Scraper.sys st) !! p.
Proof.
  unfold Scraper.search_all.
  induction searches as [|links searches IH]; intros st Hp; cbn [foldl]; [done|].
  rewrite IH by done. by apply process_links_other_files.
Qed.

End Frames.

(** X11: whatever the title and the URL, typed or scraped, the two local
    files of a record lie directly in the working directories: the manual
    variant writes temp/NAME.mp4 and temp/NAME.jpg, the automated one
    downloads/videos/V.mp4 and downloads/thumbnails/T.jpg, where NAME, V
    and T hold no path separator. *)
Theorem local_paths_confined :
  (∀ title template_url,
     ∃ name, plain_name name ∧
       Manual.video_file title (Manual.template_id_of template_url)
       = py "temp/" ++ name ++ py ".mp4" ∧
       Manual.thumb_file title (Manual.template_id_of template_url)
       = py "temp/" ++ name ++ py ".jpg") ∧
  (∀ w url,
     ∃ v t, plain_name v ∧ plain_name t ∧
       Scraper.video_path w (Scraper.extract_template_id url)
       = py "downloads/videos/" ++ v ++ py ".mp4" ∧
       Scraper.thumbnail_path w (Scraper.extract_template_id url)
       = py "downloads/thumbnails/" ++ t ++ py ".jpg").
Proof.
  split.
  - intros title template_url. eexists. split; [apply manual_name_plain|].
    unfold Manual.video_file, Manual.thumb_file.
    by rewrite <-!(assoc_L (++)).
  - intros w url.
    destruct (scraper_video_path w url) as (v & Hv & Ev).
    destruct (scraper_thumbnail_path w url) as (t & Ht & Et).
    by exists v, t.
Qed.

(** X12: a whole run touches no file outside its working directory: a
    manual session leaves every path that does not start with temp/ as it
    was, and the searches of the automated variant leave every path that
    does not start with downloads/ as it was. *)
Theorem runs_keep_other_files :
  (∀ st entries p,
     startswith (py "temp/") p = false →
     files (Manual.sys (Manual.main_loop st entries)) !! p
     = files (Manual.sys st) !! p) ∧
  (∀ max_results st searches p,
     startswith (py "downloads/") p = false →
     files (Scraper.sys (Scraper.search_all max_results st searches)) !! p
     = files (Scraper.sys st) !! p).
Proof.
  split.
  - intros st entries p. apply main_loop_other_files.
  - intros max_results st searches p. apply search_all_other_files.
Qed.

Lemma runs_keep_other_files_witness :
  let σ := System {[ py "notes.txt" := py "keep" ]} [] in
  let links := [(py "https://x/template-detail/a/1", hosting_world);
                (py "https://x/template-detail/b/2", undecodable_world)] in
  startswith (py "downloads/") (py "notes.txt") = false ∧
  files (Scraper.sys (Scraper.search_all 5 (Scraper.State [] σ) [links; links]))
    !! py "notes.txt" = Some (py "keep").
Proof.
  intros σ links. split; [reflexivity|].
  rewrite (proj2 runs_keep_other_files) by reflexivity. reflexivity.
Defined.

(** X13: a manual session that keeps at least one record ends by writing
    the export of exactly its records to output/manual_templates.csv; one
    that keeps none leaves that file as it was.  No other file outside
    temp/ is changed. *)
Theorem manual_main_export (σ : system) (entries : list (Manual.entry * world)) :
  let st := Manual.main σ entries in
  let out := py "output/manual_templates.csv" in
  Manual.templates st
  = Manual.templates (Manual.main_loop (Manual.State [] σ) entries) ∧
  ((Manual.templates st = [] ∧ files (Manual.sys st) !! out = files σ !! out)
   ∨ (Manual.templates st ≠ [] ∧
      files (Manual.sys st) !! out
      = Some (encode_utf8 (Manual.csv_text (Manual.templates st))))) ∧
  (∀ p, startswith (py "temp/") p = false → p ≠ out →
        files (Manual.sys st) !! p = files σ !! p).
Proof.
  intros st out. unfold st, Manual.main. cbv zeta.
  pose proof (main_loop_other_files entries) as Hf.
  specialize (λ p, Hf p (Manual.State [] σ)). cbn [Manual.sys] in Hf.
  destruct (Manual.templates (Manual.main_loop _ entries)) as [|t ts] eqn:E.
  - rewrite E. split; [done|]. split.
    + left. split; [done|]. by apply Hf.
    + intros p Hp _. by apply Hf.
  - unfold Manual.export_csv. cbn [fst Manual.templates Manual.sys write_file files].
    rewrite E. split; [done|].
    change (path_join (py "output") (py "manual_templates.csv")) with out.
    split.
    + right. split; [done|]. apply lookup_insert_eq.
    + intros p Hp Hne. rewrite lookup_insert_ne by done. by apply Hf.
Qed.

Lemma manual_main_export_witness :
  let σ := System {[ py "output/manual_templates.csv" := py "old";
                     py "notes.txt" := py "keep" ]} [] in
  let kept := [(Manual.Entry (py "Test") (py "https://host/v.mp4") [],
                hosting_world)] in
  let dropped := [(Manual.Entry (py "Test") (py "https://host/v.mp4") [],
                   undecodable_world)] in
  files (Manual.sys (Manual.main σ dropped)) !! py "output/manual_templates.csv"
  = Some (py "old") ∧
  length (Manual.templates (Manual.main σ kept)) = 1 ∧
  files (Manual.sys (Manual.main σ kept)) !! py "output/manual_templates.csv"
  = Some (encode_utf8 (Manual.csv_text (Manual.templates (Manual.main σ kept)))) ∧
  files (Manual.sys (Manual.main σ kept)) !! py "notes.txt" = Some (py "keep").
Proof.
  intros σ kept dropped. split; [|split; [|split]].
  - destruct (manual_main_export σ dropped) as (_ & [[_ H]|[H _]] & _).
    + rewrite H. reflexivity.
    + exfalso. apply H. reflexivity.
  - reflexivity.
  - destruct (manual_main_export σ kept) as (_ & [[H _]|[_ H]] & _).
    + exfalso. vm_compute in H. discriminate.
    + apply H.
  - rewrite (proj2 (proj2 (manual_main_export σ kept))); [reflexivity..|].
    vm_compute. discriminate.
Defined.


(** * What [re.findall] returns *)
Section Findall.

Lemma first_some_Some {A B : Type} (f : A → option B) l y :
  first_some f l = Some y → ∃ x, x ∈ l ∧ f x = Some y.
Proof.
  induction l as [|x l IH]; cbn [first_some]; [done|].
  destruct (f x) as [y'|] eqn:E.
  - intros [= ->]. exists x. split; [apply list_elem_of_here|done].
  - intros H. destruct (IH H) as (x' & Hx & Hy).
    exists x'. split; [by apply list_elem_of_further|done].
Qed.

(** Every string returned satisfies what holds of the selection of every
    match of the pattern in the text. *)
Lemma findall_from_Forall (P : str → Prop) sel r text :
  (∀ s pos e marks g,
     s = drop pos text →
     match_here r s pos [] = Some (e, marks) →
     sel (RMatch text pos e marks) = Some g → P g) →
  ∀ s pos skip, s = drop pos text →
  Forall P (findall_from sel r text s pos skip).
Proof.
  intros HP s. induction s as [|c s IH]; intros pos skip Hs;
    cbn [findall_from]; [done|].
  assert (s = drop (S pos) text) as Hs'.
  { change (S pos) with (1 + pos). rewrite Nat.add_comm, <-drop_drop, <-Hs. done. }
  destruct skip as [|k]; [|by apply IH].
  destruct (match_here r (c :: s) pos []) as [[e marks]|] eqn:E; [|by apply IH].
  destruct (sel (RMatch text pos e marks)) as [g|] eqn:Eg; [|by apply IH].
  constructor; [exact (HP _ _ _ _ _ Hs E Eg)|by apply IH].
Qed.

Lemma re_findall_Forall (P : str → Prop) sel r text :
  (∀ s pos e marks g,
     s = drop pos text →
     match_here r s pos [] = Some (e, marks) →
     sel (RMatch text pos e marks) = Some g → P g) →
  Forall P (re_findall sel r text).
Proof. intros HP. by apply findall_from_Forall. Qed.

(** The whole match of a pattern that starts with the literal text [l]
    starts with [l]. *)
Lemma group0_lits (l : str) r text s pos e marks :
  s = drop pos text →
  match_here ((Lit <$> l) ++ r) s pos [] = Some (e, marks) →
  ∃ t, group0 (RMatch text pos e marks) = l ++ t.
Proof.
  intros Hs H. apply match_here_sound in H as (u & rest & Hu & -> & HM).
  apply Matches_lits in HM as (u' & -> & _). exists u'.
  unfold group0, slice. cbn [m_start m_end m_string].
  rewrite <-Hs, Hu. replace (pos + _ - pos) with (length (l ++ u')) by lia.
  by rewrite take_app_length.
Qed.

Lemma match_here_lits (l : str) r : ∀ s pos marks res,
  match_here ((Lit <$> l) ++ r) s pos marks = Some res →
  ∃ s', s = l ++ s' ∧ match_here r s' (pos + length l) marks = Some res.
Proof.
  induction l as [|c l IH]; intros s pos marks res; cbn.
  - intros H. exists s. by rewrite Nat.add_0_r.
  - destruct s as [|x s]; [done|]. destruct (Ascii.eqb_spec c x) as [->|]; [|done].
    intros H. destruct (IH _ _ _ _ H) as (s' & -> & H').
    exists s'. split; [done|]. by rewrite Nat.add_succ_r.
Qed.

(** Group 1 of the pattern [Q(l r)Q]: it starts with [l]. *)
Lemma group_1_quoted q (l : str) r text s pos e marks g :
  groupless r = true →
  s = drop pos text →
  match_here ([Lit q; Open] ++ (Lit <$> l) ++ r ++ [Close; Lit q]) s pos []
  = Some (e, marks) →
  group 1 (RMatch text pos e marks) = Some g →
  ∃ t, g = l ++ t.
Proof.
  intros Hr Hs H. cbn [app match_here] in H.
  destruct s as [|x s]; [done|]. destruct (Ascii.eqb q x); [|done].
  apply match_here_lits in H as (s' & -> & H).
  apply match_here_skip in H as (k & Hk & H); [|done].
  cbn [match_here] in H.
  assert (marks = [S pos; S pos + length l + k]) as ->.
  { destruct (drop k s') as [|y s'']; [done|].
    destruct (Ascii.eqb q y); [|done]. by injection H as _ <-. }
  unfold group, slice. cbn [m_marks m_string lookup list_lookup].
  replace (2 * 1 - 2) with 0 by lia. replace (2 * 1 - 1) with 1 by lia.
  cbn [lookup list_lookup]. intros [= <-].
  assert (drop (S pos) text = l ++ s') as ->.
  { change (S pos) with (1 + pos). rewrite Nat.add_comm, <-drop_drop, <-Hs. done. }
  replace (pos + length l + k - pos) with (length l + k) by lia.
  rewrite take_app_add'; [|done]. by eexists.
Qed.

End Findall.

(** * The fields read off the page *)
Section Fields.

Lemma usable_src_http src u :
  Scraper.usable_src src = Some u → startswith (py "http") u = true.
Proof.
  unfold Scraper.usable_src. destruct src as [s|]; [|done].
  destruct (truthy (Some s)); [|done]. cbn [andb].
  destruct (startswith (py "//") s) eqn:E2.
  - rewrite orb_true_r. by intros [= <-].
  - rewrite orb_false_r. destruct (startswith (py "http") s) eqn:E1; [|done].
    by intros [= <-].
Qed.

Lemma video_patterns_https text :
  Forall (λ '(sel, pattern),
            Forall (λ m, ∃ t, m = py "https://" ++ t)
                   (re_findall sel pattern text))
         Scraper.video_patterns.
Proof.
  unfold Scraper.video_patterns. repeat constructor.
  - apply re_findall_Forall. intros s pos e marks g Hs H [= <-].
    eapply (group0_lits (py "https://")); [exact Hs|exact H].
  - apply re_findall_Forall. intros s pos e marks g Hs H [= <-].
    eapply (group0_lits (py "https://")); [exact Hs|exact H].
  - apply re_findall_Forall. intros s pos e marks g Hs H Hg.
    apply (group_1_quoted quote_char (py "https://")
             ([plus (char_not quote_char)] ++ lits ".mp4"
                ++ [star (char_not quote_char)]) text s pos e marks g);
      done.
Qed.

End Fields.

(** X14: the video URL found on a page is never the empty string, and it
    starts with http unless it is the src that the live video element
    reports, which is returned as it is. *)
Theorem extract_video_url_usable (soup : page) (u : str) :
  Scraper.extract_video_url soup = Some u →
  u ≠ [] ∧
  (startswith (py "http") u = true ∨ driver_video_src soup = Some (Some u)).
Proof.
  assert (∀ v, startswith (py "http") v = true → v ≠ []) as Hne
    by (by intros [|? ?]).
  unfold Scraper.extract_video_url.
  destruct (first_some _ (find_all_video soup)) as [src|] eqn:E1.
  { intros [= <-]. apply first_some_Some in E1 as (video & _ & H).
    destruct (Scraper.usable_src (v_src video)) as [src'|] eqn:E.
    - injection H as <-. apply usable_src_http in E.
      split; [by apply Hne|by left].
    - apply first_some_Some in H as (x & _ & H). apply usable_src_http in H.
      split; [by apply Hne|by left]. }
  destruct (driver_video_src soup) as [[[|c src]|]|] eqn:E2.
  2:{ intros [= <-]. split; [done|by right]. }
  all: intros H; apply first_some_Some in H as ([sel pattern] & Hin & H);
    apply first_some_Some in H as (m & Hm & H);
    destruct (contains (py "mp4") (lower m)); [|done]; injection H as <-;
    pose proof (video_patterns_https (page_source soup)) as Hall;
    rewrite Forall_forall in Hall; specialize (Hall _ Hin); cbn in Hall;
    rewrite Forall_forall in Hall; destruct (Hall _ Hm) as (t & ->);
    split; [done|by left].
Qed.

Lemma extract_video_url_usable_witness :
  let soup := Page (λ _, None) None [] [VideoTag None [None; Some (py "//host/v.mp4")]]
                None [] in
  Scraper.extract_video_url soup = Some (py "https://host/v.mp4") ∧
  py "https://host/v.mp4" ≠ [] ∧
  (startswith (py "http") (py "https://host/v.mp4") = true ∨
   driver_video_src soup = Some (Some (py "https://host/v.mp4"))).
Proof.
  intros soup. split; [reflexivity|].
  apply (extract_video_url_usable soup). reflexivity.
Defined.

(** X15: the title that the automated variant reads off a page is the text
    of the element found by the first of the five selectors, in their
    order, whose element has a text longer than three characters, and
    Untitled Template when no selector finds such an element; so it always
    has more than three characters. *)
Theorem extract_title_long (soup : page) :
  let long selector :=
    ∃ element, select_one soup selector = Some element ∧
               3 < length (el_text element) in
  ((∃ i selector element,
      Scraper.title_selectors !! i = Some selector ∧
      select_one soup selector = Some element ∧
      3 < length (el_text element) ∧
      Scraper.extract_title soup = el_text element ∧
      ∀ j earlier, j < i → Scraper.title_selectors !! j = Some earlier →
                   ¬ long earlier)
   ∨ (Scraper.extract_title soup = py "Untitled Template" ∧
      ∀ selector, selector ∈ Scraper.title_selectors → ¬ long selector)) ∧
  3 < length (Scraper.extract_title soup).
Proof.
  intros long. unfold Scraper.extract_title.
  set (f := λ selector, match select_one soup selector with
                        | Some element =>
                            if 3 <? length (el_text element)
                            then Some (el_text element) else None
                        | None => None
                        end).
  assert (∀ selector, f selector = None → ¬ long selector) as Hnone.
  { intros selector Hf (element & He & Hl). unfold f in Hf. rewrite He in Hf.
    apply Nat.ltb_lt in Hl. by rewrite Hl in Hf. }
  assert (∀ selector title, f selector = Some title →
            ∃ element, select_one soup selector = Some element ∧
                       3 < length (el_text element) ∧ title = el_text element)
    as Hsome.
  { intros selector title Hf. unfold f in Hf.
    destruct (select_one soup selector) as [element|]; [|done].
    destruct (3 <? length (el_text element)) eqn:El; [|done].
    injection Hf as <-. apply Nat.ltb_lt in El. by exists element. }
  assert (match first_some f Scraper.title_selectors with
          | Some title =>
              ∃ i selector, Scraper.title_selectors !! i = Some selector ∧
                f selector = Some title ∧
                ∀ j earlier, j < i →
                  Scraper.title_selectors !! j = Some earlier → f earlier = None
          | None => ∀ selector, selector ∈ Scraper.title_selectors →
                                f selector = None
          end) as H.
  { induction Scraper.title_selectors as [|selector selectors IH];
      cbn [first_some].
    - intros selector Hs. by apply elem_of_nil in Hs.
    - destruct (f selector) as [title|] eqn:E.
      + exists 0, selector. repeat split; try done. intros j earlier Hj. lia.
      + destruct (first_some f selectors) as [title|].
        * destruct IH as (i & sel & Hi & Hf & Hj). exists (S i), sel.
          repeat split; try done. intros [|j] earlier Hlt; cbn.
          -- by intros [= <-].
          -- apply Hj. lia.
        * intros sel [-> |Hs]%elem_of_cons; [done|by apply IH]. }
  destruct (first_some f Scraper.title_selectors) as [title|];
    cbn [default from_option id].
  - destruct H as (i & selector & Hi & Hf & Hj).
    destruct (Hsome _ _ Hf) as (element & He & Hl & ->). split; [|done].
    left. exists i, selector, element. repeat split; try done.
    intros j earlier Hlt Hearlier. by apply Hnone, (Hj j).
  - split; [|cbn; lia]. right. split; [done|].
    intros selector Hs. by apply Hnone, H.
Qed.

Lemma extract_title_long_witness :
  let soup := Page (λ selector,
                      if decide (selector = py ".template-title")
                      then Some (Element (py "div") (py "New") (λ _, None))
                      else if decide (selector = py "h1")
                      then Some (Element (py "h1") (py "Phonk edit") (λ _, None))
                      else None)
                None [] [] None [] in
  Scraper.extract_title soup = py "Phonk edit" ∧
  ∃ i, Scraper.title_selectors !! i = Some (py "h1").
Proof.
  intros soup. split; [reflexivity|].
  destruct (extract_title_long soup) as [[H|[H _]] _].
  - destruct H as (i & selector & element & Hi & He & _ & Ht & _).
    exists i. rewrite Hi. f_equal.
    unfold Scraper.title_selectors in Hi.
    destruct i as [|[|[|[|[|i]]]]]; cbn in Hi; try discriminate;
      injection Hi as <-; vm_compute in He; try discriminate.
    + injection He as <-. vm_compute in Ht. discriminate.
    + reflexivity.
  - vm_compute in H. discriminate.
Defined.


(** * The duration and the tags *)
Section Scans.

Lemma search_from_leftmost r text : ∀ s pos m,
  search_from r text s pos = Some m →
  ∀ pre u rest, s = pre ++ u ++ rest → Matches r u rest →
  m_start m ≤ pos + length pre.
Proof.
  induction s as [|c s IH]; intros pos m; cbn [search_from].
  - destruct (match_here r [] pos []) as [[e marks]|]; [|done].
    intros [= <-] pre u rest _ _. cbn. lia.
  - destruct (match_here r (c :: s) pos []) as [[e marks]|] eqn:E.
    + intros [= <-] pre u rest _ _. cbn. lia.
    + intros H pre u rest Hs HM. destruct pre as [|c' pre].
      * cbn [app] in Hs.
        destruct (match_here_complete r u rest HM pos []) as [x Hx].
        rewrite <-Hs in Hx. congruence.
      * injection Hs as -> ->.
        pose proof (IH _ _ H pre u rest eq_refl HM). cbn [length]. lia.
Qed.

(** [re.search] returns the leftmost match. *)
Lemma re_search_group0 r text m :
  re_search r text = Some m →
  ∃ pre post, text = pre ++ group0 m ++ post ∧ Matches r (group0 m) post ∧
    ∀ pre' u rest, text = pre' ++ u ++ rest → Matches r u rest →
                   length pre ≤ length pre'.
Proof.
  intros H. pose proof (search_from_leftmost _ _ _ _ _ H) as Hleft.
  apply search_from_Some in H as (pre & u & rest & Ht & HM & Hs & Hst & Hen).
  assert (group0 m = u) as ->.
  { unfold group0, slice. rewrite Hen, Hst, Hs.
    replace (0 + length pre + length u - (0 + length pre)) with (length u) by lia.
    rewrite Ht at 1. cbn [Nat.add]. by rewrite drop_app_length, take_app_length. }
  exists pre, rest. split; [done|]. split; [done|].
  intros pre' u' rest' Ht' HM'. specialize (Hleft pre' u' rest' Ht' HM'). lia.
Qed.

(** The loop over the patterns of [extract_duration]. *)
Lemma first_match ps text :
  match first_some (λ pattern, group0 <$> re_search pattern text) ps with
  | None => ∀ p, p ∈ ps → ¬ occurs p text
  | Some d =>
      ∃ i p pre post,
        ps !! i = Some p ∧ text = pre ++ d ++ post ∧ Matches p d post ∧
        (∀ j q, j < i → ps !! j = Some q → ¬ occurs q text) ∧
        (∀ pre' u rest, text = pre' ++ u ++ rest → Matches p u rest →
                        length pre ≤ length pre')
  end.
Proof.
  induction ps as [|p ps IH]; cbn [first_some].
  - intros p Hp. by apply elem_of_nil in Hp.
  - destruct (re_search p text) as [m|] eqn:E; cbn [fmap option_fmap option_map].
    + destruct (re_search_group0 _ _ _ E) as (pre & post & Ht & HM & Hl).
      exists 0, p, pre, post. repeat split; try done. intros j q Hj. lia.
    + apply re_search_None in E.
      destruct (first_some _ ps) as [d|].
      * destruct IH as (i & q & pre & post & Hi & Ht & HM & Hj & Hl).
        exists (S i), q, pre, post. repeat split; try done.
        intros [|j] q' Hlt; cbn.
        -- by intros [= <-].
        -- apply Hj. lia.
      * intros q [->|Hq]%elem_of_cons; [done|by apply IH].
Qed.

Lemma duration_pattern_digit p d post :
  p ∈ Scraper.duration_patterns → Matches p d post →
  ∃ c t, d = c :: t ∧ is_digit c = true.
Proof.
  intros Hp HM. unfold Scraper.duration_patterns in Hp. list_cases Hp;
    cbn [app] in HM;
    inversion HM as [| | | ? ? ? HM1| |]; subst;
    inversion HM1 as [| |? ? ? ? v u ? Hv Hlo _ _| | |]; subst;
    (destruct v as [|c v]; [cbn in Hlo; lia|]);
    apply Forall_cons in Hv as [Hc _]; by exists c, (v ++ u).
Qed.

Lemma word_not_space c : is_word c = true → is_space c = false.
Proof.
  destruct c as [[] [] [] [] [] [] [] []]; vm_compute; intros H;
    first [reflexivity | discriminate].
Qed.

Lemma strip_fixed c s :
  is_space c = false → (∀ x, last (c :: s) = Some x → is_space x = false) →
  strip (c :: s) = c :: s.
Proof.
  intros Hc Hl. unfold strip. rewrite (lstrip_fixed c s Hc). unfold rstrip.
  destruct (rev (c :: s)) as [|x t] eqn:E.
  { apply (f_equal (@rev ascii)) in E. by rewrite rev_involutive in E. }
  rewrite lstrip_fixed.
  - by rewrite <-E, rev_involutive.
  - apply Hl. apply (f_equal (@rev ascii)) in E. rewrite rev_involutive in E.
    rewrite E. cbn [rev]. by rewrite last_snoc.
Qed.

Lemma strip_word s :
  s ≠ [] → Forall (λ c, is_word c = true) s → strip s = s.
Proof.
  intros Hne Hs. destruct s as [|c s]; [done|].
  rewrite Forall_forall in Hs. apply strip_fixed.
  - apply word_not_space, Hs, list_elem_of_here.
  - intros x Hx. apply word_not_space, Hs. by apply last_Some_elem_of.
Qed.

Lemma match_here_group_1 p lo hi r text s pos e marks g :
  one_group p lo hi r →
  s = drop pos text →
  match_here r s pos [] = Some (e, marks) →
  group 1 (RMatch text pos e marks) = Some g →
  Forall (λ c, p c = true) g ∧ lo ≤ length g.
Proof.
  intros Hr Hs E.
  destruct (match_here_one_group _ _ _ _ _ _ _ _ Hr E)
    as (j & k & -> & Hjk & Hlo & Hhi & Hp).
  destruct (group_1_marks text s pos e j k Hs Hjk) as (Hg & Hlen & _).
  rewrite Hg. intros [= <-]. by rewrite Hlen.
Qed.

Lemma hashtags_words text :
  Forall (λ g, g ≠ [] ∧ Forall (λ c, is_word c = true) g)
    (re_findall (group 1) (lits "#" ++ [Open; plus is_word; Close]) text).
Proof.
  apply re_findall_Forall. intros s pos e marks g Hs H Hg.
  destruct (match_here_group_1 is_word 1 None
              (lits "#" ++ [Open; plus is_word; Close]) text s pos e marks g)
    as [Hw Hlen]; try done.
  - by exists (lits "#"), [].
  - split; [|done]. intros ->. cbn in Hlen. lia.
Qed.

Lemma extract_tags_clean w soup :
  (∀ l x, x ∈ set_order w l → x ∈ l) →
  Forall (λ tag, tag ≠ [] ∧ strip tag = tag) (Scraper.extract_tags w soup).
Proof.
  intros Hset. unfold Scraper.extract_tags.
  set (keys := match find_meta_keywords soup with Some _ => _ | None => [] end).
  set (hashtags := re_findall _ _ _).
  assert (Forall (λ tag, tag ≠ [] ∧ strip tag = tag) (keys ++ take 5 hashtags))
    as Hall.
  { apply Forall_app. split.
    - unfold keys. destruct (find_meta_keywords soup) as [keywords|]; [|done].
      apply Forall_fmap, Forall_forall. intros tag Htag.
      apply list_elem_of_filter in Htag as [Hne _]. cbn.
      split; [done|apply strip_idem].
    - apply Forall_take. eapply Forall_impl; [apply hashtags_words|].
      intros g [Hne Hw]. split; [done|by apply strip_word]. }
  rewrite Forall_forall in Hall. apply Forall_forall. intros tag Htag.
  apply Hall, Hset. by apply (subseteq_take 5 _ tag).
Qed.

End Scans.

(** X16: the duration of a record is the default 0:15 exactly when none of
    the three patterns matches anywhere in the page text; otherwise it is
    the leftmost piece of the text matched by the first pattern, in the
    order MM:SS, Ns, N sec, that matches anywhere.  In both cases it
    starts with a digit. *)
Theorem extract_duration_sound (soup : page) :
  let text := get_text soup in
  let d := Scraper.extract_duration soup in
  ((d = py "0:15" ∧ ∀ p, p ∈ Scraper.duration_patterns → ¬ occurs p text) ∨
   (∃ i p pre post,
      Scraper.duration_patterns !! i = Some p ∧
      text = pre ++ d ++ post ∧ Matches p d post ∧
      (∀ j q, j < i → Scraper.duration_patterns !! j = Some q →
              ¬ occurs q text) ∧
      (∀ pre' u rest, text = pre' ++ u ++ rest → Matches p u rest →
                      length pre ≤ length pre'))) ∧
  ∃ c t, d = c :: t ∧ is_digit c = true.
Proof.
  intros text d. unfold d, Scraper.extract_duration. cbv zeta. fold text.
  pose proof (first_match Scraper.duration_patterns text) as H.
  destruct (first_some _ Scraper.duration_patterns) as [d'|];
    cbn [default from_option id].
  - destruct H as (i & p & pre & post & Hi & Ht & HM & Hj & Hl). split.
    + right. by exists i, p, pre, post.
    + apply (duration_pattern_digit p d' post); [|done].
      by eapply list_elem_of_lookup_2.
  - split; [by left|]. by exists "0"%char, (py ":15").
Qed.

Lemma extract_duration_sound_witness :
  let soup := Page (λ _, None) None (py "about 5s, or 0:07") [] None [] in
  Scraper.extract_duration soup = py "0:07" ∧
  ∃ pre post, get_text soup = pre ++ Scraper.extract_duration soup ++ post.
Proof.
  intros soup. split; [reflexivity|].
  destruct (extract_duration_sound soup) as [[[H _]|H] _].
  - exfalso. vm_compute in H. discriminate.
  - destruct H as (_ & _ & pre & post & _ & H & _). by exists pre, post.
Defined.

(** X17: with a set iterated in any order of its elements, no tag of a
    record is empty and none has white space at either end. *)
Theorem extract_tags_clean_tags (w : world) (soup : page) :
  set_iteration (set_order w) →
  Forall (λ tag, tag ≠ [] ∧ strip tag = tag) (Scraper.extract_tags w soup).
Proof.
  intros Hset. apply extract_tags_clean. intros l x. apply Hset.
Qed.

Lemma extract_tags_clean_tags_witness :
  let w := hosting_world in
  let soup := Page (λ _, None)
                (Some (Element (py "meta") []
                         (λ _, Some (py " phonk , ,edit ,"))))
                (py "#viral   # #fyp") [] None [] in
  Forall (λ tag, tag ≠ [] ∧ strip tag = tag) (Scraper.extract_tags w soup).
Proof.
  intros w soup. apply extract_tags_clean_tags.
  intros l. split; [apply NoDup_remove_dups|apply elem_of_remove_dups].
Defined.


(** * The links found on a result page *)
Section Links.

Variable urljoin : str → str.

(** [x] is the link that the anchor [link] gives. *)
Let link_of (link : element) (x : str) : Prop :=
  ∃ href, el_get link (py "href") = Some href ∧
          contains (py "template-detail") href = true ∧ x = urljoin href.

Lemma add_link_spec links link :
  NoDup links →
  NoDup (Scraper.add_link urljoin links link) ∧
  ∀ x, x ∈ Scraper.add_link urljoin links link ↔ x ∈ links ∨ link_of link x.
Proof.
  intros Hnd. unfold Scraper.add_link, link_of. cbv zeta.
  destruct (el_get link (py "href")) as [href|]; cbn [default from_option id];
    [|cbn [truthy andb]].
  2:{ split; [done|]. intros x. split; [by left|]. by intros [?|(? & ? & _)]. }
  destruct (truthy (Some href) && contains (py "template-detail") href) eqn:E.
  - apply andb_true_iff in E as [_ E].
    destruct (decide (urljoin href ∈ links)) as [Hin|Hin].
    + split; [done|]. intros x. split; [by left|].
      intros [?|(h & [= <-] & _ & ->)]; done.
    + split.
      * apply NoDup_app. split; [done|]. split; [|apply NoDup_singleton].
        intros x Hx ->%list_elem_of_singleton. done.
      * intros x. rewrite elem_of_app, list_elem_of_singleton. split.
        -- intros [?| ->]; [by left|]. right. by exists href.
        -- intros [?|(h & [= <-] & _ & ->)]; [by left|by right].
  - split; [done|]. intros x. split; [by left|].
    intros [?|(h & [= <-] & Hc & _)]; [done|].
    rewrite Hc, andb_true_r in E. destruct href; [|done].
    by vm_compute in Hc.
Qed.

Lemma add_links_spec found : ∀ links,
  NoDup links →
  NoDup (foldl (Scraper.add_link urljoin) links found) ∧
  ∀ x, x ∈ foldl (Scraper.add_link urljoin) links found
       ↔ x ∈ links ∨ ∃ link, link ∈ found ∧ link_of link x.
Proof.
  induction found as [|link found IH]; intros links Hnd; cbn [foldl].
  - split; [done|]. intros x. split; [by left|].
    intros [?|(? & []%elem_of_nil & _)]. done.
  - destruct (add_link_spec links link Hnd) as [Hnd' Hx'].
    destruct (IH _ Hnd') as [Hnd'' Hx'']. split; [done|].
    intros x. rewrite Hx'', Hx'. split.
    + intros [[?|?]|(l & ? & ?)]; [by left| |].
      * right. exists link. split; [apply list_elem_of_here|done].
      * right. exists l. split; [by apply list_elem_of_further|done].
    + intros [?|(l & [-> |?]%elem_of_cons & ?)].
      * by left; left.
      * by left; right.
      * right. by exists l.
Qed.

Lemma find_links_spec (select : str → list element) selectors : ∀ links,
  NoDup links →
  let result := foldl (λ template_links selector,
                         foldl (Scraper.add_link urljoin) template_links
                               (select selector)) links selectors in
  NoDup result ∧
  ∀ x, x ∈ result
       ↔ x ∈ links ∨ ∃ selector link, selector ∈ selectors ∧
                                     link ∈ select selector ∧ link_of link x.
Proof.
  induction selectors as [|selector selectors IH]; intros links Hnd; cbn [foldl].
  - split; [done|]. intros x. split; [by left|].
    intros [?|(? & ? & []%elem_of_nil & _)]. done.
  - destruct (add_links_spec (select selector) links Hnd) as [Hnd' Hx'].
    destruct (IH _ Hnd') as [Hnd'' Hx'']. split; [done|].
    intros x. rewrite Hx'', Hx'. split.
    + intros [[?|(l & ? & ?)]|(s & l & ? & ? & ?)]; [by left| |].
      * right. exists selector, l. split; [apply list_elem_of_here|done].
      * right. exists s, l. split; [by apply list_elem_of_further|done].
    + intros [?|(s & l & [-> |?]%elem_of_cons & ? & ?)].
      * by left; left.
      * left; right. by exists l.
      * right. by exists s, l.
Qed.

End Links.

(** X18: the links found on a result page hold no link twice, so no page
    is scraped twice in one search; they are exactly the joined URLs of the
    anchors selected by one of the four selectors whose href contains
    template-detail. *)
Theorem find_template_links_unique (select : str → list element)
    (urljoin : str → str) :
  NoDup (Scraper.find_template_links select urljoin) ∧
  ∀ x, x ∈ Scraper.find_template_links select urljoin
       ↔ ∃ selector link href,
           selector ∈ Scraper.link_selectors ∧ link ∈ select selector ∧
           el_get link (py "href") = Some href ∧
           contains (py "template-detail") href = true ∧ x = urljoin href.
Proof.
  destruct (find_links_spec urljoin select Scraper.link_selectors [])
    as [Hnd Hx]; [apply NoDup_nil_2|].
  split; [done|]. intros x. unfold Scraper.find_template_links.
  rewrite Hx. split.
  - intros [[]%elem_of_nil|(s & l & ? & ? & h & ? & ? & ?)]. by exists s, l, h.
  - intros (s & l & h & ? & ? & ? & ? & ?). right. exists s, l.
    split; [done|]. split; [done|]. by exists h.
Qed.


(** * The records of the collection *)
Section Records.

Lemma scraper_upload_hosted w σ p :
  (Scraper.upload_to_catbox w σ p).2 = None
  ∨ hosted (Scraper.upload_to_catbox w σ p).2.
Proof.
  destruct (Scraper.upload_to_catbox w σ p).2 as [u|] eqn:E; [right|by left].
  apply scraper_upload_Some in E as (content & response & _ & _ & H).
  apply scraper_hosted_url_clean in H as [H1 H2]. by exists u.
Qed.

Lemma manual_upload_hosted w σ p :
  (Manual.upload_to_catbox w σ p).2 = None
  ∨ hosted (Manual.upload_to_catbox w σ p).2.
Proof.
  destruct (Manual.upload_to_catbox w σ p).2 as [u|] eqn:E; [right|by left].
  apply manual_upload_Some in E as (content & response & _ & _ & H).
  apply manual_hosted_url_clean in H as [H1 H2]. by exists u.
Qed.

Lemma hosted_truthy o : o = None ∨ hosted o → truthy o = true → hosted o.
Proof. by intros [->|H]. Qed.

Lemma scraper_process_media_urls w σ video_url td :
  Scraper.video_url td = None → Scraper.thumbnail_url td = None →
  let r := (Scraper.process_media w σ video_url td).2 in
  (Scraper.video_url r = None ∨ hosted (Scraper.video_url r)) ∧
  (Scraper.thumbnail_url r = None ∨ hosted (Scraper.thumbnail_url r)).
Proof.
  intros Hv Ht. unfold Scraper.process_media.
  destruct (Scraper.download_video _ _ _ _) as [σ1 [f|]];
    [|by split; left].
  destruct (Scraper.extract_video_thumbnail _ _ _ _ _) as [σ2 [t|]];
    [|by split; left].
  pose proof (scraper_upload_hosted w σ2
                (Scraper.video_path w (Scraper.template_id td))) as H1.
  destruct (Scraper.upload_to_catbox w σ2 _) as [σ3 v].
  pose proof (scraper_upload_hosted w σ3
                (Scraper.thumbnail_path w (Scraper.template_id td))) as H2.
  destruct (Scraper.upload_to_catbox w σ3 _) as [σ4 u]. done.
Qed.

Lemma template_data_at_end_ok w σ url σ' r :
  Scraper.template_data_at_end w σ url = Some (σ', r) →
  truthy (Scraper.video_url r) && truthy (Scraper.thumbnail_url r) = true →
  scraper_record_ok r.
Proof.
  unfold Scraper.template_data_at_end.
  destruct (driver_get w url) as [soup|]; [|done].
  destruct (Scraper.extract_video_url soup) as [[|c u]|]; [done| |done].
  cbn [Scraper.template_id]. set (td := if truthy _ then _ else _).
  intros [= E] [Hv Ht]%andb_true_iff.
  assert (Scraper.web_url td = url ∧
          Scraper.template_id td = Scraper.extract_template_id url ∧
          Scraper.capcut_link td
          = Scraper.generate_capcut_link (Scraper.extract_template_id url) ∧
          Scraper.video_url td = None ∧ Scraper.thumbnail_url td = None)
    as (Hw' & Hid' & Hl' & Hv' & Ht').
  { unfold td. destruct (truthy (Scraper.extract_template_id url)) eqn:Et; [done|].
    repeat split. unfold Scraper.generate_capcut_link. by rewrite Et. }
  pose proof (scraper_process_media_fields w σ (c :: u) td) as H.
  pose proof (scraper_process_media_urls w σ (c :: u) td Hv' Ht') as Hu.
  cbv zeta in H, Hu. rewrite E in H, Hu. cbn [snd] in H, Hu.
  destruct H as (Hw & _ & Hid & _ & _ & _ & Hl). destruct Hu as [Hu1 Hu2].
  unfold scraper_record_ok. rewrite Hw, Hid, Hl, Hw', Hid', Hl'.
  repeat split; try done; by apply hosted_truthy.
Qed.

Lemma scrape_and_keep_ok w st processed url :
  Forall scraper_record_ok (Scraper.templates st) →
  Forall scraper_record_ok
    (Scraper.templates (Scraper.scrape_and_keep w st processed url).1).
Proof.
  intros H. rewrite scrape_and_keep_templates.
  destruct (Scraper.template_data_at_end _ _ _) as [[σ' r]|] eqn:E; [|done].
  destruct (truthy (Scraper.video_url r) && truthy (Scraper.thumbnail_url r))
    eqn:Eb; [|done].
  apply Forall_app. split; [done|]. constructor; [|done].
  by eapply template_data_at_end_ok.
Qed.

Lemma process_links_ok max links : ∀ processed st,
  Forall scraper_record_ok (Scraper.templates st) →
  Forall scraper_record_ok
    (Scraper.templates (Scraper.process_links max processed st links)).
Proof.
  induction links as [|[url w] links IH]; intros processed st H; simpl; [done|].
  pose proof (scrape_and_keep_ok w st processed url H) as H'.
  destruct (Scraper.scrape_and_keep w st processed url) as [st' processed'].
  destruct (max <=? processed'); [done|]. by apply IH.
Qed.

Lemma search_all_ok max searches : ∀ st,
  Forall scraper_record_ok (Scraper.templates st) →
  Forall scraper_record_ok
    (Scraper.templates (Scraper.search_all max st searches)).
Proof.
  unfold Scraper.search_all.
  induction searches as [|links searches IH]; intros st H; cbn [foldl]; [done|].
  apply IH. by apply process_links_ok.
Qed.

Lemma process_template_ok w st title video_url template_url :
  Forall manual_record_ok (Manual.templates st) →
  Forall manual_record_ok
    (Manual.templates
       (Manual.process_template w st title video_url template_url).1).
Proof.
  intros H.
  pose proof (process_template_templates w st title video_url template_url) as E.
  cbv zeta in E. rewrite E. clear E. unfold Manual.process_media.
  destruct (Manual.download_video _ _ _ _) as [σ1 [f|]]; [|done].
  destruct (Manual.extract_thumbnail _ _ _ _) as [σ2 [t|]]; [|done].
  pose proof (manual_upload_hosted w σ2
                (Manual.video_file title (Manual.template_id_of template_url)))
    as H1.
  destruct (Manual.upload_to_catbox w σ2 _) as [σ3 v].
  pose proof (manual_upload_hosted w σ3
                (Manual.thumb_file title (Manual.template_id_of template_url)))
    as H2.
  destruct (Manual.upload_to_catbox w σ3 _) as [σ4 u]. cbn [snd] in H1, H2.
  destruct (truthy v && truthy u) eqn:Eb; [|done].
  apply andb_true_iff in Eb as [Hv Hu].
  apply Forall_app. split; [done|]. constructor; [|done].
  unfold manual_record_ok.
  cbn [Manual.video_url Manual.thumbnail_url Manual.template_id
       Manual.original_url Manual.capcut_link].
  repeat split; try by apply hosted_truthy.
  unfold Manual.template_id_of.
  destruct template_url as [[|c s]|]; cbn [truthy or_else default from_option id];
    reflexivity.
Qed.

Lemma main_loop_ok entries : ∀ st,
  Forall manual_record_ok (Manual.templates st) →
  Forall manual_record_ok (Manual.templates (Manual.main_loop st entries)).
Proof.
  induction entries as [|[e w] entries IH]; intros st H; simpl; [done|].
  destruct (Manual.e_title e); [done|].
  destruct (Manual.e_video_url e); [by apply IH|].
  apply IH. by apply process_template_ok.
Qed.

End Records.

(** X19: every record of the collection a run builds has two hosted URLs
    that start with https:// and carry no white space at either end, the
    identifier extracted from the page URL it keeps, and the deep link of
    that identifier; a manual record without identifier has the empty
    string for deep link. *)
Theorem collected_records_ok :
  (∀ max_results σ searches,
     Forall scraper_record_ok
       (Scraper.templates
          (Scraper.search_all max_results (Scraper.State [] σ) searches))) ∧
  (∀ σ entries,
     Forall manual_record_ok (Manual.templates (Manual.main σ entries))).
Proof.
  split.
  - intros max_results σ searches. by apply search_all_ok.
  - intros σ entries. unfold Manual.main. cbv zeta.
    pose proof (main_loop_ok entries (Manual.State [] σ)) as H.
    destruct (Manual.templates (Manual.main_loop _ entries)) eqn:E;
      [by rewrite E|].
    unfold Manual.export_csv. cbn [fst Manual.templates]. rewrite E.
    by apply H.
Qed.


(** * The requests of a run *)
Section Requests.

Lemma process_template_sent w st title video_url template_url :
  ∃ extra,
    sent (Manual.sys
            (Manual.process_template w st title video_url template_url).1)
    = sent (Manual.sys st) ++ extra ∧ length extra ≤ 3.
Proof.
  pose proof (manual_process_media_effects w (Manual.sys st) title video_url
                (Manual.template_id_of template_url)) as [_ Hs].
  cbv zeta in Hs. unfold Manual.process_template.
  destruct (Manual.process_media _ _ _ _ _) as [σ' [[a b]|]]; cbn [fst snd] in *.
  - eexists. split; [|shelve].
    destruct (truthy a && truthy b); cbn [fst Manual.sys]; exact Hs.
    Unshelve. cbn. lia.
  - eexists. split; [exact Hs|]. cbn. lia.
Qed.

Lemma main_loop_sent entries : ∀ st,
  ∃ extra,
    sent (Manual.sys (Manual.main_loop st entries))
    = sent (Manual.sys st) ++ extra ∧
    length extra
    ≤ 3 * length (filter (λ x, Manual.e_video_url x.1 ≠ []) entries).
Proof.
  induction entries as [|[e w] entries IH]; intros st; cbn [Manual.main_loop].
  - exists []. rewrite app_nil_r. split; [done|]. cbn. lia.
  - destruct (Manual.e_title e).
    { exists []. rewrite app_nil_r. split; [done|]. cbn. lia. }
    rewrite filter_cons. cbn [fst].
    destruct (Manual.e_video_url e) as [|c u] eqn:Ev.
    + rewrite decide_False by (by intros H; apply H). apply IH.
    + rewrite decide_True by done.
      destruct (process_template_sent w st (a :: l) (c :: u)
                  (match Manual.e_template_url e with [] => None | u => Some u end))
        as (extra & Ht & Hn).
      destruct (IH (Manual.process_template w st (a :: l) (c :: u)
                  (match Manual.e_template_url e with [] => None | u => Some u end)).1)
        as (extra' & Ht' & Hn').
      exists (extra ++ extra'). rewrite Ht', Ht, length_app, (assoc_L (++)).
      cbn [length]. split; [done|]. lia.
Qed.

Lemma scrape_template_page_sent w σ template_url :
  ∃ extra,
    sent (Scraper.scrape_template_page w σ template_url).1 = sent σ ++ extra ∧
    length extra ≤ 3.
Proof.
  unfold Scraper.scrape_template_page, Scraper.template_data_at_end.
  assert (∃ extra, sent σ = sent σ ++ extra ∧ length extra ≤ 3) as Hnone.
  { exists []. rewrite app_nil_r. split; [done|]. cbn. lia. }
  destruct (driver_get w template_url) as [soup|]; [|done].
  destruct (Scraper.extract_video_url soup) as [[|c u]|]; [done| |done].
  cbn [Scraper.template_id]. set (td := if truthy _ then _ else _).
  pose proof (scraper_process_media_effects w σ (c :: u) td)
    as [_ (uploaded & Hs & _)].
  cbv zeta in Hs.
  destruct (Scraper.process_media w σ (c :: u) td) as [σ' r']; cbn [fst snd] in *.
  eexists. split.
  - destruct (truthy (Scraper.video_url r') && truthy (Scraper.thumbnail_url r'));
      cbn [fst]; exact Hs.
  - destruct uploaded; cbn; lia.
Qed.

Lemma process_links_sent max links : ∀ processed st,
  ∃ extra,
    sent (Scraper.sys (Scraper.process_links max processed st links))
    = sent (Scraper.sys st) ++ extra ∧ length extra ≤ 3 * length links.
Proof.
  induction links as [|[url w] links IH]; intros processed st;
    cbn [Scraper.process_links].
  - exists []. rewrite app_nil_r. split; [done|]. cbn. lia.
  - pose proof (scrape_template_page_sent w (Scraper.sys st) url)
      as (extra & Hs & Hn).
    unfold Scraper.scrape_and_keep.
    destruct (Scraper.scrape_template_page w (Scraper.sys st) url) as [σ' [r|]];
      cbn [fst] in Hs.
    + destruct (max <=? S processed).
      * exists extra. cbn [Scraper.sys length]. split; [done|]. lia.
      * destruct (IH (S processed) (Scraper.State (Scraper.templates st ++ [r]) σ'))
          as (extra' & Hs' & Hn').
        exists (extra ++ extra'). rewrite Hs'. cbn [Scraper.sys].
        rewrite Hs, length_app, (assoc_L (++)). cbn [length]. split; [done|]. lia.
    + destruct (max <=? processed).
      * exists extra. cbn [Scraper.sys length]. split; [done|]. lia.
      * destruct (IH processed (Scraper.State (Scraper.templates st) σ'))
          as (extra' & Hs' & Hn').
        exists (extra ++ extra'). rewrite Hs'. cbn [Scraper.sys].
        rewrite Hs, length_app, (assoc_L (++)). cbn [length]. split; [done|]. lia.
Qed.

Lemma search_templates_sent max st links :
  ∃ extra,
    sent (Scraper.sys (Scraper.search_templates max st links))
    = sent (Scraper.sys st) ++ extra ∧ length extra ≤ 3 * max.
Proof.
  unfold Scraper.search_templates.
  destruct (process_links_sent max (take max links) 0 st) as (extra & Hs & Hn).
  exists extra. split; [done|]. rewrite length_take in Hn. lia.
Qed.

Lemma search_all_sent max searches : ∀ st,
  ∃ extra,
    sent (Scraper.sys (Scraper.search_all max st searches))
    = sent (Scraper.sys st) ++ extra ∧
    length extra ≤ 3 * max * length searches.
Proof.
  unfold Scraper.search_all.
  induction searches as [|links searches IH]; intros st; cbn [foldl].
  - exists []. rewrite app_nil_r. split; [done|]. cbn. lia.
  - destruct (search_templates_sent max st links) as (extra & Hs & Hn).
    destruct (IH (Scraper.search_templates max st links)) as (extra' & Hs' & Hn').
    exists (extra ++ extra'). rewrite Hs', Hs, length_app, (assoc_L (++)).
    cbn [length]. split; [done|]. lia.
Qed.

End Requests.

(** X20: a run only adds to the requests sent, and at most three per
    record: a manual session sends at most three requests per entry that
    has a video URL, and the searches of the automated variant at most
    three per allowed result of each query. *)
Theorem run_requests_bounded :
  (∀ st entries,
     ∃ extra,
       sent (Manual.sys (Manual.main_loop st entries))
       = sent (Manual.sys st) ++ extra ∧
       length extra
       ≤ 3 * length (filter (λ x, Manual.e_video_url x.1 ≠ []) entries)) ∧
  (∀ max_results st searches,
     ∃ extra,
       sent (Scraper.sys (Scraper.search_all max_results st searches))
       = sent (Scraper.sys st) ++ extra ∧
       length extra ≤ 3 * max_results * length searches).
Proof.
  split.
  - intros st entries. apply main_loop_sent.
  - intros max_results st searches. apply search_all_sent.
Qed.

(** X21: a record that is kept leaves no local file behind: after it, the
    path of its video and the path of its thumbnail hold no file, in both
    variants. *)
Theorem kept_record_files_removed :
  (∀ w st title video_url template_url r,
     let id := Manual.template_id_of template_url in
     let res := Manual.process_template w st title video_url template_url in
     res.2 = Some r →
     files (Manual.sys res.1) !! Manual.video_file title id = None ∧
     files (Manual.sys res.1) !! Manual.thumb_file title id = None) ∧
  (∀ w σ template_url r,
     let id := Scraper.extract_template_id template_url in
     let res := Scraper.scrape_template_page w σ template_url in
     res.2 = Some r →
     files res.1 !! Scraper.video_path w id = None ∧
     files res.1 !! Scraper.thumbnail_path w id = None).
Proof.
  split.
  - intros w st title video_url template_url r id res. unfold res, id.
    destruct (Manual.download_video w (Manual.sys st) video_url
                (Manual.video_file title (Manual.template_id_of template_url)))
      as [σ1 [f|]] eqn:Ed.
    2:{ unfold Manual.process_template, Manual.process_media. by rewrite Ed. }
    destruct (Manual.extract_thumbnail w σ1
                (Manual.video_file title (Manual.template_id_of template_url))
                (Manual.thumb_file title (Manual.template_id_of template_url)))
      as [σ2 [t|]] eqn:Et.
    2:{ unfold Manual.process_template, Manual.process_media. by rewrite Ed, Et. }
    pose proof (manual_cleanup_after_uploads _ _ _ _ _ _ _ _ _ Ed Et) as H.
    cbv zeta in H. unfold Manual.process_template.
    destruct (Manual.process_media _ _ _ _ _) as [σ' [[a b]|]]; [|done].
    cbn [fst] in H. by destruct (truthy a && truthy b).
  - intros w σ template_url r id res. unfold res, id.
    unfold Scraper.scrape_template_page, Scraper.template_data_at_end.
    destruct (driver_get w template_url) as [soup|]; [|done].
    destruct (Scraper.extract_video_url soup) as [[|c u]|]; [done| |done].
    cbn [Scraper.template_id]. set (td := if truthy _ then _ else _).
    assert (Scraper.template_id td = Scraper.extract_template_id template_url
            ∧ Scraper.video_url td = None)
      as [Hid Hv] by (unfold td; by destruct (truthy _)).
    rewrite <-Hid.
    destruct (Scraper.download_video w σ (c :: u)
                (Scraper.video_path w (Scraper.template_id td)))
      as [σ1 [f|]] eqn:Ed.
    2:{ unfold Scraper.process_media. by rewrite Ed, Hv. }
    destruct (Scraper.extract_video_thumbnail w σ1
                (Scraper.video_path w (Scraper.template_id td))
                (Scraper.thumbnail_path w (Scraper.template_id td)) 2%float)
      as [σ2 [t|]] eqn:Et.
    2:{ unfold Scraper.process_media. by rewrite Ed, Et, Hv. }
    pose proof (scraper_cleanup_after_uploads w σ (c :: u) td σ1 f σ2 t Ed Et)
      as H.
    cbv zeta in H.
    destruct (Scraper.process_media w σ (c :: u) td) as [σ' r']; cbn [fst] in *.
    by destruct (truthy (Scraper.video_url r') && truthy (Scraper.thumbnail_url r')).
Qed.

Lemma kept_record_files_removed_witness :
  let st := Manual.State [] (System {[ py "temp/Test_manual.jpg" := py "old" ]} []) in
  let res := Manual.process_template hosting_world st (py "Test")
               (py "https://host/v.mp4") None in
  is_Some res.2 ∧
  files (Manual.sys res.1) !! py "temp/Test_manual.mp4" = None ∧
  files (Manual.sys res.1) !! py "temp/Test_manual.jpg" = None.
Proof.
  intros st res.
  assert (is_Some res.2) as [r Hr] by (vm_compute; by eexists).
  split; [by exists r|].
  exact (proj1 kept_record_files_removed hosting_world st (py "Test")
           (py "https://host/v.mp4") None r Hr).
Defined.
